(** * MissingLink: the privacy budget and noise-injection engine

    A shallow embedding of [backend/app/services/differential_privacy.py]
    (class [DifferentialPrivacy]) and of the k-anonymity endpoint of
    [backend/app/api/dp.py], with the properties its specification states.

    Modelling conventions.
    - A Python or numpy float holding a number is an exact rational ([Q]);
      rounding is not modelled.  Equality of computed numbers is therefore
      stated with [==].
    - The float results that the code itself can produce from numbers and
      that are not numbers (the [nan] of an empty reduction or of [0/0],
      the infinities of [x/0]) are kept: type [npfloat].
    - A cell of an input frame holds a number, a string, or the missing
      value ([nan], what [pd.read_csv] gives for an empty cell): a cell is
      an [option], [None] being the missing value.  Infinite cells are
      outside the model.
    - [diffprivlib] and the numpy functions [sqrt], [log] and [exp] are
      not part of the repository: they are interfaces ([Diffprivlib],
      [Numpy]) over which the engine is parametric. *)

From Stdlib Require Import QArith Qminmax Qabs Qround Lqa ZArith Lia.
From stdpp Require Import base option list strings gmap.

Open Scope Q_scope.

(** ** Numbers *)

Definition Qltb (a b : Q) : bool := negb (Qle_bool b a).

(** numpy float64 values: a number, or one of the IEEE special values. *)
Inductive npfloat :=
| Finite (q : Q)
| PosInf
| NegInf
| NaN.

Module Float.

Definition neg (a : npfloat) : npfloat :=
  match a with
  | Finite q => Finite (- q)
  | PosInf => NegInf
  | NegInf => PosInf
  | NaN => NaN
  end.

Definition add (a b : npfloat) : npfloat :=
  match a, b with
  | NaN, _ | _, NaN => NaN
  | Finite x, Finite y => Finite (x + y)
  | PosInf, NegInf | NegInf, PosInf => NaN
  | PosInf, _ | _, PosInf => PosInf
  | NegInf, _ | _, NegInf => NegInf
  end.

Definition sub (a b : npfloat) : npfloat := add a (neg b).

Definition abs (a : npfloat) : npfloat :=
  match a with
  | Finite q => Finite (Qabs q)
  | PosInf | NegInf => PosInf
  | NaN => NaN
  end.

(** The infinity of the sign of [q] ([q] not zero). *)
Definition inf_of_sign (q : Q) : npfloat :=
  if Qltb q 0 then NegInf else PosInf.

Definition mul (a b : npfloat) : npfloat :=
  match a, b with
  | NaN, _ | _, NaN => NaN
  | Finite x, Finite y => Finite (x * y)
  | Finite x, PosInf | PosInf, Finite x =>
      if Qeq_bool x 0 then NaN else inf_of_sign x
  | Finite x, NegInf | NegInf, Finite x =>
      if Qeq_bool x 0 then NaN else inf_of_sign (- x)
  | PosInf, PosInf | NegInf, NegInf => PosInf
  | PosInf, NegInf | NegInf, PosInf => NegInf
  end.

(** numpy's true division: a zero divisor gives [nan] or an infinity
    (with a warning), never an exception. *)
Definition div (a b : npfloat) : npfloat :=
  match a, b with
  | NaN, _ | _, NaN => NaN
  | Finite x, Finite y =>
      if Qeq_bool y 0
      then (if Qeq_bool x 0 then NaN else inf_of_sign x)
      else Finite (x / y)
  | Finite _, _ => Finite 0
  | PosInf, Finite y => inf_of_sign (if Qeq_bool y 0 then 1 else y)
  | NegInf, Finite y => inf_of_sign (- (if Qeq_bool y 0 then 1 else y))
  | _, _ => NaN
  end.

(** Comparisons: every comparison with [nan] is false, except [!=]. *)
Definition eqb (a b : npfloat) : bool :=
  match a, b with
  | Finite x, Finite y => Qeq_bool x y
  | PosInf, PosInf | NegInf, NegInf => true
  | _, _ => false
  end.

Definition neb (a b : npfloat) : bool := negb (eqb a b).

Definition ltb (a b : npfloat) : bool :=
  match a, b with
  | NaN, _ | _, NaN => false
  | Finite x, Finite y => Qltb x y
  | NegInf, NegInf | PosInf, _ => false
  | NegInf, _ | _, PosInf => true
  | Finite _, NegInf => false
  end.

Definition leb (a b : npfloat) : bool :=
  match a, b with
  | NaN, _ | _, NaN => false
  | Finite x, Finite y => Qle_bool x y
  | NegInf, _ | _, PosInf => true
  | _, _ => false
  end.

(** [np.maximum] and [np.minimum] propagate [nan]. *)
Definition maximum (a b : npfloat) : npfloat :=
  match a, b with
  | NaN, _ | _, NaN => NaN
  | _, _ => if ltb a b then b else a
  end.

Definition minimum (a b : npfloat) : npfloat :=
  match a, b with
  | NaN, _ | _, NaN => NaN
  | _, _ => if ltb b a then b else a
  end.

(** [np.clip(x, lo, hi)] on one element: [minimum(maximum(x, lo), hi)]. *)
Definition clip (lo hi x : npfloat) : npfloat :=
  minimum (maximum x lo) hi.


Definition sum (l : list npfloat) : npfloat :=
  fold_left add l (Finite 0).

End Float.

(** ** Python: exceptions and results *)

(** Exceptions carry their class.  The two f-strings of the API layer that
    interpolate a Python object (a list of names, another exception) keep
    the interpolated object instead of its rendering. *)
Inductive exn :=
| Exception (cls : string) (msg : string)
| HTTPException (status_code : Z) (detail : message)
with message :=
| Msg (s : string)
| MsgNames (s : string) (names : list string)   (* f"{s}{names}" *)
| MsgExn (s : string) (e : exn).                (* f"{s}{str(e)}" *)

Inductive outcome (A : Type) :=
| Returned (a : A)
| Raised (e : exn).
Arguments Returned {A} a.
Arguments Raised {A} e.

Definition returned {A} (o : outcome A) : bool :=
  match o with Returned _ => true | Raised _ => false end.

(** Python's [max(a, b)]: the first argument unless the second is larger. *)
Definition py_max (a b : Q) : Q := if Qltb a b then b else a.

(** Python's [a / b] on floats raises on a zero divisor. *)
Definition py_div (a b : Q) : outcome Q :=
  if Qeq_bool b 0
  then Raised (Exception "ZeroDivisionError" "float division by zero")
  else Returned (a / b).

(** ** External libraries *)

(** [diffprivlib.mechanisms]: the constructors
    [Laplace(epsilon=, sensitivity=)] and
    [Gaussian(epsilon=, delta=, sensitivity=)], which validate their
    parameters, and [randomise], which draws from the random state; what it
    draws for a number is a number. *)
Class Diffprivlib := {
  random_state : Type;
  mechanism : Type;
  Laplace : Q -> npfloat -> outcome mechanism;
  Gaussian : Q -> Q -> npfloat -> outcome mechanism;
  randomise : mechanism -> Q -> random_state -> outcome Q * random_state;
  (* [randomise(nan)]: the library draws as for a number and adds its noise
     to [nan], so that what it returns, when it returns, is [nan] *)
  randomise_nan : mechanism -> random_state -> outcome unit * random_state
}.

(** [np.sqrt], [np.log], [np.exp] on floats. *)
Class Numpy := {
  np_sqrt : Q -> Q;
  np_log : Q -> Q;
  np_exp : Q -> Q
}.

(** ** pandas: series and frames *)

(** The dtypes of [np.number] columns; [int16] and [float16] stand for the
    number dtypes that the pipeline's dtype test does not list. *)
Inductive number_dtype := int64 | float64 | int32 | float32 | int16 | float16.

Inductive Series (A : Type) :=
| NumSeries (dtype : number_dtype) (values : list A)
| ObjSeries (values : list (option string)).
Arguments NumSeries {A} dtype values.
Arguments ObjSeries {A} values.

Definition series_len {A} (s : Series A) : nat :=
  match s with
  | NumSeries _ vs => length vs
  | ObjSeries vs => length vs
  end.

Record DataFrame (A : Type) := {
  nrows : nat;                          (* len(df) *)
  columns : list (string * Series A)    (* in column order *)
}.
Arguments nrows {A} d.
Arguments columns {A} d.

(** Every column has one cell per row. *)
Definition wf_frame {A} (df : DataFrame A) : Prop :=
  Forall (fun c => series_len c.2 = nrows df) (columns df).

Fixpoint assoc_get {V} (l : list (string * V)) (k : string) : option V :=
  match l with
  | [] => None
  | (k', v) :: l' => if String.eqb k' k then Some v else assoc_get l' k
  end.

Fixpoint assoc_set {V} (l : list (string * V)) (k : string) (v : V)
  : list (string * V) :=
  match l with
  | [] => [(k, v)]
  | (k', v') :: l' =>
      if String.eqb k' k then (k', v) :: l' else (k', v') :: assoc_set l' k v
  end.

(** [df[column]], [None] when [column not in df.columns]. *)
Definition df_get {A} (df : DataFrame A) (column : string)
  : option (Series A) :=
  assoc_get (columns df) column.

(** [df[column] = s]. *)
Definition df_set {A} (df : DataFrame A) (column : string) (s : Series A)
  : DataFrame A :=
  {| nrows := nrows df; columns := assoc_set (columns df) column s |}.

Definition series_map {A B} (f : A -> B) (s : Series A) : Series B :=
  match s with
  | NumSeries dt vs => NumSeries dt (map f vs)
  | ObjSeries vs => ObjSeries vs
  end.

(** A cell as a float. *)
Definition to_float (cell : option Q) : npfloat :=
  match cell with
  | Some q => Finite q
  | None => NaN
  end.

(** The values that are not missing. *)
Definition present {A} (cells : list (option A)) : list A := omap id cells.

(** [df.copy()]; the copy may later hold any float. *)
Definition df_copy (df : DataFrame (option Q)) : DataFrame npfloat :=
  {| nrows := nrows df;
     columns := map (fun c => (c.1, series_map to_float c.2)) (columns df) |}.

(** [df.select_dtypes(include=[np.number]).columns.tolist()]. *)
Definition select_dtypes_number {A} (df : DataFrame A) : list string :=
  map fst (List.filter (fun c => match c.2 with NumSeries _ _ => true
                                 | ObjSeries _ => false end) (columns df)).

(** [Series.min()], [Series.max()], [Series.mean()] skip the missing
    values ([skipna=True]) and give [nan] when no value is left. *)
Definition series_min (cells : list (option Q)) : npfloat :=
  match present cells with
  | [] => NaN
  | v :: vs' => Finite (fold_left Qmin vs' v)
  end.

Definition series_max (cells : list (option Q)) : npfloat :=
  match present cells with
  | [] => NaN
  | v :: vs' => Finite (fold_left Qmax vs' v)
  end.

Definition Qsum (vs : list Q) : Q := fold_left Qplus vs 0.

Definition series_mean (cells : list (option Q)) : npfloat :=
  match present cells with
  | [] => NaN
  | vs => Finite (Qsum vs / inject_Z (Z.of_nat (length vs)))
  end.

(** [ndarray.mean()]: the sum over the length, [nan] on an empty array
    and on an array that holds a [nan]. *)
Definition array_mean (vs : list npfloat) : npfloat :=
  Float.div (Float.sum vs) (Finite (inject_Z (Z.of_nat (length vs)))).

(** [np.clip(values, lower, upper)]. *)
Definition np_clip (vs : list npfloat) (lower upper : npfloat) : list npfloat :=
  map (Float.clip lower upper) vs.

(** *** groupby *)

(** A cell of a grouping key.  Numbers are stored reduced, so that two
    cells are equal exactly when pandas compares them equal. *)
Inductive cell :=
| CNum (q : Q)
| CStr (s : string).

#[global] Instance Q_eq_dec : EqDecision Q.
Proof. solve_decision. Defined.

#[global] Instance cell_eq_dec : EqDecision cell.
Proof. solve_decision. Defined.

Definition key_cells (s : Series (option Q)) : list (option cell) :=
  match s with
  | NumSeries _ vs => map (option_map (fun v => CNum (Qred v))) vs
  | ObjSeries vs => map (option_map CStr) vs
  end.

(** The rows of [n]-row columns, as tuples. *)
Fixpoint row_tuples {A} (n : nat) (cols : list (list A)) : list (list A) :=
  match cols with
  | [] => replicate n []
  | c :: cols' => zip_with cons c (row_tuples n cols')
  end.

(** The key of a row, unless one of its cells is missing. *)
Fixpoint complete_key (row : list (option cell)) : option (list cell) :=
  match row with
  | [] => Some []
  | None :: _ => None
  | Some c :: row' => option_map (cons c) (complete_key row')
  end.

(** [df[by]] for a list of labels: the first absent label is a [KeyError]. *)
Fixpoint take_columns {A} (df : DataFrame A) (by_ : list string)
  : outcome (list (Series A)) :=
  match by_ with
  | [] => Returned []
  | c :: by' =>
      match df_get df c with
      | None => Raised (Exception "KeyError" c)
      | Some s =>
          match take_columns df by' with
          | Returned ss => Returned (s :: ss)
          | Raised e => Raised e
          end
      end
  end.

(** The tuple of key cells of every row. *)
Definition row_cells (df : DataFrame (option Q)) (ss : list (Series (option Q)))
  : list (list (option cell)) :=
  row_tuples (nrows df) (map key_cells ss).

(** The grouping key of every row that has one: [groupby] leaves out the
    rows with a missing value in a key column ([dropna=True], the
    default). *)
Definition row_keys (df : DataFrame (option Q)) (ss : list (Series (option Q)))
  : list (list cell) :=
  omap complete_key (row_cells df ss).

Definition count_key (keys : list (list cell)) (key : list cell) : nat :=
  count_occ (list_eq_dec) keys key.

(** The size of every class of equal keys, one entry per class. *)
Definition class_sizes (keys : list (list cell)) : list Z :=
  map (fun key => Z.of_nat (count_key keys key)) (remove_dups keys).

(** [df.groupby(by).size()]: the size of every group of rows with equal
    key, the rows without a key left out.  pandas orders the groups by
    key; the engine only reduces the sizes with [sum], [min], [mean] and
    [len], so they are listed here in order of first occurrence. *)
Definition groupby_size (df : DataFrame (option Q)) (by_ : list string)
  : outcome (list Z) :=
  match by_ with
  | [] => Raised (Exception "ValueError" "No group keys passed!")
  | _ =>
      match take_columns df by_ with
      | Raised e => Raised e
      | Returned ss => Returned (class_sizes (row_keys df ss))
      end
  end.

Definition Zsum (l : list Z) : Z := fold_left Z.add l 0%Z.

Definition Zmin_list (l : list Z) : Z :=
  match l with
  | [] => 0%Z
  | x :: l' => fold_left Z.min l' x
  end.

(** ** The engine: class [DifferentialPrivacy] *)

Record DifferentialPrivacy := {
  epsilon : Q;
  delta : Q;
  privacy_budget_spent : Q
}.

(** [__init__(epsilon=1.0, delta=1e-5)]. *)
Definition __init__ (epsilon delta : Q) : DifferentialPrivacy :=
  {| epsilon := epsilon; delta := delta; privacy_budget_spent := 0 |}.

Definition default_epsilon : Q := 1.
Definition default_delta : Q := 1 # 100000.

(** [self.privacy_levels], assigned once by [__init__] and never written:
    level, lower end, upper end, description, in insertion order. *)
Definition privacy_levels : list (string * (Q * Q * string)) :=
  [ ("very_high", (0.1, 0.5, "Çok yüksek gizlilik, düşük doğruluk"));
    ("high", (0.5, 1.0, "Yüksek gizlilik, orta doğruluk"));
    ("medium", (1.0, 2.0, "Dengeli gizlilik ve doğruluk"));
    ("low", (2.0, 5.0, "Düşük gizlilik, yüksek doğruluk"));
    ("very_low", (5.0, 10.0, "Çok düşük gizlilik, çok yüksek doğruluk")) ]%string.

Fixpoint first_level (levels : list (string * (Q * Q * string))) (eps : Q)
  : string :=
  match levels with
  | [] => "custom"
  | (level, (min_eps, max_eps, _)) :: levels' =>
      if Qle_bool min_eps eps && Qltb eps max_eps then level
      else first_level levels' eps
  end.

Definition get_privacy_level (self : DifferentialPrivacy) : string :=
  first_level privacy_levels (epsilon self).

Definition _get_privacy_level_for_epsilon (epsilon : Q) : string :=
  if Qltb epsilon 0.5 then "very_high"
  else if Qltb epsilon 1.0 then "high"
  else if Qltb epsilon 2.0 then "medium"
  else if Qltb epsilon 5.0 then "low"
  else "very_low".

Definition _get_k_anonymity_recommendation (vulnerable_percentage : npfloat)
  : string :=
  if Float.eqb vulnerable_percentage (Finite 0)
  then "Veri k-anonymous, re-identification riski çok düşük"
  else if Float.ltb vulnerable_percentage (Finite 5)
  then "Düşük risk: Küçük oranda kayıt risk altında"
  else if Float.ltb vulnerable_percentage (Finite 20)
  then "Orta risk: Ek gizlilik önlemleri önerilir"
  else "Yüksek risk: Veriyi anonimleştirmek veya DP uygulamak zorunlu".

Definition _get_privacy_budget_recommendation (spent : Q) : string :=
  if Qltb spent 1.0 then "Gizlilik bütçesi bol, daha fazla sorgu yapılabilir"
  else if Qltb spent 5.0 then "Orta seviye kullanım, dikkatli olun"
  else if Qltb spent 10.0 then "Yüksek kullanım, gizlilik azalıyor"
  else "Gizlilik bütçesi tükendi, yeni veri toplama gerekebilir".

(** *** k-anonymity *)

Record k_anonymity_report := {
  k_value : Z;
  total_records : Z;
  vulnerable_records : Z;
  vulnerable_percentage : npfloat;
  is_k_anonymous : bool;
  smallest_group_size : Z;
  average_group_size : npfloat;
  recommendation : string
}.

Definition of_int (z : Z) : npfloat := Finite (inject_Z z).

Definition k_anonymity_check (df : DataFrame (option Q)) (quasi_identifiers : list string)
    (k : Z) : outcome k_anonymity_report :=
  match groupby_size df quasi_identifiers with
  | Raised e => Raised e
  | Returned groups =>
      let vulnerable_groups := List.filter (fun g => (g <? k)%Z) groups in
      let total_records := Z.of_nat (nrows df) in
      let vulnerable_records := Zsum vulnerable_groups in
      let vulnerable_percentage :=
        Float.mul (Float.div (of_int vulnerable_records) (of_int total_records))
                  (Finite 100) in
      Returned
        {| k_value := k;
           total_records := total_records;
           vulnerable_records := vulnerable_records;
           vulnerable_percentage := vulnerable_percentage;
           is_k_anonymous := (length vulnerable_groups =? 0)%nat;
           smallest_group_size :=
             if (0 <? length groups)%nat then Zmin_list groups else 0%Z;
           average_group_size :=
             if (0 <? length groups)%nat
             then Finite (inject_Z (Zsum groups)
                          / inject_Z (Z.of_nat (length groups)))
             else Finite 0;
           recommendation :=
             _get_k_anonymity_recommendation vulnerable_percentage |}
  end.

(** *** The noise pipeline *)

Record column_statistics := {
  original_mean : npfloat;
  noisy_mean : npfloat;
  noise_magnitude : npfloat;
  relative_error : npfloat;
  epsilon_used : Q;
  column_bounds : npfloat * npfloat   (* key "bounds" *)
}.

Record dp_report := {
  report_epsilon : Q;
  report_delta : Q;
  report_mechanism : string;
  privacy_level : string;
  columns_processed : list string;
  noise_statistics : gmap string column_statistics;
  report_privacy_budget_spent : Q
}.

Record privacy_loss_report := {
  num_queries : Z;
  base_epsilon : Q;
  sequential_composition : Q;
  advanced_composition : Q;
  loss_privacy_budget_spent : Q;
  privacy_remaining : Q;
  loss_recommendation : string
}.

(** The dtype test of the pipeline:
    [dtype in [np.int64, np.float64, np.int32, np.float32]]. *)
Definition noise_dtype (dt : number_dtype) : bool :=
  match dt with
  | int64 | float64 | int32 | float32 => true
  | int16 | float16 => false
  end.

Section Engine.
Context {lib : Diffprivlib} {np : Numpy}.

(** What a method call can read and write: the instance and the random
    state of the sampling library. *)
Record world := {
  self : DifferentialPrivacy;
  rng : random_state
}.

(** A method body: it returns or raises, and leaves a world behind. *)
Definition M (A : Type) : Type := world -> outcome A * world.

Definition ret {A} (a : A) : M A := fun w => (Returned a, w).

Definition raise {A} (e : exn) : M A := fun w => (Raised e, w).

Definition bind {A B} (c : M A) (k : A -> M B) : M B :=
  fun w =>
    match c w with
    | (Returned a, w') => k a w'
    | (Raised e, w') => (Raised e, w')
    end.

Definition lift {A} (o : outcome A) : M A := fun w => (o, w).

Definition get_self : M DifferentialPrivacy := fun w => (Returned (self w), w).

Definition set_privacy_budget_spent (q : Q) : M unit :=
  fun w =>
    (Returned tt,
     {| self := {| epsilon := epsilon (self w);
                   delta := delta (self w);
                   privacy_budget_spent := q |};
        rng := rng w |}).

(** [mech.randomise(float(val))] on a cell. *)
Definition draw (mech : mechanism) (value : option Q) : M npfloat :=
  fun w =>
    match value with
    | Some q =>
        let '(o, r) := randomise mech q (rng w) in
        (match o with
         | Returned v => Returned (Finite v)
         | Raised e => Raised e
         end,
         {| self := self w; rng := r |})
    | None =>
        let '(o, r) := randomise_nan mech (rng w) in
        (match o with
         | Returned _ => Returned NaN
         | Raised e => Raised e
         end,
         {| self := self w; rng := r |})
    end.

(** [for a in l: s = body(s, a)]. *)
Fixpoint for_each {A S} (l : list A) (body : S -> A -> M S) (s : S) : M S :=
  match l with
  | [] => ret s
  | a :: l' => bind (body s a) (for_each l' body)
  end.

(** [[f(a) for a in l]]. *)
Fixpoint comprehension {A B} (f : A -> M B) (l : list A) : M (list B) :=
  match l with
  | [] => ret []
  | a :: l' =>
      bind (f a) (fun b => bind (comprehension f l') (fun bs => ret (b :: bs)))
  end.

End Engine.

Notation "x <- c ;; k" := (bind c (fun x => k))
  (at level 100, c at next level, right associativity).

Section Methods.
Context {lib : Diffprivlib} {np : Numpy}.

Definition _add_noise_to_column (values : list (option Q)) (mechanism : string)
    (epsilon : Q) (lower upper : npfloat) : M (list npfloat) :=
  self <- get_self ;;
  let sensitivity := Float.sub upper lower in
  mech <- (if String.eqb mechanism "laplace"
           then lift (Laplace epsilon sensitivity)
           else if String.eqb mechanism "gaussian"
           then lift (Gaussian epsilon (delta self) sensitivity)
           else raise (Exception "ValueError"
                                 ("Bilinmeyen mechanism: " ++ mechanism))) ;;
  noisy_values <- comprehension (draw mech) values ;;
  ret (np_clip noisy_values lower upper).

(** The bounds of a column: the caller's, or the extrema of the data. *)
Definition resolve_bounds (bounds : gmap string (Q * Q)) (column : string)
    (values : list (option Q)) : npfloat * npfloat :=
  match bounds !! column with
  | Some (lower, upper) => (Finite lower, Finite upper)
  | None => (series_min values, series_max values)
  end.

(** One turn of the loop over [columns]: the copy of the frame and the
    report are the loop's mutable variables. *)
Definition noise_step (df : DataFrame (option Q)) (mechanism : string)
    (bounds : gmap string (Q * Q)) (epsilon_per_column : Q)
    (acc : DataFrame npfloat * dp_report) (column : string)
  : M (DataFrame npfloat * dp_report) :=
  let '(df_dp, dp_report) := acc in
  match df_get df column with
  | None => ret acc
  | Some (ObjSeries _) => ret acc
  | Some (NumSeries dt values) =>
      if negb (noise_dtype dt) then ret acc else
      let '(lower, upper) := resolve_bounds bounds column values in
      noisy_values <- _add_noise_to_column values mechanism
                        epsilon_per_column lower upper ;;
      let df_dp := df_set df_dp column (NumSeries float64 noisy_values) in
      let original_mean := series_mean values in
      let noisy_mean := array_mean noisy_values in
      let noise_magnitude := Float.abs (Float.sub noisy_mean original_mean) in
      ret (df_dp,
           {| report_epsilon := report_epsilon dp_report;
              report_delta := report_delta dp_report;
              report_mechanism := report_mechanism dp_report;
              privacy_level := privacy_level dp_report;
              columns_processed := columns_processed dp_report ++ [column];
              noise_statistics :=
                <[column :=
                    {| original_mean := original_mean;
                       noisy_mean := noisy_mean;
                       noise_magnitude := noise_magnitude;
                       relative_error :=
                         if Float.neb original_mean (Finite 0)
                         then Float.div noise_magnitude
                                        (Float.abs original_mean)
                         else Finite 0;
                       epsilon_used := epsilon_per_column;
                       column_bounds := (lower, upper) |}]>
                  (noise_statistics dp_report);
              report_privacy_budget_spent :=
                report_privacy_budget_spent dp_report |})
  end.

Definition apply_noise_to_dataframe (df : DataFrame (option Q)) (mechanism : string)
    (columns : option (list string)) (bounds : option (gmap string (Q * Q)))
  : M (DataFrame npfloat * dp_report) :=
  self <- get_self ;;
  let df_dp := df_copy df in
  let columns := match columns with
                 | None => select_dtypes_number df
                 | Some columns => columns
                 end in
  let bounds := match bounds with
                | None => ∅
                | Some bounds => bounds
                end in
  let dp_report :=
    {| report_epsilon := epsilon self;
       report_delta := delta self;
       report_mechanism := mechanism;
       privacy_level := get_privacy_level self;
       columns_processed := [];
       noise_statistics := ∅;
       report_privacy_budget_spent := 0.0 |} in
  let epsilon_per_column :=
    match columns with
    | [] => epsilon self
    | _ => epsilon self / inject_Z (Z.of_nat (length columns))
    end in
  acc <- for_each columns (noise_step df mechanism bounds epsilon_per_column)
                  (df_dp, dp_report) ;;
  let '(df_dp, dp_report) := acc in
  self <- get_self ;;
  let dp_report :=
    {| report_epsilon := report_epsilon dp_report;
       report_delta := report_delta dp_report;
       report_mechanism := report_mechanism dp_report;
       privacy_level := privacy_level dp_report;
       columns_processed := columns_processed dp_report;
       noise_statistics := noise_statistics dp_report;
       report_privacy_budget_spent := epsilon self |} in
  _ <- set_privacy_budget_spent (privacy_budget_spent self + epsilon self) ;;
  ret (df_dp, dp_report).

Definition calculate_privacy_loss (num_queries : Z) : M privacy_loss_report :=
  self <- get_self ;;
  let total_epsilon := epsilon self * inject_Z num_queries in
  let k := inject_Z num_queries in
  inv_delta <- lift (py_div 1 (delta self)) ;;
  let advanced_epsilon :=
    np_sqrt (2 * k * np_log inv_delta) * epsilon self
    + k * epsilon self * (np_exp (epsilon self) - 1) in
  ret {| num_queries := num_queries;
         base_epsilon := epsilon self;
         sequential_composition := total_epsilon;
         advanced_composition := advanced_epsilon;
         loss_privacy_budget_spent := privacy_budget_spent self;
         privacy_remaining := py_max 0 (10.0 - privacy_budget_spent self);
         loss_recommendation :=
           _get_privacy_budget_recommendation (privacy_budget_spent self) |}.

Definition reset_privacy_budget : M unit := set_privacy_budget_spent 0.0.

End Methods.

(** A client of one engine instance: a sequence of noise-application calls,
    each inside its own [try], as the API layer wraps them. *)
Record noise_call := {
  call_df : DataFrame (option Q);
  call_mechanism : string;
  call_columns : option (list string);
  call_bounds : option (gmap string (Q * Q))
}.

Section Session.
Context {lib : Diffprivlib} {np : Numpy}.

Definition run_call (c : noise_call) : M (DataFrame npfloat * dp_report) :=
  apply_noise_to_dataframe (call_df c) (call_mechanism c) (call_columns c)
                           (call_bounds c).

Fixpoint session (calls : list noise_call) (w : world)
  : list (outcome (DataFrame npfloat * dp_report)) * world :=
  match calls with
  | [] => ([], w)
  | c :: calls' =>
      let '(o, w') := run_call c w in
      let '(os, w'') := session calls' w' in
      (o :: os, w'')
  end.

(** The epsilon a call charged to the account: its total epsilon when it
    returned, nothing when it raised. *)
Definition charged {A} (eps : Q) (o : outcome A) : Q :=
  if returned o then eps else 0.

End Session.

(** ** The API layer: [POST /check-k-anonymity] *)



(** [col in df.columns]. *)
Definition in_columns {A} (df : DataFrame A) (col : string) : bool :=
  existsb (String.eqb col) (map fst (columns df)).



(** ** Stand-ins for the external libraries

    Used only to run the engine on concrete inputs.  The sampling library
    checks its parameters in the manner of [diffprivlib] (a negative
    sensitivity and a non-positive epsilon are rejected, a zero sensitivity
    is accepted) and reads its variates from a tape instead of drawing
    them: the noise of a draw is the next variate times
    [sensitivity / epsilon], and a draw for [nan] uses up a variate as
    well. *)

Definition tape_mechanism (epsilon : Q) (sensitivity : npfloat)
  : outcome npfloat :=
  if Qle_bool epsilon 0
  then Raised (Exception "ValueError" "Epsilon must be non-negative")
  else if Float.ltb sensitivity (Finite 0)
  then Raised (Exception "ValueError" "Sensitivity must be non-negative")
  else Returned (Float.div sensitivity (Finite epsilon)).

Definition tape_randomise (scale : npfloat) (value : Q) (tape : list Q)
  : outcome Q * list Q :=
  match scale with
  | Finite b => (Returned (value + b * hd 0 tape), tl tape)
  | _ => (Raised (Exception "ValueError" "scale is not a number"), tape)
  end.

Definition tape_lib : Diffprivlib :=
  {| random_state := list Q;
     mechanism := npfloat;
     Laplace := tape_mechanism;
     Gaussian := fun epsilon delta sensitivity =>
       if Qle_bool delta 0 || Qle_bool 1 delta
       then Raised (Exception "ValueError" "Delta must be in (0, 1)")
       else tape_mechanism epsilon sensitivity;
     randomise := tape_randomise;
     randomise_nan := fun _ tape => (Returned tt, tl tape) |}.

(** Integer-precision stand-ins for [np.sqrt], [np.log], [np.exp]; no
    property below depends on them. *)
Definition coarse_numpy : Numpy :=
  {| np_sqrt := fun q => inject_Z (Z.sqrt (Qfloor q));
     np_log := fun q => inject_Z (Z.log2 (Qfloor q));
     np_exp := fun q => inject_Z (2 ^ Z.max 0 (Qfloor q)) |}.

(** ** Specification vocabulary *)

(** The five privacy levels of the specification. *)
Definition spec_buckets : list string :=
  ["very_high"; "high"; "medium"; "low"; "very_low"]%string.

(** The specification's vulnerable records: the rows whose class is
    smaller than [k]. *)
Definition vulnerable_rows (k : Z) (keys : list (list cell))
  : list (list cell) :=
  List.filter (fun key => (Z.of_nat (count_key keys key) <? k)%Z) keys.

Section Predicates.
Context {lib : Diffprivlib} {np : Numpy}.

(** A computation that may draw, but never writes the instance. *)
Definition keeps_self {A} (c : M A) : Prop :=
  forall w, self (c w).2 = self w.

Definition raises_only {A} (P : exn -> Prop) (c : M A) : Prop :=
  forall w e w', c w = (Raised e, w') -> P e.

(** The exceptions of the pipeline: the [ValueError] of an unknown
    mechanism name, and whatever the sampling library raises. *)
Definition from_library (e : exn) : Prop :=
  (exists eps sens, Laplace eps sens = Raised e)
  \/ (exists eps dlt sens, Gaussian eps dlt sens = Raised e)
  \/ (exists mech v r, (randomise mech v r).1 = Raised e)
  \/ (exists mech r, (randomise_nan mech r).1 = Raised e).

Definition pipeline_exception (mechanism : string) (e : exn) : Prop :=
  e = Exception "ValueError" ("Bilinmeyen mechanism: " ++ mechanism)
  \/ from_library e.

(** One of the mechanism constructors accepted this sensitivity. *)
Definition accepted_sensitivity (sensitivity : npfloat) : Prop :=
  (exists eps, returned (Laplace eps sensitivity) = true)
  \/ (exists eps dlt, returned (Gaussian eps dlt sensitivity) = true).

(** The sensitivity check of [diffprivlib]: both constructors raise on a
    negative sensitivity. *)
Definition rejects_negative_sensitivity : Prop :=
  forall sensitivity,
    Float.ltb sensitivity (Finite 0) = true -> ~ accepted_sensitivity sensitivity.

(** What the library returns for a cell: a number for a number, [nan]
    for the missing value. *)
Definition drawn_for (cell : option Q) (v : npfloat) : Prop :=
  match cell with
  | Some _ => exists y, v = Finite y
  | None => v = NaN
  end.


(** What is released for a cell of a column whose bounds collapse to
    [upper]. *)
Definition collapsed_to (upper : Q) (cell : option Q) (v : npfloat) : Prop :=
  match cell with
  | Some _ => exists y, v = Finite y /\ y == upper
  | None => v = NaN
  end.

(** The state of a processed column in the loop variables: its statistics
    record the bounds resolved for it, a mechanism was built for their
    difference, and the copy of the frame holds the clipping to these
    bounds of one noisy sample per original cell. *)
Definition column_clipped (df : DataFrame (option Q)) (b : gmap string (Q * Q))
    (acc : DataFrame npfloat * dp_report) (column : string) : Prop :=
  exists dt orig noisy stats,
    df_get df column = Some (NumSeries dt orig)
    /\ noise_statistics acc.2 !! column = Some stats
    /\ column_bounds stats = resolve_bounds b column orig
    /\ accepted_sensitivity
         (Float.sub (column_bounds stats).2 (column_bounds stats).1)
    /\ Forall2 drawn_for orig noisy
    /\ df_get acc.1 column
       = Some (NumSeries float64
                 (np_clip noisy (column_bounds stats).1
                          (column_bounds stats).2)).

Definition all_clipped (df : DataFrame (option Q)) (b : gmap string (Q * Q))
    (acc : DataFrame npfloat * dp_report) : Prop :=
  forall column, column ∈ columns_processed acc.2 ->
                 column_clipped df b acc column.

End Predicates.

(** ** Example data *)

Definition people : DataFrame (option Q) :=
  {| nrows := 5;
     columns :=
       [ ("age", NumSeries int64 (map Some [10; 20; 30; 40; 50]));
         ("zip", ObjSeries (map Some ["06100"; "06200"; "34000"; "35000";
                                      "01000"]));
         ("income", NumSeries float64
                      (map Some [1200.5; 900; 4300.25; 800; 2500])) ]%string |}.

(** The frame of a file with empty cells: the second record has no age
    and the fourth no zip code. *)
Definition people_with_gaps : DataFrame (option Q) :=
  {| nrows := 5;
     columns :=
       [ ("age", NumSeries float64 [Some 10; None; Some 30; Some 40; Some 50]);
         ("zip", ObjSeries [Some "06100"; Some "06200"; Some "34000"; None;
                            Some "01000"]) ]%string |}.

(** A frame in which no record has a zip code (pandas reads a column of
    empty cells as [float64]). *)
Definition people_without_zip : DataFrame (option Q) :=
  {| nrows := 3;
     columns :=
       [ ("age", NumSeries int64 [Some 10; Some 20; Some 30]);
         ("zip", NumSeries float64 [None; None; None]) ]%string |}.

Definition no_people : DataFrame (option Q) :=
  {| nrows := 0;
     columns := [ ("age", NumSeries float64 []);
                  ("zip", ObjSeries []) ]%string |}.


(** An instance on the stand-in library, with five variates on the tape. *)
Definition tape_world (epsilon : Q) : @world tape_lib :=
  @Build_world tape_lib (__init__ epsilon default_delta)
    ([1; -200; 3; 1 # 2; 500] : list Q).

Definition age_call (lower upper : Q) : noise_call :=
  {| call_df := people;
     call_mechanism := "laplace";
     call_columns := Some ["age"%string];
     call_bounds := Some (<["age"%string := (lower, upper)]> ∅) |}.

(** ** More of the engine *)

(** The columns the loop of the pipeline runs over. *)
Definition target_columns (df : DataFrame (option Q)) (columns : option (list string))
  : list string :=
  match columns with
  | None => select_dtypes_number df
  | Some columns => columns
  end.

(** The two tests of the loop on a column: it is a column of the frame,
    and its dtype is one of the four listed. *)
Definition processable (df : DataFrame (option Q)) (column : string) : bool :=
  match df_get df column with
  | Some (NumSeries dt _) => noise_dtype dt
  | _ => false
  end.

(** [self.epsilon / len(columns) if columns else self.epsilon]. *)
Definition epsilon_share (epsilon : Q) (columns : list string) : Q :=
  match columns with
  | [] => epsilon
  | _ => epsilon / inject_Z (Z.of_nat (length columns))
  end.

(** The entry of [noise_statistics] that the loop writes for a column. *)
Definition column_report (epsilon_per_column : Q) (values : list (option Q))
    (lower upper : npfloat) (noisy_values : list npfloat)
  : column_statistics :=
  let original_mean := series_mean values in
  let noisy_mean := array_mean noisy_values in
  let noise_magnitude := Float.abs (Float.sub noisy_mean original_mean) in
  {| original_mean := original_mean;
     noisy_mean := noisy_mean;
     noise_magnitude := noise_magnitude;
     relative_error :=
       if Float.neb original_mean (Finite 0)
       then Float.div noise_magnitude (Float.abs original_mean)
       else Finite 0;
     epsilon_used := epsilon_per_column;
     column_bounds := (lower, upper) |}.

(** *** The epsilon advisor *)

(** The pieces of an f-string, a float kept unrendered. *)
Inductive fragment :=
| Text (s : string)
| Number (q : Q).

Record epsilon_recommendation := {
  rec_data_sensitivity : string;
  rec_use_case : string;
  recommended_epsilon : Q;
  current_epsilon : Q;
  rec_privacy_level : string;
  explanation : list fragment
}.

(** [d[key]] on a dict with string keys. *)
Definition dict_item {V} (d : list (string * V)) (key : string) : outcome V :=
  match assoc_get d key with
  | Some v => Returned v
  | None => Raised (Exception "KeyError" key)
  end.

Definition recommendations : list (string * list (string * Q)) :=
  [ ("research", [("low", 2.0); ("medium", 1.0); ("high", 0.5)]);
    ("production", [("low", 1.0); ("medium", 0.5); ("high", 0.1)]);
    ("public_release", [("low", 0.5); ("medium", 0.1); ("high", 0.05)])
  ]%string.

Definition _get_epsilon_explanation (epsilon : Q) (use_case sensitivity : string)
  : list fragment :=
  [ Text use_case; Text " için "; Text sensitivity;
    Text " hassasiyetli veriye epsilon="; Number epsilon;
    Text " önerilir. Bu, "; Text (_get_privacy_level_for_epsilon epsilon);
    Text " seviyede gizlilik sağlar." ].

(** The values of a column as a numpy array sees them, for the methods
    that do not test the dtype: a float array for a number column, an
    array of objects (strings, and [nan] for the missing value) for the
    others. *)
Definition series_cells (s : Series (option Q)) : list (option cell) :=
  match s with
  | NumSeries _ vs => map (option_map CNum) vs
  | ObjSeries vs => map (option_map CStr) vs
  end.

(** Python's [<] on the cells of one column. *)
Definition cell_ltb (a b : cell) : bool :=
  match a, b with
  | CNum x, CNum y => Qltb x y
  | CStr x, CStr y => String.ltb x y
  | _, _ => false
  end.

(** One step of the reduction of an array with [better]: a number array
    propagates [nan]; an array of objects compares its elements as Python
    does, which raises between a string and [nan]. *)
Definition reduce_step (better : cell -> cell -> bool) (op : string)
    (m x : option cell) : outcome (option cell) :=
  match m, x with
  | Some a, Some b => Returned (Some (if better b a then b else a))
  | Some (CStr _), None =>
      Raised (Exception "TypeError"
                (op ++ " not supported between instances of 'str' and 'float'"))
  | None, Some (CStr _) =>
      Raised (Exception "TypeError"
                (op ++ " not supported between instances of 'float' and 'str'"))
  | _, _ => Returned None
  end.

Fixpoint reduce_from (better : cell -> cell -> bool) (op : string)
    (cells : list (option cell)) (m : option cell) : outcome (option cell) :=
  match cells with
  | [] => Returned m
  | x :: cells' =>
      match reduce_step better op m x with
      | Returned m' => reduce_from better op cells' m'
      | Raised e => Raised e
      end
  end.

(** [ndarray.min()] and [ndarray.max()]: a [ValueError] on no element. *)
Definition array_min (cells : list (option cell)) : outcome (option cell) :=
  match cells with
  | [] => Raised (Exception "ValueError"
                    "zero-size array to reduction operation minimum which has no identity")
  | c :: cells' => reduce_from cell_ltb "'<='" cells' c
  end.

Definition array_max (cells : list (option cell)) : outcome (option cell) :=
  match cells with
  | [] => Raised (Exception "ValueError"
                    "zero-size array to reduction operation maximum which has no identity")
  | c :: cells' => reduce_from (fun a b => cell_ltb b a) "'>='" cells' c
  end.

(** [diffprivlib.tools]: [mean], [var], [std] and [median] of an array
    with an epsilon and bounds; each draws from the random state, and
    what it returns is a float. *)
Class DiffprivlibTools {lib : Diffprivlib} := {
  tools_mean :
    list (option cell) -> Q -> option cell * option cell -> random_state
    -> outcome npfloat * random_state;
  tools_var :
    list (option cell) -> Q -> option cell * option cell -> random_state
    -> outcome npfloat * random_state;
  tools_std :
    list (option cell) -> Q -> option cell * option cell -> random_state
    -> outcome npfloat * random_state;
  tools_median :
    list (option cell) -> Q -> option cell * option cell -> random_state
    -> outcome npfloat * random_state
}.

Record dp_statistics := {
  stat_mean : npfloat;
  stat_variance : npfloat;
  stat_std : npfloat;
  stat_median : npfloat;
  stat_epsilon_used : Q
}.

Section MoreMethods.
Context {lib : Diffprivlib} {np : Numpy} {tools : DiffprivlibTools}.

Definition get_epsilon_recommendation (data_sensitivity use_case : string)
  : M epsilon_recommendation :=
  by_sensitivity <- lift (dict_item recommendations use_case) ;;
  recommended_epsilon <- lift (dict_item by_sensitivity data_sensitivity) ;;
  self <- get_self ;;
  ret {| rec_data_sensitivity := data_sensitivity;
         rec_use_case := use_case;
         recommended_epsilon := recommended_epsilon;
         current_epsilon := epsilon self;
         rec_privacy_level := _get_privacy_level_for_epsilon recommended_epsilon;
         explanation :=
           _get_epsilon_explanation recommended_epsilon use_case
                                    data_sensitivity |}.

(** A call of a function of [diffprivlib.tools]. *)
Definition call_tool
    (tool : list (option cell) -> Q -> option cell * option cell
            -> random_state -> outcome npfloat * random_state)
    (values : list (option cell)) (epsilon : Q)
    (bounds : option cell * option cell) : M npfloat :=
  fun w =>
    let '(o, r) := tool values epsilon bounds (rng w) in
    (o, {| self := self w; rng := r |}).

Definition compute_dp_statistics (df : DataFrame (option Q)) (column : string)
    (epsilon_per_stat : option Q) : M dp_statistics :=
  self <- get_self ;;
  let epsilon_per_stat :=
    match epsilon_per_stat with
    | None => epsilon self / 4
    | Some e => e
    end in
  series <- lift (match df_get df column with
                  | Some s => Returned s
                  | None => Raised (Exception "KeyError" column)
                  end) ;;
  let values := series_cells series in
  lower <- lift (array_min values) ;;
  upper <- lift (array_max values) ;;
  dp_mean <- call_tool tools_mean values epsilon_per_stat (lower, upper) ;;
  dp_variance <- call_tool tools_var values epsilon_per_stat (lower, upper) ;;
  dp_std <- call_tool tools_std values epsilon_per_stat (lower, upper) ;;
  dp_median <- call_tool tools_median values epsilon_per_stat (lower, upper) ;;
  self <- get_self ;;
  _ <- set_privacy_budget_spent
         (privacy_budget_spent self + epsilon_per_stat * 4) ;;
  ret {| stat_mean := dp_mean;
         stat_variance := dp_variance;
         stat_std := dp_std;
         stat_median := dp_median;
         stat_epsilon_used := epsilon_per_stat * 4 |}.

End MoreMethods.

(** The report after the loop has processed one more column. *)
Definition report_with_column (rep : dp_report) (column : string)
    (stats : column_statistics) : dp_report :=
  {| report_epsilon := report_epsilon rep;
     report_delta := report_delta rep;
     report_mechanism := report_mechanism rep;
     privacy_level := privacy_level rep;
     columns_processed := columns_processed rep ++ [column];
     noise_statistics := <[column := stats]> (noise_statistics rep);
     report_privacy_budget_spent := report_privacy_budget_spent rep |}.



(** The report before the loop, and the last write to it. *)
Definition initial_report (self : DifferentialPrivacy) (mechanism : string)
  : dp_report :=
  {| report_epsilon := epsilon self;
     report_delta := delta self;
     report_mechanism := mechanism;
     privacy_level := get_privacy_level self;
     columns_processed := [];
     noise_statistics := ∅;
     report_privacy_budget_spent := 0.0 |}.

Definition final_report (rep : dp_report) (self : DifferentialPrivacy)
  : dp_report :=
  {| report_epsilon := report_epsilon rep;
     report_delta := report_delta rep;
     report_mechanism := report_mechanism rep;
     privacy_level := privacy_level rep;
     columns_processed := columns_processed rep;
     noise_statistics := noise_statistics rep;
     report_privacy_budget_spent := epsilon self |}.

Section MorePredicates.
Context {lib : Diffprivlib} {np : Numpy}.

(** What the loop variables hold for a processed column, in full: the
    frame holds the clipped samples and the statistics are those of these
    samples. *)
Definition column_recorded (df : DataFrame (option Q)) (b : gmap string (Q * Q))
    (eps : Q) (acc : DataFrame npfloat * dp_report) (column : string) : Prop :=
  exists dt orig noisy,
    df_get df column = Some (NumSeries dt orig)
    /\ Forall2 drawn_for orig noisy
    /\ df_get acc.1 column
       = Some (NumSeries float64
                 (np_clip noisy (resolve_bounds b column orig).1
                          (resolve_bounds b column orig).2))
    /\ noise_statistics acc.2 !! column
       = Some (column_report eps orig
                 (resolve_bounds b column orig).1
                 (resolve_bounds b column orig).2
                 (np_clip noisy (resolve_bounds b column orig).1
                          (resolve_bounds b column orig).2)).

Definition all_recorded (df : DataFrame (option Q)) (b : gmap string (Q * Q))
    (eps : Q) (acc : DataFrame npfloat * dp_report) : Prop :=
  forall column, column ∈ columns_processed acc.2 ->
                 column_recorded df b eps acc column.

End MorePredicates.

(** The keys of the advisor's matrix, from the most permissive to the
    strictest. *)
Definition use_cases : list string :=
  ["research"; "production"; "public_release"]%string.

Definition sensitivity_levels : list string :=
  ["low"; "medium"; "high"]%string.

(** ** The API layer: the other endpoints of [api/dp.py]

    An endpoint constructs its own [DifferentialPrivacy] for every request
    and drops it with the response; what outlives a request is the random
    state of the sampling library.  The upload directory is read through
    [uploads] as above.  Writing the result file and the fields of a
    response that describe it ([dp_file], [dp_path], [file_size_mb]) are
    left out. *)

Module Api.





Record privacy_loss_response := {
  loss_status : string;
  privacy_loss : privacy_loss_report
}.

(** The [Literal] fields of [EpsilonRecommendationRequest]. *)
Inductive data_sensitivity_literal := sensitivity_low | sensitivity_medium
                                      | sensitivity_high.

Inductive use_case_literal := research | production | public_release.

Definition data_sensitivity_value (s : data_sensitivity_literal) : string :=
  match s with
  | sensitivity_low => "low"
  | sensitivity_medium => "medium"
  | sensitivity_high => "high"
  end.

Definition use_case_value (u : use_case_literal) : string :=
  match u with
  | research => "research"
  | production => "production"
  | public_release => "public_release"
  end.

Record EpsilonRecommendationRequest := {
  request_data_sensitivity : data_sensitivity_literal;
  request_use_case : use_case_literal
}.

Record recommendation_response := {
  recommendation_status : string;
  response_recommendation : epsilon_recommendation
}.

Record level_entry := {
  level : string;
  epsilon_range : Q * Q;
  description : string
}.

(** [GET /privacy-levels]. *)
Definition get_privacy_levels : list level_entry :=
  map (fun '(level, (min_eps, max_eps, description)) =>
         {| level := level;
            epsilon_range := (min_eps, max_eps);
            description := description |})
      privacy_levels.

Section Endpoints.
Context {lib : Diffprivlib} {np : Numpy}.



(** [POST /get-epsilon-recommendation]. *)
Definition get_epsilon_recommendation (request : EpsilonRecommendationRequest)
    (r : random_state) : outcome recommendation_response * random_state :=
  let dp := {| self := __init__ default_epsilon default_delta; rng := r |} in
  match get_epsilon_recommendation
          (data_sensitivity_value (request_data_sensitivity request))
          (use_case_value (request_use_case request)) dp with
  | (Returned recommendation, w) =>
      (Returned {| recommendation_status := "success";
                   response_recommendation := recommendation |}, rng w)
  | (Raised e, w) =>
      (Raised (HTTPException 500 (MsgExn "Öneri alınamadı: " e)), rng w)
  end.

(** [POST /calculate-privacy-loss]. *)
Definition calculate_privacy_loss (epsilon : Q) (num_queries : Z)
    (r : random_state) : outcome privacy_loss_response * random_state :=
  let dp := {| self := __init__ epsilon default_delta; rng := r |} in
  match calculate_privacy_loss num_queries dp with
  | (Returned privacy_loss, w) =>
      (Returned {| loss_status := "success";
                   privacy_loss := privacy_loss |}, rng w)
  | (Raised e, w) =>
      (Raised (HTTPException 500 (MsgExn "Hesaplama başarısız: " e)), rng w)
  end.

End Endpoints.

End Api.

(** ** The Celery task [apply_dp_async] of [tasks/processing_tasks.py]

    The task reads the upload, applies the pipeline of a new instance with
    the data's own bounds, writes the frame and returns its result
    dictionary; an exception is re-raised as it is.  The progress updates
    and the fields of the result that name the task and the output file
    are left out. *)


Section Tasks.
Context {lib : Diffprivlib} {np : Numpy}.


End Tasks.

(** ** The names of the result files ([api/dp.py])

    [POST /apply-dp] writes the epsilon of a request into the name of its
    result file; [GET /dp-files] reads it back from the name. *)

(** [s.startswith(prefix)]. *)
Fixpoint startswith (prefix s : string) : bool :=
  match prefix, s with
  | EmptyString, _ => true
  | String a prefix', String b s' => Ascii.eqb a b && startswith prefix' s'
  | String _ _, EmptyString => false
  end.

(** [s[n:]]. *)
Fixpoint string_drop (n : nat) (s : string) : string :=
  match n, s with
  | O, _ => s
  | S n', String _ s' => string_drop n' s'
  | S _, EmptyString => EmptyString
  end.

(** The text before and the text after the first occurrence of a
    non-empty [sep] in [s], as [s.partition(sep)] gives them. *)
Fixpoint str_partition (sep s : string) : option (string * string) :=
  if startswith sep s
  then Some (EmptyString, string_drop (String.length sep) s)
  else match s with
       | EmptyString => None
       | String c s' =>
           match str_partition sep s' with
           | Some (before, after) => Some (String c before, after)
           | None => None
           end
       end.

(** [sep in s]. *)
Definition str_contains (sep s : string) : bool :=
  match str_partition sep s with
  | Some _ => true
  | None => false
  end.

(** [s.split(sep)[0]] and [s.split(sep)[1]]; the latter is an
    [IndexError] when [sep] does not occur in [s]. *)
Definition split_0 (sep s : string) : string :=
  match str_partition sep s with
  | Some (before, _) => before
  | None => s
  end.

Definition split_1 (sep s : string) : outcome string :=
  match str_partition sep s with
  | Some (_, after) => Returned (split_0 sep after)
  | None => Raised (Exception "IndexError" "list index out of range")
  end.

(** [f"{base_filename}_dp_eps{request.epsilon}_{timestamp}.csv"], from the
    renderings of the epsilon and of the time. *)
Definition dp_file_name (base_filename epsilon timestamp : string) : string :=
  base_filename ++ "_dp_eps" ++ epsilon ++ "_" ++ timestamp ++ ".csv".

(** The [epsilon] that [list_dp_files] shows for a file name. *)
Definition listed_epsilon (filename : string) : string :=
  if str_contains "_dp_eps" filename
  then match split_1 "_dp_eps" filename with
       | Returned part => split_0 "_" part
       | Raised _ => "N/A"
       end
  else "N/A".

(** ** More stand-ins and example data *)

Definition is_Some_bool {A} (o : option A) : bool :=
  match o with Some _ => true | None => false end.

(** A stand-in for [diffprivlib.tools] on the tape library: a tool rejects
    a non-positive epsilon and a column of strings, and answers the next
    variate of the tape, or [nan] when a value is missing. *)

Definition tape_tool (values : list (option cell)) (epsilon : Q)
    (bounds : option cell * option cell) (tape : list Q)
  : outcome npfloat * list Q :=
  if Qle_bool epsilon 0
  then (Raised (Exception "ValueError" "Epsilon must be non-negative"), tape)
  else if forallb (fun c => match c with
                            | Some (CStr _) => false
                            | _ => true
                            end) values
  then (Returned (if forallb is_Some_bool values then Finite (hd 0 tape)
                  else NaN), tl tape)
  else (Raised (Exception "TypeError" "could not convert string to float"),
        tape).

Definition tape_tools : @DiffprivlibTools tape_lib :=
  @Build_DiffprivlibTools tape_lib tape_tool tape_tool tape_tool tape_tool.

(** A frame with a constant column and a column of a dtype that the
    pipeline does not list. *)
Definition readings : DataFrame (option Q) :=
  {| nrows := 3;
     columns :=
       [ ("dose", NumSeries float64 (map Some [7; 7; 7]));
         ("count", NumSeries int16 (map Some [1; 2; 3]));
         ("site", ObjSeries (map Some ["a"; "b"; "a"])) ]%string |}.

(** * Properties *)

(** ** Comparisons on [Q] *)

Lemma Qltb_lt (a b : Q) : Qltb a b = true <-> a < b.
Proof.
  unfold Qltb. rewrite negb_true_iff. split.
  - intros Hf. apply Qnot_le_lt. intros Hle.
    apply Qle_bool_iff in Hle. congruence.
  - intros Hlt. destruct (Qle_bool b a) eqn:E; [|reflexivity].
    apply Qle_bool_iff in E. lra.
Qed.

Lemma Qltb_ge (a b : Q) : Qltb a b = false <-> b <= a.
Proof.
  unfold Qltb. rewrite negb_false_iff. apply Qle_bool_iff.
Qed.

Lemma Qle_bool_gt (a b : Q) : Qle_bool a b = false <-> b < a.
Proof.
  split.
  - intros Hf. apply Qnot_le_lt. intros Hle.
    apply Qle_bool_iff in Hle. congruence.
  - intros Hlt. destruct (Qle_bool a b) eqn:E; [|reflexivity].
    apply Qle_bool_iff in E. lra.
Qed.

Lemma Qeq_bool_false (a b : Q) : Qeq_bool a b = false <-> ~ a == b.
Proof.
  split.
  - intros Hf Heq. apply Qeq_bool_iff in Heq. congruence.
  - intros Hne. destruct (Qeq_bool a b) eqn:E; [|reflexivity].
    apply Qeq_bool_iff in E. contradiction.
Qed.

(** Case analysis on every comparison of the goal, each turned into the
    order fact it decides. *)
Ltac split_comparisons :=
  repeat match goal with
    | |- context [Qltb ?a ?b] =>
        let E := fresh "E" in
        destruct (Qltb a b) eqn:E;
        [apply Qltb_lt in E | apply Qltb_ge in E]
    | |- context [Qle_bool ?a ?b] =>
        let E := fresh "E" in
        destruct (Qle_bool a b) eqn:E;
        [apply Qle_bool_iff in E | apply Qle_bool_gt in E]
    | |- context [Qeq_bool ?a ?b] =>
        let E := fresh "E" in
        destruct (Qeq_bool a b) eqn:E;
        [apply Qeq_bool_iff in E | apply Qeq_bool_false in E]
    end.

(** ** Privacy levels *)

(** C9. The two level mappings return the same bucket for every epsilon in
    [0.1, 10.0); below 0.1 and from 10.0 on, [get_privacy_level] returns
    ["custom"], which is none of the five buckets, while
    [_get_privacy_level_for_epsilon] returns ["very_high"] and
    ["very_low"]. *)
Theorem privacy_level_mappings (self : DifferentialPrivacy) :
  let eps := epsilon self in
  (0.1 <= eps -> eps < 10.0 ->
     get_privacy_level self = _get_privacy_level_for_epsilon eps
     /\ In (get_privacy_level self) spec_buckets)
  /\ (eps < 0.1 ->
        get_privacy_level self = "custom"%string
        /\ _get_privacy_level_for_epsilon eps = "very_high"%string)
  /\ (10.0 <= eps ->
        get_privacy_level self = "custom"%string
        /\ _get_privacy_level_for_epsilon eps = "very_low"%string)
  /\ ~ In "custom"%string spec_buckets.
Proof.
  intros eps. unfold get_privacy_level, _get_privacy_level_for_epsilon.
  fold eps. cbn [first_level privacy_levels spec_buckets].
  split; [|split; [|split]].
  - intros H1 H2. split.
    + split_comparisons; try reflexivity; lra.
    + split_comparisons; cbn; try lra; tauto.
  - intros H1. split; split_comparisons; try reflexivity; lra.
  - intros H1. split; split_comparisons; try reflexivity; lra.
  - cbn. intuition discriminate.
Qed.

Lemma privacy_level_mappings_witness :
  (get_privacy_level (__init__ 1.5 default_delta) = "medium"%string
   /\ In (get_privacy_level (__init__ 1.5 default_delta)) spec_buckets)
  /\ get_privacy_level (__init__ 0.05 default_delta) = "custom"%string
  /\ _get_privacy_level_for_epsilon 0.05 = "very_high"%string
  /\ get_privacy_level (__init__ 12 default_delta) = "custom"%string
  /\ _get_privacy_level_for_epsilon 12 = "very_low"%string.
Proof.
  pose proof (privacy_level_mappings (__init__ 1.5 default_delta)) as [Hin _].
  pose proof (privacy_level_mappings (__init__ 0.05 default_delta))
    as (_ & Hlow & _).
  pose proof (privacy_level_mappings (__init__ 12 default_delta))
    as (_ & _ & Hhigh & _).
  cbn zeta in *.
  destruct Hin as [Ha Hb]; [cbn; lra | cbn; lra |].
  destruct Hlow as [Hc Hd]; [cbn; lra |].
  destruct Hhigh as [He Hf]; [cbn; lra |].
  repeat split; assumption.
Defined.

(** ** The instance is framed by everything but the final charge *)

Section Frame.
Context {lib : Diffprivlib} {np : Numpy}.

Lemma keeps_self_ret {A} (a : A) : keeps_self (ret a).
Proof. intros w. reflexivity. Qed.

Lemma keeps_self_raise {A} (e : exn) : keeps_self (raise (A := A) e).
Proof. intros w. reflexivity. Qed.

Lemma keeps_self_lift {A} (o : outcome A) : keeps_self (lift o).
Proof. intros w. reflexivity. Qed.

Lemma keeps_self_get_self : keeps_self get_self.
Proof. intros w. reflexivity. Qed.

Lemma keeps_self_draw (mech : mechanism) (v : option Q) :
  keeps_self (draw mech v).
Proof.
  intros w. unfold draw. destruct v as [q|].
  - destruct (randomise mech q (rng w)). reflexivity.
  - destruct (randomise_nan mech (rng w)). reflexivity.
Qed.

Lemma keeps_self_bind {A B} (c : M A) (k : A -> M B) :
  keeps_self c -> (forall a, keeps_self (k a)) -> keeps_self (bind c k).
Proof.
  intros Hc Hk w. unfold bind. specialize (Hc w).
  destruct (c w) as [[a|e] w']; cbn in *.
  - rewrite Hk. exact Hc.
  - exact Hc.
Qed.

Create HintDb frame.
#[local] Hint Resolve keeps_self_ret keeps_self_raise keeps_self_lift
  keeps_self_get_self keeps_self_draw : frame.

Lemma keeps_self_comprehension {A B} (f : A -> M B) (l : list A) :
  (forall a, keeps_self (f a)) -> keeps_self (comprehension f l).
Proof.
  intros Hf. induction l as [|a l IH]; cbn.
  - auto with frame.
  - apply keeps_self_bind; [apply Hf|]. intros b.
    apply keeps_self_bind; [exact IH|]. intros bs. auto with frame.
Qed.

Lemma keeps_self_for_each {A S} (body : S -> A -> M S) (l : list A) (s : S) :
  (forall s a, keeps_self (body s a)) -> keeps_self (for_each l body s).
Proof.
  intros Hb. revert s. induction l as [|a l IH]; intros s; cbn.
  - auto with frame.
  - apply keeps_self_bind; [apply Hb | exact IH].
Qed.

Lemma keeps_self_add_noise values mechanism eps lower upper :
  keeps_self (_add_noise_to_column values mechanism eps lower upper).
Proof.
  unfold _add_noise_to_column.
  apply keeps_self_bind; [auto with frame|]. intros s.
  apply keeps_self_bind.
  - destruct (String.eqb mechanism "laplace"); [auto with frame|].
    destruct (String.eqb mechanism "gaussian"); auto with frame.
  - intros mech. apply keeps_self_bind; [|auto with frame].
    apply keeps_self_comprehension. auto with frame.
Qed.

Lemma keeps_self_noise_step df mechanism bounds eps acc column :
  keeps_self (noise_step df mechanism bounds eps acc column).
Proof.
  unfold noise_step. destruct acc as [df_dp rep].
  destruct (df_get df column) as [[dt values|values]|]; auto with frame.
  destruct (negb (noise_dtype dt)); [auto with frame|].
  destruct (resolve_bounds bounds column values) as [lower upper].
  apply keeps_self_bind; [apply keeps_self_add_noise|].
  intros noisy. auto with frame.
Qed.

(** What a noise-application call leaves in the instance: the budget is
    charged with the total epsilon when the call returns, and the instance
    is untouched when it raises. *)
Lemma apply_noise_charges df mechanism columns bounds (w : world) :
  let '(o, w') := apply_noise_to_dataframe df mechanism columns bounds w in
  epsilon (self w') = epsilon (self w)
  /\ delta (self w') = delta (self w)
  /\ privacy_budget_spent (self w') =
       match o with
       | Returned _ => privacy_budget_spent (self w) + epsilon (self w)
       | Raised _ => privacy_budget_spent (self w)
       end.
Proof.
  unfold apply_noise_to_dataframe, bind at 1, get_self at 1.
  match goal with
  | |- context [bind (for_each ?l ?body ?s) ?k] =>
      pose proof (keeps_self_for_each body l s) as Hloop;
      unfold bind at 1; destruct (for_each l body s w) as [[acc|e] w1] eqn:E
  end.
  - specialize (Hloop (keeps_self_noise_step _ _ _ _) w).
    rewrite E in Hloop. cbn in Hloop. destruct acc as [df_dp rep].
    cbn. rewrite Hloop. auto.
  - specialize (Hloop (keeps_self_noise_step _ _ _ _) w).
    rewrite E in Hloop. cbn in Hloop. rewrite Hloop. auto.
Qed.

End Frame.

(** ** The budget account *)

Lemma fold_Qplus_shift (l : list Q) (a : Q) :
  fold_left Qplus l a == a + fold_left Qplus l 0.
Proof.
  revert a. induction l as [|y l IH]; intros a; cbn.
  - lra.
  - rewrite IH. rewrite (IH (0 + y)). lra.
Qed.

Lemma Qsum_cons (x : Q) (l : list Q) : Qsum (x :: l) == x + Qsum l.
Proof.
  unfold Qsum. cbn. rewrite fold_Qplus_shift. lra.
Qed.

Lemma py_max_Qmax (a b : Q) : py_max a b == Qmax a b.
Proof.
  unfold py_max. destruct (Qltb a b) eqn:E.
  - apply Qltb_lt in E. rewrite Q.max_r; lra.
  - apply Qltb_ge in E. rewrite Q.max_l; lra.
Qed.

Section Account.
Context {lib : Diffprivlib} {np : Numpy}.

Lemma session_charges (calls : list noise_call) (w : world) :
  let '(outs, w') := session calls w in
  epsilon (self w') = epsilon (self w)
  /\ delta (self w') = delta (self w)
  /\ privacy_budget_spent (self w') ==
       privacy_budget_spent (self w)
       + Qsum (map (charged (epsilon (self w))) outs).
Proof.
  revert w. induction calls as [|c calls IH]; intros w; cbn [session].
  - repeat split. unfold Qsum. cbn. lra.
  - unfold run_call.
    pose proof (apply_noise_charges (call_df c) (call_mechanism c)
                  (call_columns c) (call_bounds c) w) as Hc.
    destruct (apply_noise_to_dataframe _ _ _ _ w) as [o w1].
    specialize (IH w1). destruct (session calls w1) as [outs w2].
    destruct Hc as (He & Hd & Hs). destruct IH as (He' & Hd' & Hs').
    split; [congruence|]. split; [congruence|].
    cbn [map]. rewrite Qsum_cons, Hs', Hs, He.
    unfold charged at 2. destruct o; cbn; lra.
Qed.

Lemma session_length (calls : list noise_call) (w : world) :
  length (session calls w).1 = length calls.
Proof.
  revert w. induction calls as [|c calls IH]; intros w; cbn [session].
  - reflexivity.
  - destruct (run_call c w) as [o w1]. specialize (IH w1).
    destruct (session calls w1) as [outs w2]. cbn in *. congruence.
Qed.

(** The composition query on any world with a non-zero delta. *)
Lemma calculate_privacy_loss_returns (n : Z) (w : world) :
  ~ delta (self w) == 0 ->
  calculate_privacy_loss n w =
    (Returned
       {| num_queries := n;
          base_epsilon := epsilon (self w);
          sequential_composition := epsilon (self w) * inject_Z n;
          advanced_composition :=
            np_sqrt (2 * inject_Z n * np_log (1 / delta (self w)))
            * epsilon (self w)
            + inject_Z n * epsilon (self w) * (np_exp (epsilon (self w)) - 1);
          loss_privacy_budget_spent := privacy_budget_spent (self w);
          privacy_remaining := py_max 0 (10.0 - privacy_budget_spent (self w));
          loss_recommendation :=
            _get_privacy_budget_recommendation (privacy_budget_spent (self w)) |},
     w).
Proof.
  intros Hd. apply Qeq_bool_false in Hd.
  unfold calculate_privacy_loss, bind, get_self, lift, py_div, ret.
  rewrite Hd. reflexivity.
Qed.

End Account.

Section Budget.
Context {lib : Diffprivlib} {np : Numpy}.

(** C3. On a fresh account, after any sequence of noise-application calls
    the spent budget is the sum of the total epsilon of each call that
    completed (a call that raised charged nothing); the composition query
    reports that amount and, as remaining budget, [max(0, 10.0 - spent)],
    which is never negative.  Two completed calls at epsilon 2.0 leave
    [spent == 4.0] and [remaining == 6.0]. *)
Theorem budget_accounting (calls : list noise_call) (eps dlt : Q)
    (r : random_state) (n : Z) :
  let fresh := {| self := __init__ eps dlt; rng := r |} in
  let outs := (session calls fresh).1 in
  let w := (session calls fresh).2 in
  let spent := privacy_budget_spent (self w) in
  ~ dlt == 0 ->
  spent == Qsum (map (charged eps) outs)
  /\ exists rep,
       calculate_privacy_loss n w = (Returned rep, w)
       /\ loss_privacy_budget_spent rep = spent
       /\ privacy_remaining rep == Qmax 0 (10.0 - spent)
       /\ 0 <= privacy_remaining rep
       /\ (eps == 2.0 -> length calls = 2%nat ->
           Forall (fun o => returned o = true) outs ->
           spent == 4.0 /\ privacy_remaining rep == 6.0).
Proof.
  intros fresh outs w spent Hd.
  pose proof (session_charges calls fresh) as Hs.
  pose proof (session_length calls fresh) as Hlen.
  subst outs w spent. destruct (session calls fresh) as [outs w].
  cbn [fst snd] in *. destruct Hs as (He & Hdl & Hs). cbn in He, Hdl, Hs.
  assert (Hsum : privacy_budget_spent (self w) == Qsum (map (charged eps) outs))
    by (rewrite Hs; lra).
  split; [exact Hsum|].
  eexists. split; [apply calculate_privacy_loss_returns; rewrite Hdl; exact Hd|].
  cbn [loss_privacy_budget_spent privacy_remaining].
  split; [reflexivity|]. split; [apply py_max_Qmax|].
  split; [rewrite py_max_Qmax; apply Q.le_max_l|].
  intros Heps Hcalls Hall.
  assert (H4 : privacy_budget_spent (self w) == 4.0).
  { rewrite Hsum. rewrite Hcalls in Hlen.
    destruct outs as [|o1 [|o2 [|o3 outs]]]; try discriminate Hlen.
    inversion Hall as [|? ? Ho1 Hall']; subst.
    inversion Hall' as [|? ? Ho2 _]; subst.
    cbn [map]. rewrite !Qsum_cons. unfold charged. rewrite Ho1, Ho2.
    unfold Qsum. cbn [fold_left]. lra. }
  split; [exact H4|].
  rewrite py_max_Qmax, H4. rewrite Q.max_r; lra.
Qed.

(** C4. For delta in (0,1) and [k >= 1] queries the composition query
    returns, with [sequential_composition] exactly [epsilon * k] and
    [advanced_composition] exactly
    [sqrt(2*k*ln(1/delta))*epsilon + k*epsilon*(exp(epsilon)-1)]. *)
Theorem composition_numbers (w : world) (k : Z) :
  let eps := epsilon (self w) in
  let dlt := delta (self w) in
  0 < dlt -> dlt < 1 -> (1 <= k)%Z ->
  exists rep,
    calculate_privacy_loss k w = (Returned rep, w)
    /\ sequential_composition rep = eps * inject_Z k
    /\ advanced_composition rep =
         np_sqrt (2 * inject_Z k * np_log (1 / dlt)) * eps
         + inject_Z k * eps * (np_exp eps - 1).
Proof.
  intros eps dlt Hpos Hlt Hk.
  eexists. split.
  - apply calculate_privacy_loss_returns. fold dlt. lra.
  - split; reflexivity.
Qed.

(** C6. The composition query leaves the account (and the random state)
    as it found them, and its two composition numbers depend on epsilon,
    delta and the number of queries only, not on what was spent; a
    noise-application call that returns does add its epsilon to [spent]. *)
Theorem composition_query_is_pure (w w2 : world) (k : Z) :
  (calculate_privacy_loss k w).2 = w
  /\ (epsilon (self w) = epsilon (self w2) ->
      delta (self w) = delta (self w2) ->
      match (calculate_privacy_loss k w).1, (calculate_privacy_loss k w2).1 with
      | Returned rep, Returned rep2 =>
          sequential_composition rep = sequential_composition rep2
          /\ advanced_composition rep = advanced_composition rep2
      | Raised e, Raised e2 => e = e2
      | _, _ => False
      end)
  /\ (forall df mechanism columns bounds out w',
        apply_noise_to_dataframe df mechanism columns bounds w
          = (Returned out, w') ->
        privacy_budget_spent (self w')
          = privacy_budget_spent (self w) + epsilon (self w)).
Proof.
  split; [|split].
  - unfold calculate_privacy_loss, bind, get_self, lift, py_div, ret.
    destruct (Qeq_bool (delta (self w)) 0); reflexivity.
  - intros He Hd.
    unfold calculate_privacy_loss, bind, get_self, lift, py_div, ret.
    rewrite <- He, <- Hd.
    destruct (Qeq_bool (delta (self w)) 0); cbn; auto.
  - intros df mechanism columns bounds out w' Hrun.
    pose proof (apply_noise_charges df mechanism columns bounds w) as Hc.
    rewrite Hrun in Hc. tauto.
Qed.

End Budget.

(** ** Frames as association lists *)

Lemma assoc_get_set_eq {V} (l : list (string * V)) (k : string) (v : V) :
  assoc_get (assoc_set l k v) k = Some v.
Proof.
  induction l as [|[k' v'] l IH]; cbn.
  - rewrite String.eqb_refl. reflexivity.
  - destruct (String.eqb k' k) eqn:E; cbn; rewrite E; [reflexivity | exact IH].
Qed.

Lemma assoc_get_set_ne {V} (l : list (string * V)) (k k' : string) (v : V) :
  k <> k' -> assoc_get (assoc_set l k v) k' = assoc_get l k'.
Proof.
  intros Hne. induction l as [|[k0 v0] l IH]; cbn.
  - apply String.eqb_neq in Hne. rewrite Hne. reflexivity.
  - destruct (String.eqb k0 k) eqn:E; cbn.
    + apply String.eqb_eq in E. subst k0.
      apply String.eqb_neq in Hne. rewrite Hne. reflexivity.
    + destruct (String.eqb k0 k'); [reflexivity | exact IH].
Qed.

Lemma df_get_set_eq {A} (df : DataFrame A) (c : string) (s : Series A) :
  df_get (df_set df c s) c = Some s.
Proof. apply assoc_get_set_eq. Qed.

Lemma df_get_set_ne {A} (df : DataFrame A) (c c' : string) (s : Series A) :
  c <> c' -> df_get (df_set df c s) c' = df_get df c'.
Proof. apply assoc_get_set_ne. Qed.

(** ** Clipping *)

Lemma clip_finite (lo hi x : Q) :
  Float.clip (Finite lo) (Finite hi) (Finite x)
  = Finite (if Qltb hi (if Qltb x lo then lo else x) then hi
            else if Qltb x lo then lo else x).
Proof.
  unfold Float.clip, Float.maximum, Float.minimum. cbn.
  destruct (Qltb x lo); cbn;
    match goal with |- context [Qltb ?a ?b] => destruct (Qltb a b) end;
    reflexivity.
Qed.


Lemma clip_degenerate (lo hi x : Q) :
  hi <= lo ->
  exists y, Float.clip (Finite lo) (Finite hi) (Finite x) = Finite y /\ y == hi.
Proof.
  intros Hle. rewrite clip_finite. eexists. split; [reflexivity|].
  split_comparisons; lra.
Qed.

Lemma clip_nan (lo hi : npfloat) : Float.clip lo hi NaN = NaN.
Proof. reflexivity. Qed.

Lemma present_cons {A} (c : option A) (cells : list (option A)) :
  present (c :: cells)
  = match c with Some v => v :: present cells | None => present cells end.
Proof. destruct c; reflexivity. Qed.


Lemma present_map_Some {A} (vs : list A) : present (map Some vs) = vs.
Proof.
  induction vs as [|v vs IH]; [reflexivity|].
  cbn [map]. rewrite present_cons, IH. reflexivity.
Qed.







(** ** The noise pipeline *)

Section Pipeline.
Context {lib : Diffprivlib} {np : Numpy}.

Lemma bind_returned {A B} (c : M A) (k : A -> M B) (w w' : world) (b : B) :
  bind c k w = (Returned b, w') ->
  exists a w1, c w = (Returned a, w1) /\ k a w1 = (Returned b, w').
Proof.
  unfold bind. destruct (c w) as [[a|e] w1]; intros Hk.
  - exists a, w1. split; [reflexivity | exact Hk].
  - discriminate Hk.
Qed.

Lemma comprehension_length {A B} (f : A -> M B) (l : list A) (w w' : world)
    (bs : list B) :
  comprehension f l w = (Returned bs, w') -> length bs = length l.
Proof.
  revert w w' bs. induction l as [|a l IH]; intros w w' bs; cbn [comprehension].
  - unfold ret. intros [= <- _]. reflexivity.
  - intros Hrun. apply bind_returned in Hrun as (b & w1 & _ & Hrun).
    apply bind_returned in Hrun as (bs' & w2 & Hrest & Hret).
    unfold ret in Hret. injection Hret as <- _.
    cbn. f_equal. exact (IH _ _ _ Hrest).
Qed.

Lemma for_each_invariant {A S} (P : S -> Prop) (body : S -> A -> M S)
    (l : list A) :
  (forall s a w s' w', body s a w = (Returned s', w') -> P s -> P s') ->
  forall s w s' w', for_each l body s w = (Returned s', w') -> P s -> P s'.
Proof.
  intros Hbody. induction l as [|a l IH]; intros s w s' w'; cbn [for_each].
  - unfold ret. intros [= <- _]. auto.
  - intros Hrun Hs. apply bind_returned in Hrun as (s1 & w1 & Hstep & Hrest).
    eapply IH; [exact Hrest|]. eapply Hbody; eauto.
Qed.

Lemma comprehension_Forall2 {A B} (R : A -> B -> Prop) (f : A -> M B)
    (l : list A) :
  (forall a w b w', f a w = (Returned b, w') -> R a b) ->
  forall (w w' : world) bs,
    comprehension f l w = (Returned bs, w') -> Forall2 R l bs.
Proof.
  intros Hf. induction l as [|a l IH]; intros w w' bs; cbn [comprehension].
  - unfold ret. intros [= <- _]. constructor.
  - intros Hrun. apply bind_returned in Hrun as (b & w1 & Hb & Hrun).
    apply bind_returned in Hrun as (bs' & w2 & Hrest & Hret).
    unfold ret in Hret. injection Hret as <- _.
    constructor; [exact (Hf _ _ _ _ Hb) | exact (IH _ _ _ Hrest)].
Qed.

Lemma draw_returns (mech : mechanism) (cell : option Q) (w w' : world) v :
  draw mech cell w = (Returned v, w') -> drawn_for cell v.
Proof.
  unfold draw. destruct cell as [q|]; cbn.
  - destruct (randomise mech q (rng w)) as [[y|e] r]; intros [= <- _];
      eexists; reflexivity.
  - destruct (randomise_nan mech (rng w)) as [[u|e] r]; intros [= <- _];
      reflexivity.
Qed.

(** What [_add_noise_to_column] returns is the clipping of one noisy sample
    per cell. *)
Lemma add_noise_returns values mechanism eps lower upper (w w' : world) out :
  _add_noise_to_column values mechanism eps lower upper w = (Returned out, w') ->
  exists noisy,
    Forall2 drawn_for values noisy
    /\ out = np_clip noisy lower upper
    /\ accepted_sensitivity (Float.sub upper lower).
Proof.
  unfold _add_noise_to_column. intros Hrun.
  apply bind_returned in Hrun as (s & w1 & _ & Hrun).
  apply bind_returned in Hrun as (mech & w2 & Hmech & Hrun).
  apply bind_returned in Hrun as (noisy & w3 & Hdraws & Hret).
  unfold ret in Hret. injection Hret as <- _.
  exists noisy. split.
  { eapply comprehension_Forall2; [|exact Hdraws].
    intros a w4 b w5. apply draw_returns. }
  split; [reflexivity|].
  destruct (String.eqb mechanism "laplace");
    [|destruct (String.eqb mechanism "gaussian")];
    unfold lift, raise in Hmech; injection Hmech as Hmech _.
  - left. eexists. rewrite Hmech. reflexivity.
  - right. do 2 eexists. rewrite Hmech. reflexivity.
  - discriminate Hmech.
Qed.

Lemma noise_step_clipped df mechanism b eps acc column (w w' : world) acc' :
  noise_step df mechanism b eps acc column w = (Returned acc', w') ->
  all_clipped df b acc -> all_clipped df b acc'.
Proof.
  unfold noise_step. destruct acc as [df_dp rep].
  destruct (df_get df column) as [[dt values|values]|] eqn:Hcol;
    try (unfold ret; intros [= <- _]; auto; fail).
  destruct (negb (noise_dtype dt));
    [unfold ret; intros [= <- _]; auto|].
  destruct (resolve_bounds b column values) as [lower upper] eqn:Hb.
  intros Hrun Hinv.
  apply bind_returned in Hrun as (out & w1 & Hnoise & Hret).
  unfold ret in Hret. injection Hret as <- _.
  apply add_noise_returns in Hnoise as (noisy & Hlen & -> & Hsens).
  intros c Hc. cbn [snd columns_processed] in Hc.
  destruct (decide (c = column)) as [->|Hne].
  - exists dt, values, noisy. eexists.
    cbn [fst snd noise_statistics].
    rewrite lookup_insert_eq, df_get_set_eq. cbn [column_bounds fst snd].
    repeat split; auto.
  - apply elem_of_app in Hc as [Hc|Hc];
      [|apply list_elem_of_singleton in Hc; contradiction].
    destruct (Hinv c Hc)
      as (dt' & orig & noisy' & stats & H1 & H2 & H3 & H4 & H5 & H6).
    exists dt', orig, noisy', stats. cbn [fst snd noise_statistics] in *.
    rewrite lookup_insert_ne, df_get_set_ne by congruence.
    repeat split; auto.
Qed.

Lemma apply_noise_clipped df mechanism columns bounds (w w' : world) df_dp rep :
  apply_noise_to_dataframe df mechanism columns bounds w
    = (Returned (df_dp, rep), w') ->
  all_clipped df (default ∅ bounds) (df_dp, rep).
Proof.
  unfold apply_noise_to_dataframe. intros Hrun.
  apply bind_returned in Hrun as (s & w1 & _ & Hrun).
  apply bind_returned in Hrun as ([df1 rep1] & w2 & Hloop & Hrun).
  apply bind_returned in Hrun as (s2 & w3 & _ & Hrun).
  apply bind_returned in Hrun as (u & w4 & _ & Hret).
  unfold ret in Hret. injection Hret as <- <- _.
  assert (Hinv : all_clipped df (default ∅ bounds) (df1, rep1)).
  { eapply for_each_invariant; [|exact Hloop|].
    - intros a c w5 a' w6 Hstep. eapply noise_step_clipped.
      destruct bounds; exact Hstep.
    - intros c Hc. cbn in Hc. apply elem_of_nil in Hc. contradiction. }
  intros c Hc. destruct (Hinv c Hc) as (dt & orig & noisy & stats & H).
  exists dt, orig, noisy, stats. exact H.
Qed.



Lemma raises_only_bind {A B} (P : exn -> Prop) (c : M A) (k : A -> M B) :
  raises_only P c -> (forall a, raises_only P (k a)) -> raises_only P (bind c k).
Proof.
  intros Hc Hk w e w'. unfold bind.
  destruct (c w) as [[a|e1] w1] eqn:E.
  - apply Hk.
  - intros [= <- _]. exact (Hc _ _ _ E).
Qed.

Lemma raises_only_total {A} (P : exn -> Prop) (c : M A) :
  (forall w, returned (c w).1 = true) -> raises_only P c.
Proof.
  intros Hret w e w' Hrun. specialize (Hret w). rewrite Hrun in Hret.
  discriminate Hret.
Qed.

Lemma raises_only_comprehension {A B} (P : exn -> Prop) (f : A -> M B) l :
  (forall a, raises_only P (f a)) -> raises_only P (comprehension f l).
Proof.
  intros Hf. induction l as [|a l IH]; cbn [comprehension].
  - apply raises_only_total. reflexivity.
  - apply raises_only_bind; [apply Hf|]. intros b.
    apply raises_only_bind; [exact IH|]. intros bs.
    apply raises_only_total. reflexivity.
Qed.

Lemma raises_only_for_each {A S} (P : exn -> Prop) (body : S -> A -> M S) l s :
  (forall s a, raises_only P (body s a)) -> raises_only P (for_each l body s).
Proof.
  intros Hb. revert s. induction l as [|a l IH]; intros s; cbn [for_each].
  - apply raises_only_total. reflexivity.
  - apply raises_only_bind; [apply Hb | exact IH].
Qed.

Lemma add_noise_raises values mechanism eps lower upper :
  raises_only (pipeline_exception mechanism)
              (_add_noise_to_column values mechanism eps lower upper).
Proof.
  unfold _add_noise_to_column.
  apply raises_only_bind; [apply raises_only_total; reflexivity|]. intros s.
  apply raises_only_bind.
  - intros w e w'.
    destruct (String.eqb mechanism "laplace");
      [|destruct (String.eqb mechanism "gaussian")]; unfold lift, raise;
      intros [= Hr _]; [right; left | right; right; left | left]; eauto.
  - intros mech. apply raises_only_bind;
      [|intros; apply raises_only_total; reflexivity].
    apply raises_only_comprehension. intros v w e w'. unfold draw.
    destruct v as [q|].
    + destruct (randomise mech q (rng w)) as [[y|e1] r] eqn:E;
        intros [= <- _].
      right. right. right. left. exists mech, q, (rng w). rewrite E.
      reflexivity.
    + destruct (randomise_nan mech (rng w)) as [[u|e1] r] eqn:E;
        intros [= <- _].
      right. right. right. right. exists mech, (rng w). rewrite E.
      reflexivity.
Qed.

Lemma apply_noise_raises df mechanism columns bounds :
  raises_only (pipeline_exception mechanism)
              (apply_noise_to_dataframe df mechanism columns bounds).
Proof.
  unfold apply_noise_to_dataframe.
  apply raises_only_bind; [apply raises_only_total; reflexivity|]. intros s.
  apply raises_only_bind.
  - apply raises_only_for_each. intros [df_dp rep] column. unfold noise_step.
    destruct (df_get df column) as [[dt values|values]|];
      try (apply raises_only_total; reflexivity).
    destruct (negb (noise_dtype dt)); [apply raises_only_total; reflexivity|].
    destruct (resolve_bounds _ column values) as [lower upper].
    apply raises_only_bind; [apply add_noise_raises|].
    intros out. apply raises_only_total. reflexivity.
  - intros [df_dp rep]. apply raises_only_total. reflexivity.
Qed.

Lemma collapsed_cells (lower upper : Q) (orig : list (option Q))
    (noisy : list npfloat) :
  upper <= lower ->
  Forall2 drawn_for orig noisy ->
  Forall2 (collapsed_to upper) orig
          (np_clip noisy (Finite lower) (Finite upper)).
Proof.
  intros Hle. induction 1 as [|cell v orig noisy Hv _ IH]; cbn; constructor.
  - destruct cell as [q|]; cbn in *.
    + destruct Hv as [y ->]. apply clip_degenerate. exact Hle.
    + subst v. reflexivity.
  - exact IH.
Qed.



(** C2, as the code has it.  The pipeline does not validate bounds.  With
    [upper <= lower] it hands [upper - lower] to the mechanism constructor:
    an exception of the constructor propagates before any value is drawn,
    and the pipeline raises nothing of its own but the [ValueError] of an
    unknown mechanism name.  So a column with [upper < lower] is never
    emitted when the library rejects a negative sensitivity; and when the
    call returns, what is emitted for a column with [upper <= lower] is
    [upper] for every cell that holds a number, and [nan] for a missing
    cell. *)
Theorem degenerate_bounds_are_not_validated df mechanism columns bounds
    (w : world) :
  (forall values eps lower upper e,
     (mechanism = "laplace"%string
      /\ Laplace eps (Float.sub upper lower) = Raised e)
     \/ (mechanism = "gaussian"%string
         /\ Gaussian eps (delta (self w)) (Float.sub upper lower) = Raised e) ->
     _add_noise_to_column values mechanism eps lower upper w = (Raised e, w))
  /\ (forall e w',
        apply_noise_to_dataframe df mechanism columns bounds w = (Raised e, w') ->
        pipeline_exception mechanism e)
  /\ (forall df_dp report w',
        apply_noise_to_dataframe df mechanism columns bounds w
          = (Returned (df_dp, report), w') ->
        forall column stats lower upper,
          column ∈ columns_processed report ->
          noise_statistics report !! column = Some stats ->
          column_bounds stats = (Finite lower, Finite upper) ->
          (rejects_negative_sensitivity -> lower <= upper)
          /\ (upper <= lower ->
              exists dt orig values,
                df_get df column = Some (NumSeries dt orig)
                /\ df_get df_dp column = Some (NumSeries float64 values)
                /\ Forall2 (collapsed_to upper) orig values)).
Proof.
  split; [|split].
  - intros values eps lower upper e [[-> Hc]|[-> Hc]];
      unfold _add_noise_to_column, bind, get_self, lift; cbn;
      rewrite Hc; reflexivity.
  - intros e w' Hrun. exact (apply_noise_raises _ _ _ _ _ _ _ Hrun).
  - intros df_dp report w' Hrun column stats lower upper Hin Hstats Hb.
    destruct (apply_noise_clipped _ _ _ _ _ _ _ _ Hrun column Hin)
      as (dt & orig & noisy & stats' & Hcol & Hstats' & _ & Hsens & Hdrawn
          & Hdp).
    cbn [fst snd] in *. rewrite Hstats in Hstats'. injection Hstats' as <-.
    rewrite Hb in Hdp, Hsens. cbn [fst snd] in Hdp, Hsens. split.
    + intros Hrejects.
      destruct (Qlt_le_dec upper lower) as [Hlt|Hle]; [|exact Hle].
      exfalso. apply (Hrejects _) in Hsens; [exact Hsens|].
      cbn. apply Qltb_lt. lra.
    + intros Hle. exists dt, orig. eexists.
      split; [exact Hcol|]. split; [exact Hdp|].
      apply collapsed_cells; assumption.
Qed.

(** C5, as the code has it.  With an empty list of target columns the
    pipeline raises nothing: it returns the copy of the frame unchanged and
    a report with no processed column, and charges epsilon to the budget. *)
Theorem empty_target_columns_return df mechanism bounds (w : world) :
  apply_noise_to_dataframe df mechanism (Some []) bounds w
  = (Returned
       (df_copy df,
        {| report_epsilon := epsilon (self w);
           report_delta := delta (self w);
           report_mechanism := mechanism;
           privacy_level := get_privacy_level (self w);
           columns_processed := [];
           noise_statistics := ∅;
           report_privacy_budget_spent := epsilon (self w) |}),
     {| self := {| epsilon := epsilon (self w);
                   delta := delta (self w);
                   privacy_budget_spent :=
                     privacy_budget_spent (self w) + epsilon (self w) |};
        rng := rng w |}).
Proof. reflexivity. Qed.

End Pipeline.

(** ** Missing quasi-identifiers *)

Lemma in_columns_true {A} (df : DataFrame A) (col : string) :
  in_columns df col = true <-> col ∈ map fst (columns df).
Proof.
  unfold in_columns. rewrite existsb_exists, list_elem_of_In. split.
  - intros (x & Hin & Heq). apply String.eqb_eq in Heq. subst x. exact Hin.
  - intros Hin. exists col. split; [exact Hin | apply String.eqb_refl].
Qed.

Lemma df_get_None {A} (df : DataFrame A) (col : string) :
  df_get df col = None <-> in_columns df col = false.
Proof.
  unfold df_get, in_columns. induction (columns df) as [|[c s] l IH]; cbn.
  - tauto.
  - rewrite (String.eqb_sym col c). destruct (String.eqb c col); cbn.
    + split; discriminate.
    + exact IH.
Qed.



(** ** k-anonymity *)

Lemma Zsum_shift (l : list Z) (a : Z) :
  fold_left Z.add l a = (a + Zsum l)%Z.
Proof.
  unfold Zsum. revert a. induction l as [|x l IH]; intros a; cbn [fold_left].
  - lia.
  - rewrite IH, (IH (0 + x)%Z). lia.
Qed.

Lemma Zsum_cons (x : Z) (l : list Z) : Zsum (x :: l) = (x + Zsum l)%Z.
Proof. unfold Zsum at 1. cbn. apply Zsum_shift. Qed.

(** The rows of class [d] among [keys], counted one key at a time. *)
Lemma class_rows_cons (t : list cell -> bool) (d : list cell)
    (ds keys : list (list cell)) :
  d ∉ ds ->
  length (List.filter (fun x => t x && bool_decide (x ∈ d :: ds)) keys)
  = ((if t d then count_key keys d else 0)
     + length (List.filter (fun x => t x && bool_decide (x ∈ ds)) keys))%nat.
Proof.
  intros Hd. unfold count_key. induction keys as [|x keys IH]; cbn.
  - destruct (t d); reflexivity.
  - destruct (list_eq_dec x d) as [->|Hne].
    + rewrite (bool_decide_eq_true_2 (d ∈ d :: ds)) by (apply elem_of_cons; auto).
      rewrite (bool_decide_eq_false_2 (d ∈ ds)) by exact Hd.
      rewrite andb_true_r, andb_false_r.
      destruct (t d); cbn; rewrite IH; lia.
    + assert (Hiff : bool_decide (x ∈ d :: ds) = bool_decide (x ∈ ds)).
      { apply bool_decide_ext. rewrite elem_of_cons. tauto. }
      rewrite Hiff. destruct (t x && bool_decide (x ∈ ds)); cbn; rewrite IH; lia.
Qed.

(** Summing the sizes of the selected classes counts the rows that lie in
    a selected class. *)
Lemma class_sizes_sum (t : list cell -> bool) (ds keys : list (list cell)) :
  NoDup ds ->
  Zsum (map (fun d => Z.of_nat (count_key keys d)) (List.filter t ds))
  = Z.of_nat
      (length (List.filter (fun x => t x && bool_decide (x ∈ ds)) keys)).
Proof.
  induction 1 as [|d ds Hd Hnd IH].
  - cbn. replace (List.filter _ keys) with (@nil (list cell)); [reflexivity|].
    symmetry. induction keys as [|x keys IHk]; cbn; [reflexivity|].
    rewrite (bool_decide_eq_false_2 (x ∈ [])) by apply not_elem_of_nil.
    rewrite andb_false_r. exact IHk.
  - rewrite class_rows_cons by exact Hd. cbn [List.filter].
    destruct (t d); cbn [map]; [rewrite Zsum_cons|]; rewrite IH; lia.
Qed.

Lemma filter_map_swap {A B} (f : A -> B) (p : B -> bool) (l : list A) :
  List.filter p (map f l) = map f (List.filter (fun a => p (f a)) l).
Proof.
  induction l as [|a l IH]; cbn; [reflexivity|].
  destruct (p (f a)); cbn; rewrite IH; reflexivity.
Qed.

Lemma filter_none {A} (p : A -> bool) (l : list A) :
  (forall a, In a l -> p a = false) -> List.filter p l = [].
Proof.
  induction l as [|a l IH]; intros Hp; cbn; [reflexivity|].
  rewrite (Hp a) by (left; reflexivity).
  apply IH. intros b Hb. apply Hp. right. exact Hb.
Qed.

Lemma small_classes_sum (k : Z) (keys : list (list cell)) :
  Zsum (List.filter (fun g => (g <? k)%Z) (class_sizes keys))
  = Z.of_nat (length (vulnerable_rows k keys)).
Proof.
  unfold class_sizes, vulnerable_rows. rewrite filter_map_swap.
  rewrite class_sizes_sum by apply NoDup_remove_dups.
  f_equal. f_equal. apply filter_ext_in. intros x Hx.
  rewrite bool_decide_eq_true_2; [apply andb_true_r|].
  apply elem_of_remove_dups, list_elem_of_In. exact Hx.
Qed.

Lemma count_key_pos (keys : list (list cell)) (key : list cell) :
  key ∈ keys <-> (0 < count_key keys key)%nat.
Proof.
  unfold count_key. rewrite list_elem_of_In. apply count_occ_In.
Qed.

Lemma no_small_class (k : Z) (keys : list (list cell)) :
  List.filter (fun g => (g <? k)%Z) (class_sizes keys) = []
  <-> forall key, key ∈ keys -> (k <= Z.of_nat (count_key keys key))%Z.
Proof.
  unfold class_sizes. rewrite filter_map_swap. split.
  - intros Hnil key Hin.
    apply map_eq_nil in Hnil.
    destruct (Z.of_nat (count_key keys key) <? k)%Z eqn:E;
      [|apply Z.ltb_ge in E; exact E].
    assert (Hf : In key (List.filter
                           (fun a => (Z.of_nat (count_key keys a) <? k)%Z)
                           (remove_dups keys))).
    { apply filter_In. split; [|exact E].
      apply list_elem_of_In, elem_of_remove_dups. exact Hin. }
    rewrite Hnil in Hf. destruct Hf.
  - intros Hall. rewrite filter_none; [reflexivity|].
    intros d Hd. apply Z.ltb_ge, Hall.
    apply elem_of_remove_dups, list_elem_of_In. exact Hd.
Qed.

Lemma assoc_get_Some {V} (l : list (string * V)) (k : string) (v : V) :
  assoc_get l k = Some v -> (k, v) ∈ l.
Proof.
  induction l as [|[k' v'] l IH]; cbn; [discriminate|].
  destruct (String.eqb k' k) eqn:E.
  - apply String.eqb_eq in E. intros [= ->]. subst. apply elem_of_cons. auto.
  - intros Hget. apply elem_of_cons. right. exact (IH Hget).
Qed.

Lemma take_columns_present (df : DataFrame (option Q)) (by_ : list string) :
  (forall c, c ∈ by_ -> c ∈ map fst (columns df)) ->
  exists ss, take_columns df by_ = Returned ss
             /\ Forall (fun s => exists c, (c, s) ∈ columns df) ss.
Proof.
  induction by_ as [|c by_ IH]; intros Hall; cbn [take_columns].
  - exists []. split; [reflexivity | constructor].
  - destruct (df_get df c) as [s|] eqn:Hc.
    + destruct IH as (ss & Hrun & Hss).
      { intros c' Hc'. apply Hall, elem_of_cons. auto. }
      rewrite Hrun. exists (s :: ss). split; [reflexivity|].
      constructor; [|exact Hss]. exists c. apply assoc_get_Some. exact Hc.
    + apply df_get_None in Hc.
      assert (Hin : in_columns df c = true).
      { apply in_columns_true, Hall, elem_of_cons. auto. }
      congruence.
Qed.

Lemma key_cells_length (s : Series (option Q)) : length (key_cells s) = series_len s.
Proof. destruct s; cbn; apply length_map. Qed.

Lemma row_tuples_length {A} (n : nat) (cols : list (list A)) :
  Forall (fun c => length c = n) cols -> length (row_tuples n cols) = n.
Proof.
  induction 1 as [|c cols Hc _ IH]; cbn [row_tuples].
  - apply length_replicate.
  - rewrite length_zip_with, IH, Hc. lia.
Qed.

Lemma row_tuples_no_rows {A} (cols : list (list A)) : row_tuples 0 cols = [].
Proof.
  induction cols as [|c cols IH]; cbn [row_tuples]; [reflexivity|].
  rewrite IH. destruct c; reflexivity.
Qed.

Lemma row_cells_length (df : DataFrame (option Q))
    (ss : list (Series (option Q))) :
  wf_frame df ->
  Forall (fun s => exists c, (c, s) ∈ columns df) ss ->
  length (row_cells df ss) = nrows df.
Proof.
  intros Hwf Hss. apply row_tuples_length.
  apply Forall_map. eapply Forall_impl; [exact Hss|].
  intros s (c & Hin). cbn. rewrite key_cells_length.
  unfold wf_frame in Hwf. rewrite Forall_forall in Hwf.
  exact (Hwf _ Hin).
Qed.

Lemma omap_length_le {A B} (f : A -> option B) (l : list A) :
  (length (omap f l) <= length l)%nat.
Proof.
  induction l as [|a l IH]; cbn; [lia|]. destruct (f a); cbn; lia.
Qed.

Lemma omap_length_all {A B} (f : A -> option B) (l : list A) :
  length (omap f l) = length l <-> Forall (fun a => is_Some (f a)) l.
Proof.
  induction l as [|a l IH]; cbn.
  - split; [constructor | reflexivity].
  - pose proof (omap_length_le f l) as Hle.
    destruct (f a) as [b|] eqn:E; cbn.
    + rewrite Forall_cons, <- IH, E. split.
      * intros [= Hlen]. split; [eexists; reflexivity | exact Hlen].
      * intros [_ Hlen]. rewrite Hlen. reflexivity.
    + rewrite Forall_cons, E. split; [lia|].
      intros [[b Hb] _]. discriminate Hb.
Qed.

(** The rows that [groupby] keeps are rows of the frame. *)
Lemma row_keys_length (df : DataFrame (option Q))
    (ss : list (Series (option Q))) :
  wf_frame df ->
  Forall (fun s => exists c, (c, s) ∈ columns df) ss ->
  (length (row_keys df ss) <= nrows df)%nat.
Proof.
  intros Hwf Hss. rewrite <- (row_cells_length df ss Hwf Hss).
  apply omap_length_le.
Qed.

Lemma row_keys_no_rows (df : DataFrame (option Q))
    (ss : list (Series (option Q))) :
  nrows df = 0%nat -> row_keys df ss = [].
Proof.
  intros Hrows. unfold row_keys, row_cells.
  rewrite Hrows, row_tuples_no_rows. reflexivity.
Qed.

(** It keeps every row exactly when no row has a missing key cell. *)
Lemma row_keys_all (df : DataFrame (option Q))
    (ss : list (Series (option Q))) :
  wf_frame df ->
  Forall (fun s => exists c, (c, s) ∈ columns df) ss ->
  (length (row_keys df ss) = nrows df
   <-> Forall (fun row => Forall is_Some row) (row_cells df ss)).
Proof.
  intros Hwf Hss. rewrite <- (row_cells_length df ss Hwf Hss).
  unfold row_keys. rewrite omap_length_all. apply Forall_iff. intros row.
  induction row as [|c row IH]; cbn.
  - split; [constructor | eexists; reflexivity].
  - rewrite Forall_cons. destruct c as [c|]; cbn.
    + rewrite <- IH. destruct (complete_key row); cbn; split.
      * intros _. split; eexists; reflexivity.
      * intros _. eexists; reflexivity.
      * intros [x Hx]. discriminate Hx.
      * intros [_ [x Hx]]. discriminate Hx.
    + split.
      * intros [x Hx]. discriminate Hx.
      * intros [[x Hx] _]. discriminate Hx.
Qed.

Lemma inject_Z_nonzero (n : nat) :
  (0 < n)%nat -> Qeq_bool (inject_Z (Z.of_nat n)) 0 = false.
Proof.
  intros Hn. apply Qeq_bool_false. unfold Qeq. cbn. lia.
Qed.

(** The check on a frame that has all the quasi-identifiers. *)
Lemma k_anonymity_check_returns (df : DataFrame (option Q)) (qi : list string) (k : Z)
    (ss : list (Series (option Q))) :
  qi <> [] -> take_columns df qi = Returned ss ->
  let groups := class_sizes (row_keys df ss) in
  let vulnerable_groups := List.filter (fun g => (g <? k)%Z) groups in
  let percentage :=
    Float.mul (Float.div (of_int (Zsum vulnerable_groups))
                         (of_int (Z.of_nat (nrows df))))
              (Finite 100) in
  k_anonymity_check df qi k
  = Returned
      {| k_value := k;
         total_records := Z.of_nat (nrows df);
         vulnerable_records := Zsum vulnerable_groups;
         vulnerable_percentage := percentage;
         is_k_anonymous := (length vulnerable_groups =? 0)%nat;
         smallest_group_size :=
           if (0 <? length groups)%nat then Zmin_list groups else 0%Z;
         average_group_size :=
           if (0 <? length groups)%nat
           then Finite (inject_Z (Zsum groups)
                        / inject_Z (Z.of_nat (length groups)))
           else Finite 0;
         recommendation := _get_k_anonymity_recommendation percentage |}.
Proof.
  intros Hne Hcols. unfold k_anonymity_check, groupby_size. rewrite Hcols.
  destruct qi; [contradiction | reflexivity].
Qed.

(** C8, as the code has it.  On a non-empty frame that has the
    quasi-identifier columns, the classes are formed among the records
    that have a value in every quasi-identifier column; a record with a
    missing one is in no class, though [total_records] counts it.  The
    check reports as [vulnerable_records] the sum of the sizes of the
    classes smaller than [k], which is the number of records in such a
    class; as [vulnerable_percentage] that number over [total_records]
    times 100; and [is_k_anonymous] exactly when no class is smaller than
    [k].  When no quasi-identifier value is missing, all the key tuples
    differ and [k = 5], the percentage is 100 and [is_k_anonymous] is
    false. *)
Theorem k_anonymity_report_spec (df : DataFrame (option Q)) (qi : list string)
    (k : Z) :
  wf_frame df -> (0 < nrows df)%nat -> qi <> [] ->
  (forall c, c ∈ qi -> c ∈ map fst (columns df)) ->
  exists ss report,
    take_columns df qi = Returned ss
    /\ k_anonymity_check df qi k = Returned report
    /\ let keys := row_keys df ss in
       (length keys <= nrows df)%nat
       /\ (length keys = nrows df
           <-> Forall (fun row => Forall is_Some row) (row_cells df ss))
       /\ total_records report = Z.of_nat (nrows df)
       /\ vulnerable_records report
          = Zsum (List.filter (fun g => (g <? k)%Z) (class_sizes keys))
       /\ vulnerable_records report = Z.of_nat (length (vulnerable_rows k keys))
       /\ (exists p, vulnerable_percentage report = Finite p
                     /\ p == inject_Z (vulnerable_records report)
                             / inject_Z (total_records report) * 100)
       /\ (is_k_anonymous report = true <->
           forall key, key ∈ keys -> (k <= Z.of_nat (count_key keys key))%Z)
       /\ (length keys = nrows df -> NoDup keys -> k = 5%Z ->
           (exists p, vulnerable_percentage report = Finite p /\ p == 100)
           /\ is_k_anonymous report = false).
Proof.
  intros Hwf Hrows Hne Hall.
  destruct (take_columns_present df qi Hall) as (ss & Hcols & Hss).
  exists ss. eexists. split; [exact Hcols|].
  split; [exact (k_anonymity_check_returns df qi k ss Hne Hcols)|].
  pose proof (row_keys_length df ss Hwf Hss) as Hle.
  pose proof (row_keys_all df ss Hwf Hss) as Hcomplete.
  set (keys := row_keys df ss) in *.
  cbn [total_records vulnerable_records vulnerable_percentage is_k_anonymous].
  assert (Hanon : (length (List.filter (fun g => (g <? k)%Z) (class_sizes keys))
                   =? 0)%nat = true
                  <-> forall key, key ∈ keys ->
                                  (k <= Z.of_nat (count_key keys key))%Z).
  { rewrite Nat.eqb_eq, length_zero_iff_nil. apply no_small_class. }
  assert (Hpct : Float.mul
                   (Float.div
                      (of_int (Zsum (List.filter (fun g => (g <? k)%Z)
                                                 (class_sizes keys))))
                      (of_int (Z.of_nat (nrows df))))
                   (Finite 100)
                 = Finite (inject_Z (Zsum (List.filter (fun g => (g <? k)%Z)
                                                       (class_sizes keys)))
                           / inject_Z (Z.of_nat (nrows df)) * 100)).
  { unfold of_int. cbn [Float.div].
    rewrite (inject_Z_nonzero _ Hrows). reflexivity. }
  split; [exact Hle|]. split; [exact Hcomplete|].
  split; [reflexivity|]. split; [reflexivity|].
  split; [apply small_classes_sum|].
  split; [eexists; split; [exact Hpct | reflexivity]|].
  split; [exact Hanon|].
  intros Hlen Hnodup ->.
  assert (Hone : forall key, key ∈ keys -> count_key keys key = 1%nat).
  { intros key Hin. unfold count_key.
    apply NoDup_count_occ' ; [apply NoDup_ListNoDup; exact Hnodup|].
    apply list_elem_of_In. exact Hin. }
  split.
  - eexists. split; [exact Hpct|].
    rewrite small_classes_sum. unfold vulnerable_rows.
    rewrite (filter_ext_in _ (fun _ => true)).
    2:{ intros key Hin. rewrite Hone by (apply list_elem_of_In; exact Hin).
        reflexivity. }
    replace (List.filter (fun _ => true) keys) with keys.
    2:{ clear. induction keys as [|x l IH]; cbn; [reflexivity|].
        rewrite <- IH. reflexivity. }
    rewrite Hlen.
    assert (Hnz : ~ inject_Z (Z.of_nat (nrows df)) == 0).
    { apply Qeq_bool_false, inject_Z_nonzero. exact Hrows. }
    field. exact Hnz.
  - apply not_true_is_false. intros E.
    pose proof (proj1 Hanon E) as Hk. clear E.
    destruct keys as [|key keys'] eqn:Ek; [cbn in Hlen; lia|].
    assert (Hin : key ∈ key :: keys') by (apply elem_of_cons; auto).
    specialize (Hk key Hin). rewrite (Hone key Hin) in Hk. lia.
Qed.

(** C10. On a frame with no rows the check divides [0] by
    [total_records == 0]: what it reports as [vulnerable_percentage] is
    [nan], not a percentage (and the recommendation falls to the last
    case), while [smallest_group_size] and [average_group_size], which are
    guarded, are [0]. *)
Theorem empty_frame_percentage_is_nan (df : DataFrame (option Q)) (qi : list string)
    (k : Z) :
  nrows df = 0%nat ->
  (forall report, k_anonymity_check df qi k = Returned report ->
     total_records report = 0%Z
     /\ vulnerable_percentage report = NaN
     /\ smallest_group_size report = 0%Z
     /\ average_group_size report = Finite 0
     /\ recommendation report
        = _get_k_anonymity_recommendation NaN)
  /\ (qi <> [] -> (forall c, c ∈ qi -> c ∈ map fst (columns df)) ->
      exists report, k_anonymity_check df qi k = Returned report).
Proof.
  intros Hrows. split.
  - intros report. unfold k_anonymity_check, groupby_size.
    destruct qi as [|c qi]; [discriminate|].
    destruct (take_columns df (c :: qi)) as [ss|e]; [|discriminate].
    rewrite (row_keys_no_rows df ss Hrows), Hrows.
    intros [= <-]. cbn. repeat split.
  - intros Hne Hall.
    destruct (take_columns_present df qi Hall) as (ss & Hcols & _).
    eexists. exact (k_anonymity_check_returns df qi k ss Hne Hcols).
Qed.

(** ** The properties at work on the example data *)

Lemma budget_accounting_witness :
  let w := (session [age_call 0 100; age_call 0 100] (tape_world 2.0)).2 in
  privacy_budget_spent (self w) == 4.0
  /\ exists rep,
       calculate_privacy_loss (np := coarse_numpy) 1 w = (Returned rep, w)
       /\ privacy_remaining rep == 6.0.
Proof.
  intros w.
  destruct (budget_accounting (lib := tape_lib) (np := coarse_numpy)
              [age_call 0 100; age_call 0 100] 2.0 default_delta
              ([1; -200; 3; 1 # 2; 500] : list Q) 1)
    as (_ & rep & Hrun & _ & _ & _ & Hscenario).
  - vm_compute. discriminate.
  - destruct Hscenario as [H4 H6].
    + reflexivity.
    + reflexivity.
    + vm_compute. repeat constructor.
    + split; [exact H4|]. exists rep. split; [exact Hrun | exact H6].
Defined.

Lemma composition_numbers_witness :
  exists rep,
    calculate_privacy_loss (np := coarse_numpy) 3 (tape_world 0.5)
      = (Returned rep, tape_world 0.5)
    /\ sequential_composition rep = 0.5 * inject_Z 3.
Proof.
  destruct (composition_numbers (np := coarse_numpy) (tape_world 0.5) 3)
    as (rep & Hrun & Hseq & _).
  - vm_compute. reflexivity.
  - vm_compute. reflexivity.
  - lia.
  - exists rep. split; [exact Hrun | exact Hseq].
Defined.

Lemma composition_query_is_pure_witness :
  (calculate_privacy_loss (np := coarse_numpy) 3 (tape_world 0.5)).2
    = tape_world 0.5
  /\ privacy_budget_spent
       (self (run_call (age_call 0 100) (tape_world 0.5)).2) = 0 + 0.5.
Proof.
  destruct (composition_query_is_pure (np := coarse_numpy)
              (tape_world 0.5) (tape_world 0.5) 3) as (Hframe & _ & Hcharge).
  split; [exact Hframe|].
  destruct (run_call (age_call 0 100) (tape_world 0.5)) as [o w'] eqn:Hrun.
  assert (Hret : returned o = true).
  { change o with (o, w').1. rewrite <- Hrun. vm_compute. reflexivity. }
  destruct o as [out|e]; [|discriminate Hret].
  exact (Hcharge people "laplace"%string (Some ["age"%string])
                 (Some (<["age"%string := (0, 100)]> ∅)) out w' Hrun).
Defined.




(** The call of scenario D returns, with every age clipped to 5. *)
Lemma degenerate_bounds_emit_values :
  match (run_call (age_call 5 5) (tape_world 1.0)).1 with
  | Returned (df_dp, report) =>
      columns_processed report = ["age"%string]
      /\ df_get df_dp "age"
         = Some (NumSeries float64
                   [Finite 5; Finite 5; Finite 5; Finite 5; Finite 5])
  | Raised _ => False
  end.
Proof. vm_compute. split; reflexivity. Qed.

(** A call with an empty list of target columns returns. *)
Lemma empty_target_columns_do_not_raise :
  returned (apply_noise_to_dataframe people "laplace" (Some []) None
              (tape_world 1.0)).1 = true.
Proof. reflexivity. Qed.


Lemma k_anonymity_report_spec_witness :
  exists report,
    k_anonymity_check people ["zip"; "age"] 5 = Returned report
    /\ (exists p, vulnerable_percentage report = Finite p /\ p == 100)
    /\ is_k_anonymous report = false.
Proof.
  destruct (k_anonymity_report_spec people ["zip"; "age"] 5)
    as (ss & report & Hcols & Hrun & _ & _ & _ & _ & _ & _ & _ & Hunique).
  - repeat constructor.
  - cbn. lia.
  - discriminate.
  - intros c. rewrite !list_elem_of_In. cbn. tauto.
  - exists report. split; [exact Hrun|].
    vm_compute in Hcols. injection Hcols as <-.
    apply Hunique; [reflexivity| |reflexivity].
    apply (bool_decide_unpack _). vm_compute. exact I.
Defined.

(** The claim of C8 on a frame with a missing zip code: the five records
    have five different tuples and [k = 5], yet the record without a zip
    code is in no class and the percentage is 80, not 100; and on a frame
    in which no record has a zip code the check says k-anonymous. *)
Lemma missing_keys_escape_the_check :
  NoDup (row_cells people_with_gaps
           [ObjSeries [Some "06100"; Some "06200"; Some "34000"; None;
                       Some "01000"]]%string)
  /\ (exists report p,
        k_anonymity_check people_with_gaps ["zip"] 5 = Returned report
        /\ total_records report = 5%Z
        /\ vulnerable_records report = 4%Z
        /\ vulnerable_percentage report = Finite p /\ p == 80
        /\ ~ p == 100)
  /\ (exists report,
        k_anonymity_check people_without_zip ["zip"] 5 = Returned report
        /\ total_records report = 3%Z
        /\ is_k_anonymous report = true).
Proof.
  split; [|split].
  - apply (bool_decide_unpack _). vm_compute. exact I.
  - do 2 eexists. split; [vm_compute; reflexivity|]. cbn.
    repeat split; try reflexivity. intros E. discriminate E.
  - eexists. split; [vm_compute; reflexivity|]. split; reflexivity.
Qed.

Lemma empty_frame_percentage_is_nan_witness :
  exists report,
    k_anonymity_check no_people ["zip"; "age"] 5 = Returned report
    /\ vulnerable_percentage report = NaN
    /\ smallest_group_size report = 0%Z.
Proof.
  destruct (empty_frame_percentage_is_nan no_people ["zip"; "age"] 5)
    as [Hnan Hreturns].
  - reflexivity.
  - destruct Hreturns as (report & Hrun).
    + discriminate.
    + intros c. rewrite !list_elem_of_In. cbn. tauto.
    + exists report. destruct (Hnan report Hrun) as (_ & Hp & Hs & _).
      repeat split; assumption.
Defined.

Lemma degenerate_bounds_are_not_validated_witness :
  _add_noise_to_column [Some 10; Some 20] "laplace" 1 (Finite 10) (Finite 0)
                       (tape_world 1.0)
  = (Raised (Exception "ValueError" "Sensitivity must be non-negative"),
     tape_world 1.0)
  /\ match (apply_noise_to_dataframe people_with_gaps "laplace"
              (Some ["age"%string]) (Some (<["age"%string := (5, 5)]> ∅))
              (tape_world 1.0)).1 with
     | Returned (df_dp, report) =>
         exists values,
           df_get df_dp "age" = Some (NumSeries float64 values)
           /\ Forall2 (collapsed_to 5)
                      [Some 10; None; Some 30; Some 40; Some 50] values
     | Raised _ => False
     end.
Proof.
  destruct (degenerate_bounds_are_not_validated people_with_gaps "laplace"
              (Some ["age"%string]) (Some (<["age"%string := (5, 5)]> ∅))
              (tape_world 1.0)) as (Hraise & _ & Hemit).
  split.
  - apply Hraise. left. split; reflexivity.
  - destruct (apply_noise_to_dataframe people_with_gaps "laplace"
                (Some ["age"%string]) (Some (<["age"%string := (5, 5)]> ∅))
                (tape_world 1.0)) as [[[df_dp report]|e] w'] eqn:Hrun;
      cbn [fst].
    + assert (Hrep : columns_processed report = ["age"%string]
                     /\ exists stats,
                          noise_statistics report !! "age"%string = Some stats
                          /\ column_bounds stats = (Finite 5, Finite 5)).
      { vm_compute in Hrun. injection Hrun as _ <- _.
        split; [reflexivity|]. eexists.
        split; [vm_compute; reflexivity | reflexivity]. }
      destruct Hrep as (Hcols & stats & Hstats & Hb).
      destruct (Hemit df_dp report w' eq_refl "age"%string stats 5 5)
        as [_ Hcollapse].
      * rewrite Hcols. apply list_elem_of_In. left. reflexivity.
      * exact Hstats.
      * exact Hb.
      * destruct Hcollapse as (dt & orig & values & Hcol & Hdp & Hall);
          [lra|].
        exists values. split; [exact Hdp|].
        injection Hcol as _ <-. exact Hall.
    + vm_compute in Hrun. discriminate Hrun.
Defined.

(** * Further properties *)

(** ** Which columns the pipeline touches *)

Section Loop.
Context {lib : Diffprivlib} {np : Numpy}.

Lemma noise_step_skip df mechanism b eps acc column :
  processable df column = false ->
  noise_step df mechanism b eps acc column = ret acc.
Proof.
  unfold processable, noise_step. destruct acc as [df_dp rep].
  destruct (df_get df column) as [[dt values|values]|]; try reflexivity.
  intros ->. reflexivity.
Qed.

Lemma noise_step_process df mechanism b eps df_dp rep column :
  processable df column = true ->
  exists dt values,
    df_get df column = Some (NumSeries dt values)
    /\ noise_step df mechanism b eps (df_dp, rep) column
       = (noisy_values <-
            _add_noise_to_column values mechanism eps
              (resolve_bounds b column values).1
              (resolve_bounds b column values).2 ;;
          ret (df_set df_dp column (NumSeries float64 noisy_values),
               report_with_column rep column
                 (column_report eps values
                    (resolve_bounds b column values).1
                    (resolve_bounds b column values).2 noisy_values))).
Proof.
  unfold processable, noise_step.
  destruct (df_get df column) as [[dt values|values]|]; try discriminate.
  intros ->. exists dt, values. split; [reflexivity|]. cbn [negb].
  destruct (resolve_bounds b column values) as [lower upper]. reflexivity.
Qed.

Lemma assoc_set_labels {V} (l : list (string * V)) (k : string) (v : V) :
  k ∈ map fst l -> map fst (assoc_set l k v) = map fst l.
Proof.
  induction l as [|[k' v'] l IH]; cbn.
  - intros Hin. apply elem_of_nil in Hin. contradiction.
  - intros Hin. destruct (String.eqb k' k) eqn:E; cbn; [reflexivity|].
    f_equal. apply IH. apply elem_of_cons in Hin as [->|Hin]; [|exact Hin].
    rewrite String.eqb_refl in E. discriminate E.
Qed.

Lemma df_get_labels {A} (df : DataFrame A) (c : string) (s : Series A) :
  df_get df c = Some s -> c ∈ map fst (columns df).
Proof.
  intros Hget. apply in_columns_true.
  destruct (in_columns df c) eqn:E; [reflexivity|].
  apply df_get_None in E. congruence.
Qed.

Lemma df_get_copy (df : DataFrame (option Q)) (c : string) :
  df_get (df_copy df) c = series_map to_float <$> df_get df c.
Proof.
  unfold df_get, df_copy. cbn. induction (columns df) as [|[k v] l IH]; cbn.
  - reflexivity.
  - destruct (String.eqb k c); [reflexivity | exact IH].
Qed.

Lemma df_copy_labels (df : DataFrame (option Q)) :
  map fst (columns (df_copy df)) = map fst (columns df).
Proof.
  unfold df_copy. cbn. rewrite map_map. reflexivity.
Qed.

(** The loop over [l], from the loop variables [acc]. *)
Lemma loop_returns df mechanism b eps l :
  forall acc (w w' : world) acc',
    for_each l (noise_step df mechanism b eps) acc w = (Returned acc', w') ->
    map fst (columns acc.1) = map fst (columns df) ->
    columns_processed acc'.2
      = columns_processed acc.2 ++ List.filter (processable df) l
    /\ nrows acc'.1 = nrows acc.1
    /\ map fst (columns acc'.1) = map fst (columns df)
    /\ (forall c, c ∉ List.filter (processable df) l ->
                  df_get acc'.1 c = df_get acc.1 c
                  /\ noise_statistics acc'.2 !! c = noise_statistics acc.2 !! c)
    /\ report_epsilon acc'.2 = report_epsilon acc.2
    /\ report_delta acc'.2 = report_delta acc.2
    /\ report_mechanism acc'.2 = report_mechanism acc.2
    /\ privacy_level acc'.2 = privacy_level acc.2.
Proof.
  induction l as [|column l IH]; intros acc w w' acc'; cbn [for_each].
  - unfold ret. intros [= <- _] Hlabels. cbn [List.filter].
    rewrite app_nil_r. repeat split; auto.
  - intros Hrun Hlabels.
    apply bind_returned in Hrun as (acc1 & w1 & Hstep & Hrest).
    cbn [List.filter]. destruct (processable df column) eqn:Hp.
    + destruct acc as [df_dp rep].
      destruct (noise_step_process df mechanism b eps df_dp rep column Hp)
        as (dt & values & Hcol & Heq).
      rewrite Heq in Hstep.
      apply bind_returned in Hstep as (noisy & w2 & _ & Hret).
      unfold ret in Hret. injection Hret as <- _.
      assert (Hin : column ∈ map fst (columns df_dp)).
      { cbn in Hlabels. rewrite Hlabels. exact (df_get_labels _ _ _ Hcol). }
      destruct (IH _ _ _ _ Hrest)
        as (Hcols & Hrows & Hlab & Hother & He & Hd & Hm & Hl).
      { cbn. rewrite assoc_set_labels by exact Hin. exact Hlabels. }
      cbn [fst snd report_with_column columns_processed noise_statistics
           report_epsilon report_delta report_mechanism privacy_level
           df_set nrows] in *.
      split; [rewrite Hcols, <- app_assoc; reflexivity|].
      repeat (split; [assumption|]).
      split; [|repeat split; assumption].
      intros c Hc. apply not_elem_of_cons in Hc as [Hne Hc].
      destruct (Hother c Hc) as [Hg Hs]. rewrite Hg, Hs.
      split; [apply df_get_set_ne | apply lookup_insert_ne]; congruence.
    + rewrite (noise_step_skip _ _ _ _ _ _ Hp) in Hstep.
      unfold ret in Hstep. injection Hstep as <- <-.
      exact (IH _ _ _ _ Hrest Hlabels).
Qed.

(** The pipeline around its loop. *)
Lemma apply_noise_unfold df mechanism requested bounds (w : world) :
  apply_noise_to_dataframe df mechanism requested bounds w
  = match for_each (target_columns df requested)
            (noise_step df mechanism (default ∅ bounds)
               (epsilon_share (epsilon (self w))
                              (target_columns df requested)))
            (df_copy df, initial_report (self w) mechanism) w with
    | (Returned acc, w1) =>
        (Returned (acc.1, final_report acc.2 (self w1)),
         {| self := {| epsilon := epsilon (self w1);
                       delta := delta (self w1);
                       privacy_budget_spent :=
                         privacy_budget_spent (self w1) + epsilon (self w1) |};
            rng := rng w1 |})
    | (Raised e, w1) => (Raised e, w1)
    end.
Proof.
  unfold apply_noise_to_dataframe, bind at 1, get_self at 1.
  unfold bind at 1.
  unfold epsilon_share, initial_report.
  destruct requested, bounds; cbn [target_columns default from_option id];
    match goal with
    | |- context [for_each ?l ?body ?s w] =>
        destruct (for_each l body s w) as [[[df_dp rep]|e] w1]
    end; reflexivity.
Qed.

(** A returning call of the pipeline, taken apart: the loop returned, the
    report is the loop's with the total epsilon written in, and the world
    is the loop's with the budget charged. *)
Lemma apply_noise_returned df mechanism columns bounds (w w' : world)
    df_dp report :
  apply_noise_to_dataframe df mechanism columns bounds w
    = (Returned (df_dp, report), w') ->
  exists rep0 rep1 w1,
    for_each (target_columns df columns)
      (noise_step df mechanism (default ∅ bounds)
                  (epsilon_share (epsilon (self w)) (target_columns df columns)))
      (df_copy df, rep0) w
    = (Returned (df_dp, rep1), w1)
    /\ columns_processed rep0 = []
    /\ noise_statistics rep0 = ∅
    /\ columns_processed report = columns_processed rep1
    /\ noise_statistics report = noise_statistics rep1
    /\ report_privacy_budget_spent report = epsilon (self w)
    /\ rng w' = rng w1.
Proof.
  unfold apply_noise_to_dataframe. intros Hrun.
  apply bind_returned in Hrun as (s & w0 & Hs & Hrun).
  unfold get_self in Hs. injection Hs as <- <-.
  apply bind_returned in Hrun as ([df1 rep1] & w1 & Hloop & Hrun).
  apply bind_returned in Hrun as (s2 & w2 & Hs2 & Hrun).
  unfold get_self in Hs2. injection Hs2 as <- <-.
  apply bind_returned in Hrun as (u & w3 & Hset & Hret).
  unfold set_privacy_budget_spent in Hset. injection Hset as _ <-.
  unfold ret in Hret. injection Hret as <- <- <-.
  assert (Hself : self w1 = self w).
  { match type of Hloop with
    | for_each ?l ?body ?s _ = _ =>
        assert (Hk : keeps_self (for_each l body s))
          by (apply keeps_self_for_each; intros; apply keeps_self_noise_step);
        specialize (Hk w); rewrite Hloop in Hk; exact Hk
    end. }
  eexists _, rep1, w1. split.
  { destruct bounds; exact Hloop. }
  cbn. rewrite Hself. repeat split; reflexivity.
Qed.

(** X1. The processed columns of a returning call are the requested
    columns (all number columns when none is requested) that are columns of
    the frame with dtype int64, float64, int32 or float32, in the order
    and with the repetitions of the request; the others are skipped. *)
Theorem processed_columns_are_the_processable df mechanism columns bounds
    (w w' : world) df_dp report :
  apply_noise_to_dataframe df mechanism columns bounds w
    = (Returned (df_dp, report), w') ->
  columns_processed report
  = List.filter (processable df) (target_columns df columns).
Proof.
  intros Hrun.
  destruct (apply_noise_returned _ _ _ _ _ _ _ _ Hrun)
    as (rep0 & rep1 & w1 & Hloop & Hnil & _ & Hcols & _).
  destruct (loop_returns _ _ _ _ _ _ _ _ _ Hloop (df_copy_labels df))
    as (Hp & _).
  cbn [fst snd] in Hp. rewrite Hcols, Hp, Hnil. reflexivity.
Qed.

Lemma wf_frame_set {A} (df : DataFrame A) (c : string) (s : Series A) :
  wf_frame df -> series_len s = nrows df -> wf_frame (df_set df c s).
Proof.
  unfold wf_frame, df_set. cbn. intros Hwf Hlen.
  induction (columns df) as [|[k v] l IH]; cbn.
  - constructor; [exact Hlen | constructor].
  - inversion Hwf as [|? ? Hk Hl]; subst.
    destruct (String.eqb k c); constructor; auto.
Qed.

Lemma wf_frame_copy (df : DataFrame (option Q)) : wf_frame df -> wf_frame (df_copy df).
Proof.
  unfold wf_frame, df_copy. cbn. intros Hwf. apply Forall_map.
  eapply Forall_impl; [exact Hwf|]. intros [k v] Hlen. cbn in *.
  destruct v; cbn in *; rewrite ?length_map; exact Hlen.
Qed.

Lemma noise_step_wf df mechanism b eps acc column (w w' : world) acc' :
  wf_frame df -> nrows acc.1 = nrows df ->
  noise_step df mechanism b eps acc column w = (Returned acc', w') ->
  wf_frame acc.1 -> wf_frame acc'.1 /\ nrows acc'.1 = nrows df.
Proof.
  intros Hwf Hrows Hstep Hacc. destruct (processable df column) eqn:Hp.
  - destruct acc as [df_dp rep].
    destruct (noise_step_process df mechanism b eps df_dp rep column Hp)
      as (dt & values & Hcol & Heq).
    rewrite Heq in Hstep.
    apply bind_returned in Hstep as (out & w2 & Hnoise & Hret).
    unfold ret in Hret. injection Hret as <- _.
    apply add_noise_returns in Hnoise as (noisy & Hlen & -> & _).
    cbn [fst] in *. split; [|exact Hrows]. apply wf_frame_set; [exact Hacc|].
    apply Forall2_length in Hlen.
    cbn. unfold np_clip. rewrite length_map, <- Hlen, Hrows.
    apply assoc_get_Some in Hcol. unfold wf_frame in Hwf.
    rewrite Forall_forall in Hwf. exact (Hwf _ Hcol).
  - rewrite (noise_step_skip _ _ _ _ _ _ Hp) in Hstep.
    unfold ret in Hstep. injection Hstep as <- _. split; assumption.
Qed.

(** X2. A returning call keeps the shape of the frame and everything it
    does not process: the copy has the rows and the column labels of the
    input, every column that is not a processed one is the input column
    unchanged, and the copy of a well-formed frame is well formed. *)
Theorem unprocessed_columns_are_kept df mechanism requested bounds
    (w w' : world) df_dp report :
  apply_noise_to_dataframe df mechanism requested bounds w
    = (Returned (df_dp, report), w') ->
  nrows df_dp = nrows df
  /\ map fst (columns df_dp) = map fst (columns df)
  /\ (forall c, c ∉ columns_processed report ->
                df_get df_dp c = series_map to_float <$> df_get df c)
  /\ (wf_frame df -> wf_frame df_dp).
Proof.
  intros Hrun.
  destruct (apply_noise_returned _ _ _ _ _ _ _ _ Hrun)
    as (rep0 & rep1 & w1 & Hloop & Hnil & _ & Hcols & _).
  destruct (loop_returns _ _ _ _ _ _ _ _ _ Hloop (df_copy_labels df))
    as (Hp & Hrows & Hlab & Hother & _).
  cbn [fst snd] in *. rewrite Hnil in Hp. cbn [app] in Hp.
  rewrite Hp in Hcols.
  split; [exact Hrows|]. split; [exact Hlab|]. split.
  - intros c Hc. rewrite Hcols in Hc.
    destruct (Hother c Hc) as [Hg _]. rewrite Hg. apply df_get_copy.
  - intros Hwf.
    assert (Hinv : wf_frame (df_dp, rep1).1
                   /\ nrows (df_dp, rep1).1 = nrows df).
    { eapply (for_each_invariant
                (fun acc => wf_frame acc.1 /\ nrows acc.1 = nrows df));
        [|exact Hloop|].
      - intros acc c w2 acc' w3 Hstep [Ha Hr].
        eapply noise_step_wf; eauto.
      - split; [apply wf_frame_copy; exact Hwf | reflexivity]. }
    exact (proj1 Hinv).
Qed.

Lemma add_noise_unknown_mechanism values mechanism eps lower upper (w : world) :
  mechanism <> "laplace"%string -> mechanism <> "gaussian"%string ->
  _add_noise_to_column values mechanism eps lower upper w
  = (Raised (Exception "ValueError" ("Bilinmeyen mechanism: " ++ mechanism)), w).
Proof.
  intros Hl Hg. apply String.eqb_neq in Hl, Hg.
  unfold _add_noise_to_column, bind, get_self. cbn. rewrite Hl, Hg.
  reflexivity.
Qed.

Lemma loop_unknown_mechanism df mechanism b eps l acc (w : world) :
  mechanism <> "laplace"%string -> mechanism <> "gaussian"%string ->
  for_each l (noise_step df mechanism b eps) acc w
  = if existsb (processable df) l
    then (Raised (Exception "ValueError"
                    ("Bilinmeyen mechanism: " ++ mechanism)), w)
    else (Returned acc, w).
Proof.
  intros Hl Hg. induction l as [|c l IH]; cbn [for_each existsb].
  - reflexivity.
  - destruct (processable df c) eqn:Hp; cbn [orb].
    + destruct acc as [df_dp rep].
      destruct (noise_step_process df mechanism b eps df_dp rep c Hp)
        as (dt & values & _ & ->).
      unfold bind at 1 2. rewrite add_noise_unknown_mechanism by assumption.
      reflexivity.
    + rewrite (noise_step_skip _ _ _ _ _ _ Hp). unfold bind, ret. exact IH.
Qed.

(** X3. The name of the mechanism is only looked at when a column is
    processed.  With a name other than ["laplace"] and ["gaussian"], a call
    that has a column to process raises the [ValueError] naming it, with
    nothing drawn and nothing charged; a call that has none returns the
    copy of the frame and charges epsilon all the same. *)
Theorem unknown_mechanism_is_checked_late df mechanism requested bounds
    (w : world) :
  mechanism <> "laplace"%string -> mechanism <> "gaussian"%string ->
  if existsb (processable df) (target_columns df requested)
  then apply_noise_to_dataframe df mechanism requested bounds w
       = (Raised (Exception "ValueError"
                    ("Bilinmeyen mechanism: " ++ mechanism)), w)
  else exists report,
      apply_noise_to_dataframe df mechanism requested bounds w
      = (Returned (df_copy df, report),
         {| self := {| epsilon := epsilon (self w);
                       delta := delta (self w);
                       privacy_budget_spent :=
                         privacy_budget_spent (self w) + epsilon (self w) |};
            rng := rng w |})
      /\ columns_processed report = []
      /\ report_mechanism report = mechanism.
Proof.
  intros Hl Hg.
  rewrite apply_noise_unfold, loop_unknown_mechanism by assumption.
  destruct (existsb (processable df) (target_columns df requested)).
  - reflexivity.
  - eexists. cbn. repeat split; reflexivity.
Qed.

(** X4. A call of the pipeline that raises leaves the instance as it was:
    nothing is charged for the columns noised before the failure. *)
Theorem failed_call_charges_nothing df mechanism requested bounds
    (w w' : world) e :
  apply_noise_to_dataframe df mechanism requested bounds w = (Raised e, w') ->
  self w' = self w.
Proof.
  intros Hrun.
  pose proof (apply_noise_charges df mechanism requested bounds w) as Hc.
  rewrite Hrun in Hc. destruct Hc as (He & Hd & Hs).
  destruct (self w'), (self w). cbn in *. congruence.
Qed.

Lemma noise_step_recorded df mechanism b eps acc column (w w' : world) acc' :
  noise_step df mechanism b eps acc column w = (Returned acc', w') ->
  all_recorded df b eps acc -> all_recorded df b eps acc'.
Proof.
  intros Hstep Hinv. destruct (processable df column) eqn:Hp.
  - destruct acc as [df_dp rep].
    destruct (noise_step_process df mechanism b eps df_dp rep column Hp)
      as (dt & values & Hcol & Heq).
    rewrite Heq in Hstep.
    apply bind_returned in Hstep as (out & w2 & Hnoise & Hret).
    unfold ret in Hret. injection Hret as <- _.
    apply add_noise_returns in Hnoise as (noisy & Hlen & -> & _).
    intros c Hc. cbn [snd report_with_column columns_processed] in Hc.
    destruct (decide (c = column)) as [->|Hne].
    + exists dt, values, noisy.
      cbn [fst snd report_with_column noise_statistics].
      rewrite lookup_insert_eq, df_get_set_eq. repeat split; auto.
    + apply elem_of_app in Hc as [Hc|Hc];
        [|apply list_elem_of_singleton in Hc; contradiction].
      destruct (Hinv c Hc) as (dt' & orig & noisy' & H1 & H2 & H3 & H4).
      exists dt', orig, noisy'.
      cbn [fst snd report_with_column noise_statistics] in *.
      rewrite lookup_insert_ne, df_get_set_ne by congruence.
      repeat split; auto.
  - rewrite (noise_step_skip _ _ _ _ _ _ Hp) in Hstep.
    unfold ret in Hstep. injection Hstep as <- _. exact Hinv.
Qed.

Lemma apply_noise_recorded df mechanism requested bounds (w w' : world)
    df_dp report :
  apply_noise_to_dataframe df mechanism requested bounds w
    = (Returned (df_dp, report), w') ->
  all_recorded df (default ∅ bounds)
    (epsilon_share (epsilon (self w)) (target_columns df requested))
    (df_dp, report).
Proof.
  intros Hrun.
  destruct (apply_noise_returned _ _ _ _ _ _ _ _ Hrun)
    as (rep0 & rep1 & w1 & Hloop & Hnil & _ & Hcols & Hstats & _).
  assert (Hinv : all_recorded df (default ∅ bounds)
                   (epsilon_share (epsilon (self w))
                                  (target_columns df requested))
                   (df_dp, rep1)).
  { eapply for_each_invariant; [|exact Hloop|].
    - intros acc c w2 acc' w3. apply noise_step_recorded.
    - intros c Hc. cbn in Hc. rewrite Hnil in Hc.
      apply elem_of_nil in Hc. contradiction. }
  intros c Hc. cbn [snd] in Hc. rewrite Hcols in Hc.
  destruct (Hinv c Hc) as (dt & orig & noisy & H1 & H2 & H3 & H4).
  exists dt, orig, noisy. cbn [fst snd] in *. rewrite Hstats.
  repeat split; auto.
Qed.

Lemma filter_length_le {A} (p : A -> bool) (l : list A) :
  (length (List.filter p l) <= length l)%nat.
Proof.
  induction l as [|a l IH]; cbn; [lia|]. destruct (p a); cbn; lia.
Qed.

Lemma filter_length_all {A} (p : A -> bool) (l : list A) :
  length (List.filter p l) = length l <-> forallb p l = true.
Proof.
  induction l as [|a l IH]; cbn; [tauto|].
  pose proof (filter_length_le p l) as Hle.
  destruct (p a); cbn.
  - rewrite <- IH. lia.
  - split; [lia | discriminate].
Qed.

(** X5. Epsilon is split over the requested columns, not over the
    processed ones.  Every processed column records the same share,
    [epsilon / len(columns)], whatever number of the requested columns is
    skipped; the processed columns are at most as many as the requested
    ones, and as many only when none is skipped; the report gives the whole
    epsilon as spent in every case. *)
Theorem epsilon_shares_of_a_call df mechanism requested bounds (w w' : world)
    df_dp report :
  apply_noise_to_dataframe df mechanism requested bounds w
    = (Returned (df_dp, report), w') ->
  let targets := target_columns df requested in
  let share := epsilon_share (epsilon (self w)) targets in
  (forall c, c ∈ columns_processed report ->
     exists stats, noise_statistics report !! c = Some stats
                   /\ epsilon_used stats = share)
  /\ report_privacy_budget_spent report = epsilon (self w)
  /\ (length (columns_processed report) <= length targets)%nat
  /\ (length (columns_processed report) = length targets
      <-> forallb (processable df) targets = true).
Proof.
  intros Hrun targets share.
  pose proof (apply_noise_recorded _ _ _ _ _ _ _ _ Hrun) as Hrec.
  destruct (apply_noise_returned _ _ _ _ _ _ _ _ Hrun)
    as (rep0 & rep1 & w1 & Hloop & Hnil & _ & Hcols & _ & Hspent & _).
  destruct (loop_returns _ _ _ _ _ _ _ _ _ Hloop (df_copy_labels df))
    as (Hp & _).
  cbn [fst snd] in Hp. rewrite Hnil in Hp. cbn [app] in Hp.
  rewrite Hp in Hcols. clear Hp Hloop Hnil rep0 rep1 w1.
  fold targets in Hcols, Hrec. fold share in Hrec.
  split; [|split; [exact Hspent|]].
  { intros c Hc.
    destruct (Hrec c Hc) as (dt & orig & noisy & _ & _ & _ & Hs).
    eexists. split; [exact Hs | reflexivity]. }
  rewrite Hcols. split.
  - apply filter_length_le.
  - apply filter_length_all.
Qed.

(** ** What the pipeline reports about a column *)

Lemma float_sum_nan (l : list npfloat) (a : npfloat) :
  a = NaN \/ NaN ∈ l -> fold_left Float.add l a = NaN.
Proof.
  revert a. induction l as [|v l IH]; intros a [Ha|Hin]; cbn [fold_left].
  - exact Ha.
  - apply elem_of_nil in Hin. contradiction.
  - apply IH. left. subst a. reflexivity.
  - apply elem_of_cons in Hin as [<-|Hin].
    + apply IH. left. destruct a; reflexivity.
    + apply IH. right. exact Hin.
Qed.

Lemma array_mean_nan (vs : list npfloat) : NaN ∈ vs -> array_mean vs = NaN.
Proof.
  intros Hin. unfold array_mean, Float.sum.
  rewrite float_sum_nan by (right; exact Hin). reflexivity.
Qed.

Lemma missing_cell_drawn (orig : list (option Q)) (noisy : list npfloat)
    (lo hi : npfloat) :
  Forall2 drawn_for orig noisy -> None ∈ orig -> NaN ∈ np_clip noisy lo hi.
Proof.
  induction 1 as [|cell v orig noisy Hv _ IH]; intros Hin.
  - apply elem_of_nil in Hin. contradiction.
  - cbn [np_clip map]. apply elem_of_cons in Hin as [<-|Hin].
    + cbn in Hv. subst v. rewrite clip_nan. left.
    + right. apply IH. exact Hin.
Qed.

(** X6. The means that the report gives for a processed column.
    [original_mean] is pandas' mean of the column, which skips the missing
    cells; [noisy_mean] is numpy's mean of the released values, which does
    not; [noise_magnitude] is the distance between the two.  So when a cell
    of the column is missing, [noisy_mean] and [noise_magnitude] are [nan],
    and so is [relative_error] unless [original_mean] is zero. *)
Theorem reported_means df mechanism requested bounds (w w' : world)
    df_dp report column dt orig stats :
  apply_noise_to_dataframe df mechanism requested bounds w
    = (Returned (df_dp, report), w') ->
  column ∈ columns_processed report ->
  df_get df column = Some (NumSeries dt orig) ->
  noise_statistics report !! column = Some stats ->
  original_mean stats = series_mean orig
  /\ noise_magnitude stats
     = Float.abs (Float.sub (noisy_mean stats) (original_mean stats))
  /\ (None ∈ orig ->
      noisy_mean stats = NaN
      /\ noise_magnitude stats = NaN
      /\ relative_error stats
         = if Float.neb (original_mean stats) (Finite 0)
           then NaN else Finite 0).
Proof.
  intros Hrun Hin Hcol Hstats.
  destruct (apply_noise_recorded _ _ _ _ _ _ _ _ Hrun column Hin)
    as (dt' & orig' & noisy & Hcol' & Hdrawn & _ & Hstats').
  rewrite Hcol in Hcol'. injection Hcol' as <- <-.
  cbn [fst snd] in Hstats'. rewrite Hstats in Hstats'.
  injection Hstats' as ->.
  cbn [column_report original_mean noisy_mean noise_magnitude relative_error].
  split; [reflexivity|]. split; [reflexivity|].
  intros Hnone.
  rewrite (array_mean_nan _ (missing_cell_drawn _ _ _ _ Hdrawn Hnone)).
  split; [reflexivity|]. split; [reflexivity|].
  destruct (Float.neb (series_mean orig) (Finite 0)); reflexivity.
Qed.

Lemma fold_Qmin_constant (v0 : Q) (l : list Q) (a : Q) :
  a == v0 -> Forall (fun v => v == v0) l -> fold_left Qmin l a == v0.
Proof.
  intros Ha Hall. revert a Ha.
  induction Hall as [|y l Hy _ IH]; intros a Ha; cbn; [exact Ha|].
  apply IH. destruct (Q.min_spec a y) as [[_ ->]|[_ ->]]; assumption.
Qed.

Lemma fold_Qmax_constant (v0 : Q) (l : list Q) (a : Q) :
  a == v0 -> Forall (fun v => v == v0) l -> fold_left Qmax l a == v0.
Proof.
  intros Ha Hall. revert a Ha.
  induction Hall as [|y l Hy _ IH]; intros a Ha; cbn; [exact Ha|].
  apply IH. destruct (Q.max_spec a y) as [[_ ->]|[_ ->]]; assumption.
Qed.

Lemma collapsed_numbers (v0 : Q) (vs : list Q) (values : list npfloat) :
  Forall2 (collapsed_to v0) (map Some vs) values ->
  length values = length vs
  /\ Forall (fun v => exists y, v = Finite y /\ y == v0) values.
Proof.
  revert values. induction vs as [|q vs IH]; intros values Hall;
    inversion Hall as [|? v ? values' Hv Hrest]; subst.
  - split; [reflexivity | constructor].
  - destruct (IH _ Hrest) as [Hlen Hvals]. split.
    + cbn. rewrite Hlen. reflexivity.
    + constructor; [exact Hv | exact Hvals].
Qed.

(** X7. A constant column (no cell missing) whose bounds are taken from the
    data is released as it is: the sensitivity is zero, and when the call
    returns every value of the processed column equals the constant. *)
Theorem constant_column_is_released df mechanism requested bounds
    (w w' : world) df_dp report column dt v0 rest :
  apply_noise_to_dataframe df mechanism requested bounds w
    = (Returned (df_dp, report), w') ->
  column ∈ columns_processed report ->
  default ∅ bounds !! column = None ->
  df_get df column = Some (NumSeries dt (map Some (v0 :: rest))) ->
  Forall (fun v => v == v0) rest ->
  exists values,
    df_get df_dp column = Some (NumSeries float64 values)
    /\ length values = S (length rest)
    /\ Forall (fun v => exists y, v = Finite y /\ y == v0) values.
Proof.
  intros Hrun Hin Hnone Hcol Hconst.
  destruct (apply_noise_recorded _ _ _ _ _ _ _ _ Hrun column Hin)
    as (dt' & orig' & noisy & Hcol' & Hdrawn & Hdp & _).
  rewrite Hcol in Hcol'. injection Hcol' as <- <-.
  cbn [fst] in Hdp. unfold resolve_bounds in Hdp. rewrite Hnone in Hdp.
  pose proof (present_map_Some (v0 :: rest)) as Hpres.
  unfold series_min, series_max in Hdp. cbn [map] in Hpres, Hdp.
  rewrite Hpres in Hdp. cbn [fst snd] in Hdp.
  eexists. split; [exact Hdp|].
  pose proof (fold_Qmin_constant v0 rest v0 (Qeq_refl v0) Hconst) as Hmin.
  pose proof (fold_Qmax_constant v0 rest v0 (Qeq_refl v0) Hconst) as Hmax.
  assert (Hle : fold_left Qmax rest v0 <= fold_left Qmin rest v0) by lra.
  pose proof (collapsed_cells _ _ _ _ Hle Hdrawn) as Hall.
  apply (collapsed_numbers _ (v0 :: rest)) in Hall as [Hlen Hvals].
  split; [exact Hlen|].
  eapply Forall_impl; [exact Hvals|]. cbn beta.
  intros v (y & -> & Hy). exists y. split; [reflexivity | lra].
Qed.

End Loop.

(** ** The k-anonymity report *)

Lemma take_columns_returned {A} (df : DataFrame A) (by_ : list string) ss :
  take_columns df by_ = Returned ss ->
  Forall (fun s => exists c, (c, s) ∈ columns df) ss.
Proof.
  revert ss. induction by_ as [|c by_ IH]; intros ss; cbn [take_columns].
  - intros [= <-]. constructor.
  - destruct (df_get df c) as [s|] eqn:Hc; [|discriminate].
    destruct (take_columns df by_) as [ss'|e]; [|discriminate].
    intros [= <-]. constructor; [|apply IH; reflexivity].
    exists c. apply assoc_get_Some. exact Hc.
Qed.

(** A returning check, taken apart. *)
Lemma k_anonymity_check_returned (df : DataFrame (option Q)) (qi : list string) (k : Z)
    report :
  k_anonymity_check df qi k = Returned report ->
  exists ss,
    qi <> [] /\ take_columns df qi = Returned ss
    /\ k_anonymity_check df qi k = Returned report
    /\ total_records report = Z.of_nat (nrows df)
    /\ vulnerable_records report
       = Zsum (List.filter (fun g => (g <? k)%Z)
                           (class_sizes (row_keys df ss)))
    /\ vulnerable_percentage report
       = Float.mul (Float.div (of_int (vulnerable_records report))
                              (of_int (total_records report)))
                   (Finite 100)
    /\ is_k_anonymous report
       = (length (List.filter (fun g => (g <? k)%Z)
                              (class_sizes (row_keys df ss))) =? 0)%nat
    /\ smallest_group_size report
       = (if (0 <? length (class_sizes (row_keys df ss)))%nat
          then Zmin_list (class_sizes (row_keys df ss)) else 0%Z)
    /\ recommendation report
       = _get_k_anonymity_recommendation (vulnerable_percentage report).
Proof.
  intros Hrun. pose proof Hrun as Hrun'.
  unfold k_anonymity_check, groupby_size in Hrun.
  destruct qi as [|c qi]; [discriminate|].
  destruct (take_columns df (c :: qi)) as [ss|e] eqn:Hcols; [|discriminate].
  injection Hrun as <-. exists ss. cbn. repeat split; auto.
Qed.

Lemma class_sizes_positive (keys : list (list cell)) :
  Forall (fun g => (1 <= g)%Z) (class_sizes keys).
Proof.
  unfold class_sizes. apply Forall_map, Forall_forall. intros key Hin.
  rewrite elem_of_remove_dups, count_key_pos in Hin.
  unfold compose. lia.
Qed.

Lemma filter_all {A} (p : A -> bool) (l : list A) :
  (forall a, In a l -> p a = true) -> List.filter p l = l.
Proof.
  induction l as [|a l IH]; intros Hp; cbn; [reflexivity|].
  rewrite (Hp a) by (left; reflexivity). f_equal.
  apply IH. intros b Hb. apply Hp. right. exact Hb.
Qed.

Lemma count_key_le (keys : list (list cell)) (key : list cell) :
  (count_key keys key <= length keys)%nat.
Proof. apply count_occ_bound. Qed.

(** The classes partition the records. *)
Lemma class_sizes_total (keys : list (list cell)) :
  Zsum (class_sizes keys) = Z.of_nat (length keys).
Proof.
  pose proof (small_classes_sum (Z.of_nat (length keys) + 1) keys) as Hsum.
  unfold vulnerable_rows in Hsum. rewrite !filter_all in Hsum.
  - exact Hsum.
  - intros key _. apply Z.ltb_lt. pose proof (count_key_le keys key). lia.
  - intros g Hg. apply Z.ltb_lt. unfold class_sizes in Hg.
    apply in_map_iff in Hg as (key & <- & _).
    pose proof (count_key_le keys key). lia.
Qed.

Lemma Zsum_filter_le (p q : Z -> bool) (l : list Z) :
  Forall (fun g => (0 <= g)%Z) l ->
  (forall g, p g = true -> q g = true) ->
  (0 <= Zsum (List.filter p l) <= Zsum (List.filter q l))%Z.
Proof.
  intros Hpos Himp. induction Hpos as [|g l Hg _ IH]; cbn [List.filter].
  - unfold Zsum. cbn. lia.
  - destruct (p g) eqn:Hp.
    + rewrite (Himp g Hp), !Zsum_cons. lia.
    + destruct (q g); rewrite ?Zsum_cons; lia.
Qed.

Lemma Zsum_nonneg (l : list Z) :
  Forall (fun g => (0 <= g)%Z) l -> (0 <= Zsum l)%Z.
Proof.
  induction 1 as [|g l Hg _ IH]; [unfold Zsum; cbn; lia|].
  rewrite Zsum_cons. lia.
Qed.

Lemma Zsum_member_le (l : list Z) (g : Z) :
  Forall (fun g => (0 <= g)%Z) l -> In g l -> (g <= Zsum l)%Z.
Proof.
  induction 1 as [|x l Hx Hl IH]; intros Hg; [destruct Hg|].
  rewrite Zsum_cons. pose proof (Zsum_nonneg l Hl).
  destruct Hg as [<-|Hg]; [lia|]. specialize (IH Hg). lia.
Qed.

Lemma fold_Zmin_spec (l : list Z) (a : Z) :
  In (fold_left Z.min l a) (a :: l)
  /\ forall g, In g (a :: l) -> (fold_left Z.min l a <= g)%Z.
Proof.
  revert a. induction l as [|x l IH]; intros a; cbn [fold_left].
  - split; [left; reflexivity|]. intros g [<-|[]]. lia.
  - destruct (IH (Z.min a x)) as [Hin Hle]. split.
    + destruct Hin as [Hin|Hin]; [|right; right; exact Hin].
      rewrite <- Hin. destruct (Z.min_spec a x) as [[_ ->]|[_ ->]];
        [left | right; left]; reflexivity.
    + intros g [<-|[<-|Hg]].
      * specialize (Hle (Z.min a x) (or_introl eq_refl)). lia.
      * specialize (Hle (Z.min a x) (or_introl eq_refl)). lia.
      * apply Hle. right. exact Hg.
Qed.

Lemma all_at_least_min (k : Z) (l : list Z) :
  l <> [] ->
  (List.filter (fun g => (g <? k)%Z) l = [] <-> (k <= Zmin_list l)%Z).
Proof.
  intros Hne. destruct l as [|a l]; [contradiction|].
  destruct (fold_Zmin_spec l a) as [Hin Hle]. cbn [Zmin_list]. split.
  - intros Hnil.
    destruct (fold_left Z.min l a <? k)%Z eqn:E; [|apply Z.ltb_ge; exact E].
    assert (Hf : In (fold_left Z.min l a)
                    (List.filter (fun g => (g <? k)%Z) (a :: l)))
      by (apply filter_In; split; assumption).
    rewrite Hnil in Hf. destruct Hf.
  - intros Hk. apply filter_none. intros g Hg. apply Z.ltb_ge.
    specialize (Hle g Hg). lia.
Qed.

Lemma complete_key_Some (row : list (option cell)) :
  is_Some (complete_key row) <-> Forall is_Some row.
Proof.
  induction row as [|c row IH]; cbn.
  - split; [constructor | eexists; reflexivity].
  - rewrite Forall_cons. destruct c as [c|]; cbn.
    + rewrite <- IH. destruct (complete_key row); cbn; split.
      * intros _. split; eexists; reflexivity.
      * intros _. eexists; reflexivity.
      * intros [x Hx]. discriminate Hx.
      * intros [_ [x Hx]]. discriminate Hx.
    + split.
      * intros [x Hx]. discriminate Hx.
      * intros [[x Hx] _]. discriminate Hx.
Qed.

Lemma complete_key_None (row : list (option cell)) :
  complete_key row = None <-> None ∈ row.
Proof.
  induction row as [|c row IH]; cbn.
  - split; [discriminate | intros H; apply elem_of_nil in H; contradiction].
  - rewrite elem_of_cons. destruct c as [c|]; cbn.
    + rewrite <- IH. destruct (complete_key row); cbn; split.
      * discriminate.
      * intros [H|H]; discriminate H.
      * intros _. right. reflexivity.
      * reflexivity.
    + split; [intros _; left; reflexivity | reflexivity].
Qed.

(** [groupby] forms a class exactly when some row has no missing key
    cell. *)
Lemma row_keys_some (df : DataFrame (option Q))
    (ss : list (Series (option Q))) :
  Exists (fun row => Forall is_Some row) (row_cells df ss) ->
  row_keys df ss <> [].
Proof.
  unfold row_keys. induction 1 as [row rows Hrow|row rows _ IH]; cbn.
  - apply complete_key_Some in Hrow as [key ->]. discriminate.
  - destruct (complete_key row); [discriminate | exact IH].
Qed.

Lemma row_keys_none (df : DataFrame (option Q))
    (ss : list (Series (option Q))) :
  Forall (fun row => None ∈ row) (row_cells df ss) ->
  row_keys df ss = [].
Proof.
  unfold row_keys. induction 1 as [|row rows Hrow _ IH]; cbn.
  - reflexivity.
  - apply complete_key_None in Hrow. rewrite Hrow. exact IH.
Qed.

Lemma vulnerable_records_bounds (df : DataFrame (option Q)) (qi : list string)
    (k : Z) report :
  wf_frame df ->
  k_anonymity_check df qi k = Returned report ->
  (0 <= vulnerable_records report <= total_records report)%Z.
Proof.
  intros Hwf Hrun.
  destruct (k_anonymity_check_returned df qi k report Hrun)
    as (ss & _ & Hcols & _ & Ht & Hv & _).
  pose proof (row_keys_length df ss Hwf (take_columns_returned _ _ _ Hcols))
    as Hlen.
  pose proof (class_sizes_positive (row_keys df ss)) as Hpos.
  pose proof (class_sizes_total (row_keys df ss)) as Htot.
  assert (Hnonneg : Forall (fun g => (0 <= g)%Z)
                           (class_sizes (row_keys df ss))).
  { eapply Forall_impl; [exact Hpos|]. cbn. intros; lia. }
  pose proof (Zsum_filter_le (fun g => (g <? k)%Z) (fun _ => true)
                (class_sizes (row_keys df ss)) Hnonneg (fun _ _ => eq_refl))
    as Hle.
  rewrite (filter_all (fun _ => true)) in Hle by reflexivity.
  rewrite Hv, Ht. lia.
Qed.

(** X8. With [k <= 1] every check that returns reports no vulnerable
    record and [is_k_anonymous]: a class has at least one record. *)
Theorem one_anonymity_always_holds (df : DataFrame (option Q)) (qi : list string)
    (k : Z) report :
  (k <= 1)%Z ->
  k_anonymity_check df qi k = Returned report ->
  vulnerable_records report = 0%Z /\ is_k_anonymous report = true.
Proof.
  intros Hk Hrun.
  destruct (k_anonymity_check_returned df qi k report Hrun)
    as (ss & _ & _ & _ & _ & Hv & _ & Ha & _).
  assert (Hnil : List.filter (fun g => (g <? k)%Z)
                             (class_sizes (row_keys df ss)) = []).
  { apply filter_none. intros g Hg. apply Z.ltb_ge.
    pose proof (class_sizes_positive (row_keys df ss)) as Hpos.
    rewrite Forall_forall in Hpos. specialize (Hpos g).
    rewrite list_elem_of_In in Hpos. specialize (Hpos Hg). lia. }
  rewrite Hv, Ha, Hnil. split; reflexivity.
Qed.

(** X9. The numbers of the report of a well-formed frame.  The vulnerable
    records are between none and all of the records, and on a frame with
    rows the percentage is a number between 0 and 100.  The classes are
    formed among the records that have a value in every quasi-identifier
    column: when there is such a record, the smallest class has between
    one and all of the records; when there is none, no class is formed,
    and the report gives 0 as the smallest class and no vulnerable
    record. *)
Theorem k_anonymity_report_bounds (df : DataFrame (option Q)) (qi : list string)
    (k : Z) report :
  wf_frame df ->
  k_anonymity_check df qi k = Returned report ->
  exists ss,
    take_columns df qi = Returned ss
    /\ (0 <= vulnerable_records report <= total_records report)%Z
    /\ ((0 < nrows df)%nat ->
        exists p, vulnerable_percentage report = Finite p /\ 0 <= p <= 100)
    /\ (Exists (fun row => Forall is_Some row) (row_cells df ss) ->
        (1 <= smallest_group_size report <= total_records report)%Z)
    /\ (Forall (fun row => None ∈ row) (row_cells df ss) ->
        smallest_group_size report = 0%Z
        /\ vulnerable_records report = 0%Z).
Proof.
  intros Hwf Hrun.
  destruct (k_anonymity_check_returned df qi k report Hrun)
    as (ss & _ & Hcols & _ & Ht & Hv & Hp & _ & Hs & _).
  exists ss. split; [exact Hcols|].
  pose proof (row_keys_length df ss Hwf (take_columns_returned _ _ _ Hcols))
    as Hlen.
  pose proof (row_keys_some df ss) as Hsome.
  pose proof (row_keys_none df ss) as Hnone.
  set (keys := row_keys df ss) in *.
  pose proof (class_sizes_positive keys) as Hpos.
  pose proof (class_sizes_total keys) as Htot.
  assert (Hnonneg : Forall (fun g => (0 <= g)%Z) (class_sizes keys)).
  { eapply Forall_impl; [exact Hpos|]. cbn. intros; lia. }
  pose proof (vulnerable_records_bounds df qi k report Hwf Hrun) as Hvb.
  split; [exact Hvb|]. split; [|split].
  - intros Hrows. rewrite Hp, Ht. unfold of_int. cbn [Float.div].
    rewrite (inject_Z_nonzero _ Hrows). cbn [Float.mul].
    eexists. split; [reflexivity|].
    assert (Hn : 0 < inject_Z (Z.of_nat (nrows df))).
    { rewrite <- (Zlt_Qlt 0). lia. }
    assert (Hv0 : 0 <= inject_Z (vulnerable_records report)).
    { rewrite <- (Zle_Qle 0). lia. }
    assert (Hvn : inject_Z (vulnerable_records report)
                  <= inject_Z (Z.of_nat (nrows df))).
    { rewrite <- Zle_Qle. rewrite <- Ht. lia. }
    assert (Hr : 0 <= inject_Z (vulnerable_records report)
                      / inject_Z (Z.of_nat (nrows df)) <= 1).
    { split; [apply Qle_shift_div_l | apply Qle_shift_div_r]; lra. }
    lra.
  - intros Hex. apply Hsome in Hex.
    assert (Hne : class_sizes keys <> []).
    { intros Hnil. rewrite Hnil in Htot. unfold Zsum in Htot. cbn in Htot.
      destruct keys; [contradiction | discriminate Htot]. }
    rewrite Hs, Ht. destruct (class_sizes keys) as [|a l] eqn:E;
      [contradiction|]. cbn [length Nat.ltb Nat.leb Zmin_list].
    destruct (fold_Zmin_spec l a) as [Hin Hle].
    rewrite Forall_forall in Hpos.
    pose proof (Hpos _ (proj2 (list_elem_of_In _ _) Hin)) as H1.
    pose proof (Zsum_member_le _ _ Hnonneg Hin). lia.
  - intros Hall. apply Hnone in Hall. rewrite Hs, Hv, Hall.
    split; reflexivity.
Qed.

(** X10. When some record has a value in every quasi-identifier column,
    [is_k_anonymous] says exactly that the smallest class has at least [k]
    records.  When none has, as on a frame without rows, it is true for
    every [k], although [smallest_group_size] is 0. *)
Theorem k_anonymous_iff_smallest_class (df : DataFrame (option Q)) (qi : list string)
    (k : Z) report :
  k_anonymity_check df qi k = Returned report ->
  exists ss,
    take_columns df qi = Returned ss
    /\ (Exists (fun row => Forall is_Some row) (row_cells df ss) ->
        (is_k_anonymous report = true
         <-> (k <= smallest_group_size report)%Z))
    /\ (Forall (fun row => None ∈ row) (row_cells df ss) ->
        is_k_anonymous report = true /\ smallest_group_size report = 0%Z)
    /\ (nrows df = 0%nat ->
        is_k_anonymous report = true /\ smallest_group_size report = 0%Z).
Proof.
  intros Hrun.
  destruct (k_anonymity_check_returned df qi k report Hrun)
    as (ss & _ & Hcols & _ & _ & _ & _ & Ha & Hs & _).
  exists ss. split; [exact Hcols|]. split; [|split].
  - intros Hex. apply row_keys_some in Hex.
    pose proof (class_sizes_total (row_keys df ss)) as Htot.
    assert (Hne : class_sizes (row_keys df ss) <> []).
    { intros Hnil. rewrite Hnil in Htot. unfold Zsum in Htot. cbn in Htot.
      destruct (row_keys df ss); [contradiction | discriminate Htot]. }
    rewrite Ha, Hs, Nat.eqb_eq, length_zero_iff_nil.
    rewrite (all_at_least_min k _ Hne).
    destruct (class_sizes (row_keys df ss)); [contradiction | reflexivity].
  - intros Hall. apply row_keys_none in Hall. rewrite Ha, Hs, Hall.
    split; reflexivity.
  - intros Hrows. rewrite Ha, Hs, (row_keys_no_rows df ss Hrows).
    split; reflexivity.
Qed.

(** X11. Raising [k] can only add vulnerable records and can only lose
    k-anonymity: for [k <= k'], the check for [k] reports at most the
    vulnerable records of the check for [k'], and is k-anonymous when the
    check for [k'] is. *)
Theorem k_anonymity_is_monotone (df : DataFrame (option Q)) (qi : list string)
    (k k' : Z) report report' :
  (k <= k')%Z ->
  k_anonymity_check df qi k = Returned report ->
  k_anonymity_check df qi k' = Returned report' ->
  (vulnerable_records report <= vulnerable_records report')%Z
  /\ (is_k_anonymous report' = true -> is_k_anonymous report = true).
Proof.
  intros Hk Hrun Hrun'.
  destruct (k_anonymity_check_returned df qi k report Hrun)
    as (ss & _ & Hcols & _ & _ & Hv & _ & Ha & _).
  destruct (k_anonymity_check_returned df qi k' report' Hrun')
    as (ss' & _ & Hcols' & _ & _ & Hv' & _ & Ha' & _).
  rewrite Hcols in Hcols'. injection Hcols' as <-.
  pose proof (class_sizes_positive (row_keys df ss)) as Hpos.
  assert (Hnonneg : Forall (fun g => (0 <= g)%Z) (class_sizes (row_keys df ss))).
  { eapply Forall_impl; [exact Hpos|]. cbn. intros; lia. }
  split.
  - rewrite Hv, Hv'. apply Zsum_filter_le; [exact Hnonneg|].
    intros g Hg. apply Z.ltb_lt in Hg. apply Z.ltb_lt. lia.
  - rewrite Ha, Ha', !Nat.eqb_eq, !length_zero_iff_nil.
    intros Hnil. apply filter_none. intros g Hg.
    destruct (g <? k)%Z eqn:E; [|reflexivity].
    assert (Hf : In g (List.filter (fun g => (g <? k')%Z)
                                   (class_sizes (row_keys df ss)))).
    { apply filter_In. split; [exact Hg|].
      apply Z.ltb_lt in E. apply Z.ltb_lt. lia. }
    rewrite Hnil in Hf. destruct Hf.
Qed.

Lemma percentage_compare (v n c : Z) :
  (0 < n)%Z ->
  (inject_Z v / inject_Z n * 100 < inject_Z c <-> (100 * v < c * n)%Z)
  /\ (inject_Z v / inject_Z n * 100 == 0 <-> v = 0%Z).
Proof.
  intros Hn.
  assert (HN : 0 < inject_Z n) by (rewrite <- (Zlt_Qlt 0); exact Hn).
  assert (HN0 : ~ inject_Z n == 0) by (intros E; lra).
  assert (Heq : inject_Z v / inject_Z n * 100 * inject_Z n == 100 * inject_Z v)
    by (field; exact HN0).
  split.
  - rewrite Zlt_Qlt, !inject_Z_mult. change (inject_Z 100) with 100. split.
    + intros Hlt. nra.
    + intros Hlt. apply Qnot_le_lt. intros Hle. nra.
  - split.
    + intros Hz. rewrite Hz in Heq. apply inject_Z_injective.
      change (inject_Z 0) with 0. lra.
    + intros ->. change (inject_Z 0) with 0. field. exact HN0.
Qed.

Lemma recommendation_unfold (p : Q) :
  _get_k_anonymity_recommendation (Finite p)
  = if Qeq_bool p 0 then _get_k_anonymity_recommendation (Finite 0)
    else if Qltb p 5 then _get_k_anonymity_recommendation (Finite 1)
    else if Qltb p 20 then _get_k_anonymity_recommendation (Finite 10)
    else _get_k_anonymity_recommendation (Finite 50).
Proof.
  unfold _get_k_anonymity_recommendation at 1. cbn [Float.eqb Float.ltb].
  destruct (Qeq_bool p 0); [reflexivity|].
  destruct (Qltb p 5); [reflexivity|].
  destruct (Qltb p 20); reflexivity.
Qed.

(** The four recommendations are four different texts. *)
Lemma recommendations_differ :
  let r := fun q => _get_k_anonymity_recommendation (Finite q) in
  r 0 <> r 1 /\ r 0 <> r 10 /\ r 0 <> r 50
  /\ r 1 <> r 10 /\ r 1 <> r 50 /\ r 10 <> r 50.
Proof. vm_compute. repeat split; discriminate. Qed.

Lemma recommendation_cases (p : Q) :
  let r := fun q => _get_k_anonymity_recommendation (Finite q) in
  (r p = r 0 <-> p == 0)
  /\ (r p = r 1 <-> ~ p == 0 /\ p < 5)
  /\ (r p = r 10 <-> ~ p == 0 /\ 5 <= p /\ p < 20)
  /\ (r p = r 50 <-> ~ p == 0 /\ 20 <= p).
Proof.
  intros r. destruct recommendations_differ as (D1 & D2 & D3 & D4 & D5 & D6).
  subst r. cbn beta in *. rewrite (recommendation_unfold p).
  destruct (Qeq_bool p 0) eqn:E0;
    [apply Qeq_bool_iff in E0 | apply Qeq_bool_false in E0].
  { repeat split; intros; try tauto; try congruence. }
  destruct (Qltb p 5) eqn:E5; [apply Qltb_lt in E5 | apply Qltb_ge in E5].
  { repeat split; intros; try tauto; try congruence; try lra.
    all: try (exfalso; intuition (congruence || lra)). }
  destruct (Qltb p 20) eqn:E20; [apply Qltb_lt in E20 | apply Qltb_ge in E20].
  { repeat split; intros; try tauto; try congruence; try lra.
    all: try (exfalso; intuition (congruence || lra)). }
  repeat split; intros; try tauto; try congruence; try lra.
  all: try (exfalso; intuition (congruence || lra)).
Qed.

(** X12. The recommendation of a check on a well-formed frame with rows,
    in whole records: it is the one of 0% exactly when the report is
    k-anonymous, the low-risk one when fewer than one record in twenty is
    vulnerable, the medium-risk one below one in five, the high-risk one
    from one in five on.  On a frame without rows the report is
    k-anonymous and the recommendation is the high-risk one. *)
Theorem k_anonymity_recommendation_thresholds (df : DataFrame (option Q))
    (qi : list string) (k : Z) report :
  k_anonymity_check df qi k = Returned report ->
  let v := vulnerable_records report in
  let n := total_records report in
  let safe := _get_k_anonymity_recommendation (Finite 0) in
  let low := _get_k_anonymity_recommendation (Finite 1) in
  let medium := _get_k_anonymity_recommendation (Finite 10) in
  let high := _get_k_anonymity_recommendation (Finite 50) in
  (wf_frame df -> (0 < nrows df)%nat ->
   (recommendation report = safe <-> is_k_anonymous report = true)
   /\ (recommendation report = safe <-> v = 0%Z)
   /\ (recommendation report = low <-> (0 < v /\ 20 * v < n)%Z)
   /\ (recommendation report = medium <-> (n <= 20 * v /\ 5 * v < n)%Z)
   /\ (recommendation report = high <-> (n <= 5 * v)%Z))
  /\ (nrows df = 0%nat ->
      is_k_anonymous report = true /\ recommendation report = high).
Proof.
  intros Hrun v n safe low medium high.
  destruct (k_anonymity_check_returned df qi k report Hrun)
    as (ss & _ & Hcols & _ & Ht & Hv & Hp & Ha & _ & Hr).
  split.
  - intros Hwf Hrows.
    destruct (vulnerable_records_bounds df qi k report Hwf Hrun)
      as [Hv0 Hvn].
    fold v n in Hv0, Hvn.
    assert (Hn : (0 < n)%Z) by (subst n; rewrite Ht; lia).
    destruct (percentage_compare v n 5 Hn) as [H5 H0].
    destruct (percentage_compare v n 20 Hn) as [H20 _].
    change (inject_Z 5) with 5 in H5. change (inject_Z 20) with 20 in H20.
    assert (Hpct : vulnerable_percentage report
                   = Finite (inject_Z v / inject_Z n * 100)).
    { rewrite Hp. fold v n. unfold of_int. cbn [Float.div].
      replace (Qeq_bool (inject_Z n) 0) with false; [reflexivity|].
      symmetry. apply Qeq_bool_false. intros E.
      assert (0 < inject_Z n) by (rewrite <- (Zlt_Qlt 0); exact Hn). lra. }
    assert (Hanon : is_k_anonymous report = true <-> v = 0%Z).
    { rewrite Ha, Nat.eqb_eq, length_zero_iff_nil. subst v. rewrite Hv.
      pose proof (class_sizes_positive (row_keys df ss)) as Hpos.
      rewrite Forall_forall in Hpos.
      split; [intros ->; reflexivity|].
      intros Hz. apply filter_none. intros g Hg.
      destruct (g <? k)%Z eqn:E; [|reflexivity]. exfalso.
      assert (Hnonneg : Forall (fun g => (0 <= g)%Z)
                               (List.filter (fun g => (g <? k)%Z)
                                  (class_sizes (row_keys df ss)))).
      { apply Forall_forall. intros x Hx.
        apply list_elem_of_In, filter_In in Hx as [Hx _].
        specialize (Hpos x (proj2 (list_elem_of_In _ _) Hx)). lia. }
      assert (Hf : In g (List.filter (fun g => (g <? k)%Z)
                                     (class_sizes (row_keys df ss))))
        by (apply filter_In; split; assumption).
      pose proof (Zsum_member_le _ _ Hnonneg Hf) as Hle.
      specialize (Hpos g (proj2 (list_elem_of_In _ _) Hg)). lia. }
    destruct (recommendation_cases (inject_Z v / inject_Z n * 100))
      as (Rs & Rl & Rm & Rh).
    cbn beta in Rs, Rl, Rm, Rh.
    assert (H5' : 5 <= inject_Z v / inject_Z n * 100 <-> (5 * n <= 100 * v)%Z).
    { split.
      - intros Hle. apply Z.le_ngt. intros Hlt. apply H5 in Hlt. lra.
      - intros Hle. apply Qnot_lt_le. intros Hlt. apply H5 in Hlt. lia. }
    assert (H20' : 20 <= inject_Z v / inject_Z n * 100
                   <-> (20 * n <= 100 * v)%Z).
    { split.
      - intros Hle. apply Z.le_ngt. intros Hlt. apply H20 in Hlt. lra.
      - intros Hle. apply Qnot_lt_le. intros Hlt. apply H20 in Hlt. lia. }
    subst safe low medium high. rewrite Hr, Hpct, Hanon, Rs, Rl, Rm, Rh.
    rewrite H0, H5, H20, H5', H20'.
    repeat split; intros; try lia.
  - intros Hrows. rewrite Ha, Hr, Hp, Ht, Hv, (row_keys_no_rows df ss Hrows).
    rewrite Hrows. split; reflexivity.
Qed.

(** ** The account after a reset, and the budget report *)

Lemma budget_recommendation_unfold (spent : Q) :
  _get_privacy_budget_recommendation spent
  = if Qltb spent 1.0 then _get_privacy_budget_recommendation 0
    else if Qltb spent 5.0 then _get_privacy_budget_recommendation 1
    else if Qltb spent 10.0 then _get_privacy_budget_recommendation 5
    else _get_privacy_budget_recommendation 10.
Proof.
  unfold _get_privacy_budget_recommendation at 1.
  destruct (Qltb spent 1.0); [reflexivity|].
  destruct (Qltb spent 5.0); [reflexivity|].
  destruct (Qltb spent 10.0); reflexivity.
Qed.

Lemma budget_recommendations_differ :
  let r := _get_privacy_budget_recommendation in
  r 0 <> r 1 /\ r 0 <> r 5 /\ r 0 <> r 10
  /\ r 1 <> r 5 /\ r 1 <> r 10 /\ r 5 <> r 10.
Proof. vm_compute. repeat split; discriminate. Qed.

Section Ledger.
Context {lib : Diffprivlib} {np : Numpy}.

(** X13. [reset_privacy_budget] starts a new account: whatever was spent
    before, it leaves zero as spent and keeps epsilon, delta and the
    random state.  A noise-application call that returns right after it
    leaves exactly epsilon as spent, and the composition query asked for
    one query then reports a spent budget equal to its
    [sequential_composition]. *)
Theorem reset_starts_a_new_account (call : noise_call) (w0 w : world) out :
  let start := (reset_privacy_budget w0).2 in
  run_call call start = (Returned out, w) ->
  ~ delta (self w0) == 0 ->
  (reset_privacy_budget w0).1 = Returned tt
  /\ privacy_budget_spent (self start) == 0
  /\ epsilon (self start) = epsilon (self w0)
  /\ delta (self start) = delta (self w0)
  /\ rng start = rng w0
  /\ privacy_budget_spent (self w) == epsilon (self w0)
  /\ exists rep,
       calculate_privacy_loss 1 w = (Returned rep, w)
       /\ loss_privacy_budget_spent rep == sequential_composition rep.
Proof.
  intros start Hrun Hd. unfold run_call in Hrun.
  pose proof (apply_noise_charges (call_df call) (call_mechanism call)
                (call_columns call) (call_bounds call) start) as Hc.
  rewrite Hrun in Hc. destruct Hc as (He & Hdl & Hs).
  subst start. cbn in He, Hdl, Hs.
  split; [reflexivity|]. split; [vm_compute; reflexivity|].
  repeat (split; [reflexivity|]).
  split; [rewrite Hs; lra|].
  eexists. split; [apply calculate_privacy_loss_returns; rewrite Hdl; exact Hd|].
  cbn [loss_privacy_budget_spent sequential_composition].
  rewrite Hs, He. change (inject_Z 1) with 1. lra.
Qed.

(** X14. What the composition query says about the account, in terms of
    what was spent: the advice is the first of the four below 1, the
    second from 1 and below 5, the third from 5 and below 10, the last
    from 10 on; the remaining budget is zero exactly when the advice is
    the last one, and is [10 - spent] before that. *)
Theorem budget_report_thresholds (w w' : world) (n : Z) rep :
  calculate_privacy_loss n w = (Returned rep, w') ->
  let spent := privacy_budget_spent (self w) in
  let advice := _get_privacy_budget_recommendation in
  (loss_recommendation rep = advice 0 <-> spent < 1)
  /\ (loss_recommendation rep = advice 1 <-> 1 <= spent /\ spent < 5)
  /\ (loss_recommendation rep = advice 5 <-> 5 <= spent /\ spent < 10)
  /\ (loss_recommendation rep = advice 10 <-> 10 <= spent)
  /\ (privacy_remaining rep == 0 <-> loss_recommendation rep = advice 10)
  /\ (spent <= 10 -> privacy_remaining rep == 10 - spent).
Proof.
  intros Hrun spent advice.
  destruct budget_recommendations_differ as (D1 & D2 & D3 & D4 & D5 & D6).
  cbn zeta in D1, D2, D3, D4, D5, D6.
  assert (Hrep : loss_recommendation rep = advice spent
                 /\ privacy_remaining rep = py_max 0 (10.0 - spent)).
  { unfold calculate_privacy_loss, bind, get_self, lift, py_div, ret in Hrun.
    destruct (Qeq_bool (delta (self w)) 0); [discriminate Hrun|].
    injection Hrun as <- _. split; reflexivity. }
  destruct Hrep as [-> ->]. subst advice.
  rewrite (budget_recommendation_unfold spent), py_max_Qmax.
  destruct (Qltb spent 1.0) eqn:E1;
    [apply Qltb_lt in E1 | apply Qltb_ge in E1].
  { rewrite Q.max_r by lra.
    repeat split; intros; try tauto; try congruence; try lra.
    all: try (exfalso; intuition (congruence || lra)). }
  destruct (Qltb spent 5.0) eqn:E5;
    [apply Qltb_lt in E5 | apply Qltb_ge in E5].
  { rewrite Q.max_r by lra.
    repeat split; intros; try tauto; try congruence; try lra.
    all: try (exfalso; intuition (congruence || lra)). }
  destruct (Qltb spent 10.0) eqn:E10;
    [apply Qltb_lt in E10 | apply Qltb_ge in E10].
  { rewrite Q.max_r by lra.
    repeat split; intros; try tauto; try congruence; try lra.
    all: try (exfalso; intuition (congruence || lra)). }
  rewrite Q.max_l by lra.
  repeat split; intros; try tauto; try congruence; try lra.
  all: try (exfalso; intuition (congruence || lra)).
Qed.

End Ledger.

(** ** The epsilon advisor *)

Lemma not_use_case (use_case : string) :
  use_case ∉ use_cases -> assoc_get recommendations use_case = None.
Proof.
  unfold use_cases. rewrite !not_elem_of_cons. intros (H1 & H2 & H3 & _).
  cbn [assoc_get recommendations].
  rewrite !(proj2 (String.eqb_neq _ _)); [reflexivity| |  |]; congruence.
Qed.

Lemma not_sensitivity_level {V} (data_sensitivity : string) (a b c : V) :
  data_sensitivity ∉ sensitivity_levels ->
  assoc_get [("low", a); ("medium", b); ("high", c)]%string data_sensitivity
  = None.
Proof.
  unfold sensitivity_levels. rewrite !not_elem_of_cons.
  intros (H1 & H2 & H3 & _). cbn [assoc_get].
  rewrite !(proj2 (String.eqb_neq _ _)); [reflexivity| |  |]; congruence.
Qed.

Ltac each_key H :=
  repeat (apply elem_of_cons in H as [->|H]);
  [..|apply elem_of_nil in H; contradiction].

Section Advisor.
Context {lib : Diffprivlib} {np : Numpy}.

(** X15. The advisor looks up the use case first and the sensitivity
    second.  A use case that is no key of the matrix raises its
    [KeyError], whatever the sensitivity; a sensitivity that is no key
    raises its own; with both keys valid the call returns an epsilon
    between 0.05 and 2.0 and the epsilon of the instance as
    [current_epsilon].  Its level is the level the engine reports for an
    instance of that epsilon, except for high sensitivity in a public
    release (0.05), which the engine calls ["custom"].  Nothing is
    written or drawn. *)
Theorem epsilon_recommendation_outcomes (data_sensitivity use_case : string)
    (w : world) :
  (use_case ∉ use_cases ->
   get_epsilon_recommendation data_sensitivity use_case w
   = (Raised (Exception "KeyError" use_case), w))
  /\ (use_case ∈ use_cases -> data_sensitivity ∉ sensitivity_levels ->
      get_epsilon_recommendation data_sensitivity use_case w
      = (Raised (Exception "KeyError" data_sensitivity), w))
  /\ (use_case ∈ use_cases -> data_sensitivity ∈ sensitivity_levels ->
      exists advice,
        get_epsilon_recommendation data_sensitivity use_case w
        = (Returned advice, w)
        /\ 0.05 <= recommended_epsilon advice <= 2.0
        /\ current_epsilon advice = epsilon (self w)
        /\ (rec_privacy_level advice
            = get_privacy_level
                (__init__ (recommended_epsilon advice) (delta (self w)))
            <-> ~ (use_case = "public_release"%string
                   /\ data_sensitivity = "high"%string))).
Proof.
  split; [|split].
  - intros Hu. unfold get_epsilon_recommendation, bind, lift, dict_item.
    rewrite (not_use_case _ Hu). reflexivity.
  - intros Hu Hs. unfold get_epsilon_recommendation, bind, lift.
    each_key Hu; cbn [dict_item assoc_get recommendations String.eqb
                      Ascii.eqb Bool.eqb];
      unfold dict_item; rewrite (not_sensitivity_level _ _ _ _ Hs);
      reflexivity.
  - intros Hu Hs. each_key Hu; each_key Hs;
      (eexists; split; [reflexivity|]);
      cbn [recommended_epsilon current_epsilon rec_privacy_level];
      (split; [split; unfold Qle; cbn; lia|]);
      (split; [reflexivity|]);
      (split;
       [intros Heq [E1 E2];
        first [discriminate E1 | discriminate E2
              | vm_compute in Heq; discriminate Heq]
       | intros Hne;
         first [reflexivity | exfalso; apply Hne; split; reflexivity]]).
Qed.

(** X16. The matrix is strictly ordered: a more sensitive data set, or a
    stricter use case (research, production, public release), never gets a
    larger epsilon, and gets a smaller one when either is strictly
    higher. *)
Theorem epsilon_recommendation_is_monotone (i i' j j' : nat)
    (s s' u u' : string) (w : world) :
  sensitivity_levels !! i = Some s -> sensitivity_levels !! i' = Some s' ->
  use_cases !! j = Some u -> use_cases !! j' = Some u' ->
  (i <= i')%nat -> (j <= j')%nat ->
  exists advice advice',
    get_epsilon_recommendation s u w = (Returned advice, w)
    /\ get_epsilon_recommendation s' u' w = (Returned advice', w)
    /\ recommended_epsilon advice' <= recommended_epsilon advice
    /\ ((i < i')%nat \/ (j < j')%nat ->
        recommended_epsilon advice' < recommended_epsilon advice).
Proof.
  intros Hs Hs' Hu Hu' Hi Hj.
  destruct i as [|[|[|i]]]; cbn in Hs; try discriminate Hs;
    destruct i' as [|[|[|i']]]; cbn in Hs'; try discriminate Hs'; try lia;
    destruct j as [|[|[|j]]]; cbn in Hu; try discriminate Hu;
    destruct j' as [|[|[|j']]]; cbn in Hu'; try discriminate Hu'; try lia;
    injection Hs as <-; injection Hs' as <-;
    injection Hu as <-; injection Hu' as <-;
    (do 2 eexists; split; [reflexivity|]; split; [reflexivity|]);
    cbn [recommended_epsilon];
    (split; [unfold Qle; cbn; lia|]);
    intros [H|H]; try lia; unfold Qlt; cbn; lia.
Qed.

End Advisor.

(** ** Private statistics of a column *)

Section Statistics.
Context {lib : Diffprivlib} {np : Numpy} {tools : DiffprivlibTools}.

Lemma keeps_self_call_tool tool values eps bounds :
  keeps_self (call_tool tool values eps bounds).
Proof.
  intros w. unfold call_tool.
  destruct (tool values eps bounds (rng w)). reflexivity.
Qed.

Lemma bind_raised {A B} (c : M A) (k : A -> M B) (w w' : world) (e : exn) :
  bind c k w = (Raised e, w') ->
  c w = (Raised e, w')
  \/ exists a w1, c w = (Returned a, w1) /\ k a w1 = (Raised e, w').
Proof.
  unfold bind. destruct (c w) as [[a|e1] w1]; intros Hk.
  - right. exists a, w1. split; [reflexivity | exact Hk].
  - left. injection Hk as <- <-. reflexivity.
Qed.

Lemma call_tool_self tool values eps bounds (w w' : world) o :
  call_tool tool values eps bounds w = (o, w') -> self w' = self w.
Proof.
  intros Hrun. pose proof (keeps_self_call_tool tool values eps bounds w) as Hk.
  rewrite Hrun in Hk. exact Hk.
Qed.

(** X17. A call of [compute_dp_statistics] that returns has found the
    column with at least one value, reports four times the epsilon of one
    statistic as [epsilon_used] and has added exactly that to the spent
    budget, leaving epsilon and delta alone; with no epsilon given the
    charge equals the epsilon of the instance. *)
Theorem dp_statistics_charge df column epsilon_per_stat (w w' : world) stats :
  compute_dp_statistics df column epsilon_per_stat w = (Returned stats, w') ->
  stat_epsilon_used stats
  = default (epsilon (self w) / 4) epsilon_per_stat * 4
  /\ privacy_budget_spent (self w')
     = privacy_budget_spent (self w) + stat_epsilon_used stats
  /\ epsilon (self w') = epsilon (self w)
  /\ delta (self w') = delta (self w)
  /\ (epsilon_per_stat = None -> stat_epsilon_used stats == epsilon (self w))
  /\ exists series, df_get df column = Some series /\ series_len series <> 0%nat.
Proof.
  unfold compute_dp_statistics. intros Hrun.
  apply bind_returned in Hrun as (s & w1 & Hs & Hrun).
  unfold get_self in Hs. injection Hs as <- <-.
  apply bind_returned in Hrun as (series & w1 & Hser & Hrun).
  apply bind_returned in Hrun as (lower & w2 & Hlo & Hrun).
  apply bind_returned in Hrun as (upper & w3 & Hup & Hrun).
  apply bind_returned in Hrun as (m & w4 & Hm & Hrun).
  apply bind_returned in Hrun as (v & w5 & Hv & Hrun).
  apply bind_returned in Hrun as (sd & w6 & Hsd & Hrun).
  apply bind_returned in Hrun as (md & w7 & Hmd & Hrun).
  apply bind_returned in Hrun as (s2 & w8 & Hs2 & Hrun).
  unfold get_self in Hs2. injection Hs2 as <- <-.
  apply bind_returned in Hrun as (u & w9 & Hset & Hret).
  unfold set_privacy_budget_spent in Hset. injection Hset as _ <-.
  unfold ret in Hret. injection Hret as <- <-.
  unfold lift in Hser, Hlo, Hup.
  injection Hser as Hser <-. injection Hlo as Hlo <-. injection Hup as Hup <-.
  apply call_tool_self in Hm, Hv, Hsd, Hmd.
  assert (Hself : self w7 = self w) by congruence.
  cbn [self stat_epsilon_used privacy_budget_spent epsilon delta].
  rewrite Hself.
  split; [destruct epsilon_per_stat; reflexivity|].
  split; [destruct epsilon_per_stat; reflexivity|].
  split; [reflexivity|]. split; [reflexivity|].
  split; [intros ->; cbn; field|].
  destruct (df_get df column) as [series'|]; [|discriminate Hser].
  injection Hser as ->. exists series. split; [reflexivity|].
  intros Hlen. unfold array_min in Hlo.
  destruct series as [dt vs|vs]; cbn in Hlen, Hlo;
    destruct vs; try discriminate Hlo; discriminate Hlen.
Qed.

(** X18. How [compute_dp_statistics] fails.  A column that the frame
    lacks raises its [KeyError], and a column without values the
    [ValueError] of the minimum, both before anything is drawn; and
    whatever raises, the instance is left as it was, so a call that fails
    after some of its four statistics were drawn charges nothing. *)
Theorem dp_statistics_failures df column epsilon_per_stat (w : world) :
  (df_get df column = None ->
   compute_dp_statistics df column epsilon_per_stat w
   = (Raised (Exception "KeyError" column), w))
  /\ (forall series, df_get df column = Some series ->
        series_len series = 0%nat ->
        exists msg,
          compute_dp_statistics df column epsilon_per_stat w
          = (Raised (Exception "ValueError" msg), w))
  /\ (forall e w',
        compute_dp_statistics df column epsilon_per_stat w = (Raised e, w') ->
        self w' = self w).
Proof.
  split; [|split].
  - intros Hnone. unfold compute_dp_statistics, bind, get_self, lift.
    rewrite Hnone. reflexivity.
  - intros series Hcol Hlen. eexists.
    unfold compute_dp_statistics, bind, get_self, lift. rewrite Hcol.
    destruct series as [dt vs|vs]; cbn in Hlen;
      apply length_zero_iff_nil in Hlen; subst vs; reflexivity.
  - intros e w'. unfold compute_dp_statistics. intros Hrun.
    apply bind_raised in Hrun as [Hrun|(s & w1 & Hs & Hrun)];
      [discriminate Hrun|].
    unfold get_self in Hs. injection Hs as <- <-.
    apply bind_raised in Hrun as [Hrun|(series & w1 & Hser & Hrun)];
      [unfold lift in Hrun; injection Hrun as _ <-; reflexivity|].
    unfold lift in Hser. injection Hser as _ <-.
    apply bind_raised in Hrun as [Hrun|(lower & w2 & Hlo & Hrun)];
      [unfold lift in Hrun; injection Hrun as _ <-; reflexivity|].
    unfold lift in Hlo. injection Hlo as _ <-.
    apply bind_raised in Hrun as [Hrun|(upper & w3 & Hup & Hrun)];
      [unfold lift in Hrun; injection Hrun as _ <-; reflexivity|].
    unfold lift in Hup. injection Hup as _ <-.
    apply bind_raised in Hrun as [Hrun|(m & w4 & Hm & Hrun)];
      [exact (call_tool_self _ _ _ _ _ _ _ Hrun)|].
    apply call_tool_self in Hm.
    apply bind_raised in Hrun as [Hrun|(v & w5 & Hv & Hrun)];
      [apply call_tool_self in Hrun; congruence|].
    apply call_tool_self in Hv.
    apply bind_raised in Hrun as [Hrun|(sd & w6 & Hsd & Hrun)];
      [apply call_tool_self in Hrun; congruence|].
    apply call_tool_self in Hsd.
    apply bind_raised in Hrun as [Hrun|(md & w7 & Hmd & Hrun)];
      [apply call_tool_self in Hrun; congruence|].
    apply bind_raised in Hrun as [Hrun|(s2 & w8 & Hs2 & Hrun)];
      [discriminate Hrun|].
    apply bind_raised in Hrun as [Hrun|(u & w9 & _ & Hrun)];
      discriminate Hrun.
Qed.

End Statistics.

(** ** The endpoints *)



(** X20. The advertised ranges of [GET /privacy-levels] are the ranges
    that the engine implements: an epsilon lies in the range of an entry
    exactly when [get_privacy_level] returns the level of that entry, so
    no two ranges overlap; and the engine says ["custom"] exactly for the
    epsilons that no entry covers. *)
Theorem advertised_levels_match_engine (self : DifferentialPrivacy) :
  let eps := epsilon self in
  let covers (entry : Api.level_entry) :=
    (Api.epsilon_range entry).1 <= eps /\ eps < (Api.epsilon_range entry).2 in
  (forall entry, entry ∈ Api.get_privacy_levels ->
                 (covers entry <-> get_privacy_level self = Api.level entry))
  /\ (get_privacy_level self = "custom"%string
      <-> forall entry, entry ∈ Api.get_privacy_levels -> ~ covers entry).
Proof.
  intros eps covers.
  assert (Hentries :
            forall entry, entry ∈ Api.get_privacy_levels ->
                          (covers entry
                           <-> get_privacy_level self = Api.level entry)
                          /\ Api.level entry <> "custom"%string).
  { intros entry Hin. subst covers. cbn beta.
    unfold Api.get_privacy_levels in Hin. cbn [map privacy_levels] in Hin.
    unfold get_privacy_level. fold eps. cbn [first_level privacy_levels].
    each_key Hin;
      cbn [Api.epsilon_range Api.level fst snd];
      (split; [|discriminate]);
      split_comparisons; cbn [andb];
      split; intros; try reflexivity; try discriminate; lra. }
  split; [intros entry Hin; apply Hentries; exact Hin|].
  split.
  - intros Hcustom entry Hin Hc.
    destruct (Hentries entry Hin) as [Hiff Hne].
    apply Hiff in Hc. congruence.
  - intros Hnone. unfold get_privacy_level. fold eps.
    cbn [first_level privacy_levels].
    assert (Hcase : forall lo hi name text,
               {| Api.level := name; Api.epsilon_range := (lo, hi);
                  Api.description := text |} ∈ Api.get_privacy_levels ->
               Qle_bool lo eps && Qltb eps hi = false).
    { intros lo hi name text Hin. specialize (Hnone _ Hin).
      subst covers. cbn in Hnone.
      destruct (Qle_bool lo eps) eqn:E1; [|reflexivity].
      destruct (Qltb eps hi) eqn:E2; [|reflexivity].
      exfalso. apply Hnone. apply Qle_bool_iff in E1. apply Qltb_lt in E2.
      split; assumption. }
    unfold Api.get_privacy_levels in Hcase. cbn [map privacy_levels] in Hcase.
    repeat match goal with
           | |- context [Qle_bool ?lo eps && Qltb eps ?hi] =>
               erewrite (Hcase lo hi)
                 by repeat (first [apply list_elem_of_here
                                  | apply list_elem_of_further])
           end.
    reflexivity.
Qed.

Section Endpoints.
Context {lib : Diffprivlib} {np : Numpy}.

(** X21. [POST /calculate-privacy-loss] builds a new instance for every
    request, so what it reports about the account is always the state of
    an unused one: spent 0, remaining 10, the advice of a full budget,
    whatever was applied through the other endpoints.  It returns for
    every epsilon and number of queries, and draws nothing. *)
Theorem privacy_loss_endpoint_reports_a_fresh_account (epsilon : Q)
    (num_queries : Z) (r : random_state) :
  exists report,
    Api.calculate_privacy_loss epsilon num_queries r
    = (Returned {| Api.loss_status := "success";
                   Api.privacy_loss := report |}, r)
    /\ loss_privacy_budget_spent report = 0
    /\ privacy_remaining report == 10
    /\ loss_recommendation report = _get_privacy_budget_recommendation 0
    /\ base_epsilon report = epsilon
    /\ sequential_composition report = epsilon * inject_Z num_queries.
Proof.
  unfold Api.calculate_privacy_loss.
  rewrite calculate_privacy_loss_returns by (cbn; intros E; discriminate E).
  eexists. split; [reflexivity|]. cbn. repeat split; reflexivity.
Qed.

(** X22. [POST /get-epsilon-recommendation] cannot fail: the two
    [Literal] fields of the request admit the keys of the advisor's matrix
    only.  The [current_epsilon] of the answer is always the default 1.0 of
    the instance built for the request, and nothing is drawn. *)
Theorem advisor_endpoint_always_answers
    (request : Api.EpsilonRecommendationRequest) (r : random_state) :
  exists advice,
    Api.get_epsilon_recommendation request r
    = (Returned {| Api.recommendation_status := "success";
                   Api.response_recommendation := advice |}, r)
    /\ current_epsilon advice = 1
    /\ rec_data_sensitivity advice
       = Api.data_sensitivity_value (Api.request_data_sensitivity request)
    /\ rec_use_case advice = Api.use_case_value (Api.request_use_case request)
    /\ 0.05 <= recommended_epsilon advice <= 2.0.
Proof.
  destruct request as [[] []]; eexists; (split; [reflexivity|]); cbn;
    repeat split; try reflexivity; unfold Qle; cbn; lia.
Qed.

End Endpoints.


Section Callers.
Context {lib : Diffprivlib} {np : Numpy}.








End Callers.

(** ** The further properties at work on the example data *)

Lemma processed_columns_are_the_processable_witness :
  match (apply_noise_to_dataframe people "laplace"
           (Some ["zip"; "age"; "height"; "age"]%string) None
           (tape_world 1.0)).1 with
  | Returned (_, report) => columns_processed report = ["age"; "age"]%string
  | Raised _ => False
  end.
Proof.
  destruct (apply_noise_to_dataframe people "laplace"
              (Some ["zip"; "age"; "height"; "age"]%string) None
              (tape_world 1.0)) as [[[df_dp report]|e] w'] eqn:Hrun; cbn [fst].
  - rewrite (processed_columns_are_the_processable _ _ _ _ _ _ _ _ Hrun).
    reflexivity.
  - vm_compute in Hrun. discriminate Hrun.
Defined.

Lemma unprocessed_columns_are_kept_witness :
  match (apply_noise_to_dataframe people "laplace" (Some ["age"%string]) None
           (tape_world 1.0)).1 with
  | Returned (df_dp, report) =>
      nrows df_dp = 5%nat
      /\ df_get df_dp "zip"
         = Some (ObjSeries
                   (map Some
                        ["06100"; "06200"; "34000"; "35000"; "01000"]%string))
      /\ wf_frame df_dp
  | Raised _ => False
  end.
Proof.
  destruct (apply_noise_to_dataframe people "laplace" (Some ["age"%string])
              None (tape_world 1.0)) as [[[df_dp report]|e] w'] eqn:Hrun;
    cbn [fst].
  - destruct (unprocessed_columns_are_kept _ _ _ _ _ _ _ _ Hrun)
      as (Hrows & _ & Hkeep & Hwf).
    split; [exact Hrows|]. split; [|apply Hwf; repeat constructor].
    rewrite Hkeep; [reflexivity|].
    assert (Hcols : columns_processed report = ["age"%string]).
    { vm_compute in Hrun. injection Hrun as _ <- _. reflexivity. }
    rewrite Hcols. apply not_elem_of_cons.
    split; [discriminate | apply not_elem_of_nil].
  - vm_compute in Hrun. discriminate Hrun.
Defined.

Lemma unknown_mechanism_is_checked_late_witness :
  apply_noise_to_dataframe people "exponential" None None (tape_world 1.0)
  = (Raised (Exception "ValueError" "Bilinmeyen mechanism: exponential"),
     tape_world 1.0)
  /\ returned (apply_noise_to_dataframe people "exponential"
                 (Some ["zip"; "height"]%string) None (tape_world 1.0)).1
     = true.
Proof.
  split.
  - apply (unknown_mechanism_is_checked_late people "exponential" None None
             (tape_world 1.0)); discriminate.
  - destruct (unknown_mechanism_is_checked_late people "exponential"
                (Some ["zip"; "height"]%string) None (tape_world 1.0))
      as (report & Hrun & _); [discriminate | discriminate |].
    rewrite Hrun. reflexivity.
Defined.

Lemma failed_call_charges_nothing_witness :
  let call := apply_noise_to_dataframe people "laplace"
                (Some ["age"; "income"]%string)
                (Some (<["income"%string := (10, 0)]> ∅)) (tape_world 1.0) in
  returned call.1 = false
  /\ rng call.2 = ([] : list Q)
  /\ self call.2 = self (tape_world 1.0).
Proof.
  cbn zeta.
  destruct (apply_noise_to_dataframe people "laplace"
              (Some ["age"; "income"]%string)
              (Some (<["income"%string := (10, 0)]> ∅)) (tape_world 1.0))
    as [[out|e] w'] eqn:Hrun; cbn [fst snd].
  - vm_compute in Hrun. discriminate Hrun.
  - split; [reflexivity|]. split.
    + vm_compute in Hrun. injection Hrun as _ <-. reflexivity.
    + exact (failed_call_charges_nothing _ _ _ _ _ _ _ Hrun).
Defined.

Lemma epsilon_shares_of_a_call_witness :
  match (apply_noise_to_dataframe people "laplace"
           (Some ["zip"; "age"]%string) None (tape_world 1.0)).1 with
  | Returned (_, report) =>
      (exists stats, noise_statistics report !! "age"%string = Some stats
                     /\ epsilon_used stats = 1.0 / inject_Z 2)
      /\ report_privacy_budget_spent report = 1.0
      /\ (length (columns_processed report) <= 2)%nat
      /\ length (columns_processed report) <> 2%nat
  | Raised _ => False
  end.
Proof.
  destruct (apply_noise_to_dataframe people "laplace"
              (Some ["zip"; "age"]%string) None (tape_world 1.0))
    as [[[df_dp report]|e] w'] eqn:Hrun; cbn [fst].
  - destruct (epsilon_shares_of_a_call _ _ _ _ _ _ _ _ Hrun)
      as (Hshare & Hspent & Hle & Hall).
    split; [|split; [exact Hspent|split; [exact Hle|]]].
    + apply Hshare.
      vm_compute in Hrun. injection Hrun as _ <- _.
      apply list_elem_of_In. left. reflexivity.
    + intros Hlen. apply Hall in Hlen. vm_compute in Hlen.
      discriminate Hlen.
  - vm_compute in Hrun. discriminate Hrun.
Defined.

Lemma reported_means_witness :
  match (apply_noise_to_dataframe people_with_gaps "laplace"
           (Some ["age"%string]) None (tape_world 1.0)).1 with
  | Returned (_, report) =>
      exists stats,
        noise_statistics report !! "age"%string = Some stats
        /\ original_mean stats
           = series_mean [Some 10; None; Some 30; Some 40; Some 50]
        /\ noisy_mean stats = NaN
        /\ noise_magnitude stats = NaN
        /\ relative_error stats = NaN
  | Raised _ => False
  end.
Proof.
  destruct (apply_noise_to_dataframe people_with_gaps "laplace"
              (Some ["age"%string]) None (tape_world 1.0))
    as [[[df_dp report]|e] w'] eqn:Hrun; cbn [fst].
  - assert (Hrep : columns_processed report = ["age"%string]
                   /\ exists stats,
                        noise_statistics report !! "age"%string = Some stats).
    { vm_compute in Hrun. injection Hrun as _ <- _.
      split; [reflexivity|]. eexists. vm_compute. reflexivity. }
    destruct Hrep as (Hcols & stats & Hstats).
    destruct (reported_means people_with_gaps "laplace" (Some ["age"%string])
                None _ _ _ _ "age"%string float64
                [Some 10; None; Some 30; Some 40; Some 50] stats Hrun)
      as (Hmu & _ & Hnan).
    + rewrite Hcols. apply list_elem_of_In. left. reflexivity.
    + reflexivity.
    + exact Hstats.
    + destruct Hnan as (Hm & Hmag & Hrel).
      { apply list_elem_of_In. right. left. reflexivity. }
      exists stats. split; [exact Hstats|]. split; [exact Hmu|].
      split; [exact Hm|]. split; [exact Hmag|].
      rewrite Hrel, Hmu. reflexivity.
  - vm_compute in Hrun. discriminate Hrun.
Defined.

Lemma constant_column_is_released_witness :
  match (apply_noise_to_dataframe readings "laplace" None None
           (tape_world 1.0)).1 with
  | Returned (df_dp, report) =>
      exists values,
        df_get df_dp "dose" = Some (NumSeries float64 values)
        /\ length values = 3%nat
        /\ Forall (fun v => exists y, v = Finite y /\ y == 7) values
  | Raised _ => False
  end.
Proof.
  destruct (apply_noise_to_dataframe readings "laplace" None None
              (tape_world 1.0)) as [[[df_dp report]|e] w'] eqn:Hrun; cbn [fst].
  - apply (constant_column_is_released readings "laplace" None None _ _ _ _
             "dose"%string float64 7 [7; 7] Hrun).
    + vm_compute in Hrun. injection Hrun as _ <- _.
      apply list_elem_of_In. left. reflexivity.
    + reflexivity.
    + reflexivity.
    + repeat constructor.
  - vm_compute in Hrun. discriminate Hrun.
Defined.

Lemma one_anonymity_always_holds_witness :
  exists report,
    k_anonymity_check people ["zip"; "age"] 1 = Returned report
    /\ vulnerable_records report = 0%Z /\ is_k_anonymous report = true.
Proof.
  destruct (k_anonymity_check people ["zip"; "age"] 1) as [report|e] eqn:Hrun.
  - exists report. split; [reflexivity|].
    apply (one_anonymity_always_holds people ["zip"; "age"] 1 report);
      [lia | exact Hrun].
  - vm_compute in Hrun. discriminate Hrun.
Defined.

Lemma k_anonymity_report_bounds_witness :
  (exists report,
     k_anonymity_check people_with_gaps ["zip"] 5 = Returned report
     /\ (0 <= vulnerable_records report <= 5)%Z
     /\ (exists p, vulnerable_percentage report = Finite p /\ 0 <= p <= 100)
     /\ (1 <= smallest_group_size report <= 5)%Z)
  /\ (exists report,
        k_anonymity_check people_without_zip ["zip"] 5 = Returned report
        /\ smallest_group_size report = 0%Z
        /\ vulnerable_records report = 0%Z).
Proof.
  split.
  - destruct (k_anonymity_check people_with_gaps ["zip"] 5)
      as [report|e] eqn:Hrun.
    + exists report. split; [reflexivity|].
      destruct (k_anonymity_report_bounds people_with_gaps ["zip"] 5 report)
        as (ss & Hcols & Hv & Hp & Hs & _);
        [repeat constructor | exact Hrun |].
      vm_compute in Hcols. injection Hcols as <-.
      assert (Ht : total_records report = 5%Z).
      { vm_compute in Hrun. injection Hrun as <-. reflexivity. }
      rewrite Ht in Hv, Hs. split; [exact Hv|].
      split; [apply Hp; cbn; lia|]. apply Hs.
      apply Exists_cons_hd. repeat constructor. eexists. reflexivity.
    + vm_compute in Hrun. discriminate Hrun.
  - destruct (k_anonymity_check people_without_zip ["zip"] 5)
      as [report|e] eqn:Hrun.
    + exists report. split; [reflexivity|].
      destruct (k_anonymity_report_bounds people_without_zip ["zip"] 5 report)
        as (ss & Hcols & _ & _ & _ & Hnone);
        [repeat constructor | exact Hrun |].
      vm_compute in Hcols. injection Hcols as <-.
      apply Hnone. repeat constructor.
    + vm_compute in Hrun. discriminate Hrun.
Defined.

Lemma k_anonymous_iff_smallest_class_witness :
  (exists report,
     k_anonymity_check people_with_gaps ["zip"] 5 = Returned report
     /\ (is_k_anonymous report = true <-> (5 <= smallest_group_size report)%Z))
  /\ (exists report,
        k_anonymity_check people_without_zip ["zip"] 5 = Returned report
        /\ is_k_anonymous report = true /\ smallest_group_size report = 0%Z)
  /\ (exists report,
        k_anonymity_check no_people ["zip"] 5 = Returned report
        /\ is_k_anonymous report = true /\ smallest_group_size report = 0%Z).
Proof.
  split; [|split].
  - destruct (k_anonymity_check people_with_gaps ["zip"] 5)
      as [report|e] eqn:Hrun.
    + exists report. split; [reflexivity|].
      destruct (k_anonymous_iff_smallest_class people_with_gaps ["zip"] 5
                  report Hrun) as (ss & Hcols & Hsome & _).
      vm_compute in Hcols. injection Hcols as <-.
      apply Hsome. apply Exists_cons_hd. repeat constructor.
      eexists. reflexivity.
    + vm_compute in Hrun. discriminate Hrun.
  - destruct (k_anonymity_check people_without_zip ["zip"] 5)
      as [report|e] eqn:Hrun.
    + exists report. split; [reflexivity|].
      destruct (k_anonymous_iff_smallest_class people_without_zip ["zip"] 5
                  report Hrun) as (ss & Hcols & _ & Hnone & _).
      vm_compute in Hcols. injection Hcols as <-.
      apply Hnone. repeat constructor.
    + vm_compute in Hrun. discriminate Hrun.
  - destruct (k_anonymity_check no_people ["zip"] 5) as [report|e] eqn:Hrun.
    + exists report. split; [reflexivity|].
      destruct (k_anonymous_iff_smallest_class no_people ["zip"] 5 report Hrun)
        as (ss & _ & _ & _ & Hempty).
      apply Hempty. reflexivity.
    + vm_compute in Hrun. discriminate Hrun.
Defined.

Lemma k_anonymity_is_monotone_witness :
  exists report report',
    k_anonymity_check people ["zip"] 1 = Returned report
    /\ k_anonymity_check people ["zip"] 5 = Returned report'
    /\ (vulnerable_records report <= vulnerable_records report')%Z
    /\ (is_k_anonymous report' = true -> is_k_anonymous report = true).
Proof.
  destruct (k_anonymity_check people ["zip"] 1) as [report|e] eqn:Hrun;
    [|vm_compute in Hrun; discriminate Hrun].
  destruct (k_anonymity_check people ["zip"] 5) as [report'|e] eqn:Hrun';
    [|vm_compute in Hrun'; discriminate Hrun'].
  exists report, report'. split; [reflexivity|]. split; [reflexivity|].
  apply (k_anonymity_is_monotone people ["zip"] 1 5 report report');
    [lia | exact Hrun | exact Hrun'].
Defined.

Lemma k_anonymity_recommendation_thresholds_witness :
  (exists report,
     k_anonymity_check people ["zip"] 5 = Returned report
     /\ (recommendation report
         = _get_k_anonymity_recommendation (Finite 50)
         <-> (total_records report <= 5 * vulnerable_records report)%Z))
  /\ (exists report,
        k_anonymity_check no_people ["zip"] 5 = Returned report
        /\ is_k_anonymous report = true
        /\ recommendation report = _get_k_anonymity_recommendation (Finite 50)).
Proof.
  split.
  - destruct (k_anonymity_check people ["zip"] 5) as [report|e] eqn:Hrun.
    + exists report. split; [reflexivity|].
      destruct (k_anonymity_recommendation_thresholds people ["zip"] 5
                  report Hrun) as [Hrows _].
      cbn zeta in Hrows.
      destruct Hrows as (_ & _ & _ & _ & Hhigh);
        [repeat constructor | cbn; lia | exact Hhigh].
    + vm_compute in Hrun. discriminate Hrun.
  - destruct (k_anonymity_check no_people ["zip"] 5) as [report|e] eqn:Hrun.
    + exists report. split; [reflexivity|].
      destruct (k_anonymity_recommendation_thresholds no_people ["zip"] 5
                  report Hrun) as [_ Hempty].
      apply Hempty. reflexivity.
    + vm_compute in Hrun. discriminate Hrun.
Defined.

Lemma reset_starts_a_new_account_witness :
  let used := @Build_world tape_lib
                {| epsilon := 2.0; delta := default_delta;
                   privacy_budget_spent := 7 |}
                ([1; -200; 3; 1 # 2; 500] : list Q) in
  match run_call (age_call 0 100) (reset_privacy_budget used).2 with
  | (Returned _, w) =>
      privacy_budget_spent (self w) == 2
      /\ exists rep,
           calculate_privacy_loss (np := coarse_numpy) 1 w = (Returned rep, w)
           /\ loss_privacy_budget_spent rep == sequential_composition rep
  | (Raised _, _) => False
  end.
Proof.
  intros used.
  destruct (run_call (age_call 0 100) (reset_privacy_budget used).2)
    as [[out|e] w] eqn:Hrun.
  - destruct (reset_starts_a_new_account (np := coarse_numpy)
                (age_call 0 100) used w out Hrun)
      as (_ & _ & _ & _ & _ & Hspent & Hrep).
    + intros E. vm_compute in E. discriminate E.
    + split; [rewrite Hspent; reflexivity | exact Hrep].
  - vm_compute in Hrun. discriminate Hrun.
Defined.

Lemma budget_report_thresholds_witness :
  match (calculate_privacy_loss (np := coarse_numpy) 3
           (run_call (age_call 0 100) (tape_world 5.0)).2).1 with
  | Returned rep =>
      loss_recommendation rep = _get_privacy_budget_recommendation 5
      /\ privacy_remaining rep == 5
  | Raised _ => False
  end.
Proof.
  destruct (calculate_privacy_loss (np := coarse_numpy) 3
              (run_call (age_call 0 100) (tape_world 5.0)).2)
    as [[rep|e] w'] eqn:Hrun; cbn [fst].
  - destruct (budget_report_thresholds (np := coarse_numpy) _ _ _ _ Hrun)
      as (_ & _ & Hthird & _ & _ & Hleft).
    cbn zeta in Hthird, Hleft. split.
    + apply Hthird. split; vm_compute; [discriminate | reflexivity].
    + rewrite Hleft by (vm_compute; discriminate). reflexivity.
  - vm_compute in Hrun. discriminate Hrun.
Defined.

Lemma epsilon_recommendation_outcomes_witness :
  get_epsilon_recommendation "high" "archive" (tape_world 1.0)
  = (Raised (Exception "KeyError" "archive"), tape_world 1.0)
  /\ get_epsilon_recommendation "secret" "research" (tape_world 1.0)
     = (Raised (Exception "KeyError" "secret"), tape_world 1.0)
  /\ exists advice,
       get_epsilon_recommendation "high" "public_release" (tape_world 3.0)
       = (Returned advice, tape_world 3.0)
       /\ current_epsilon advice = 3.0
       /\ rec_privacy_level advice
          <> get_privacy_level
               (__init__ (recommended_epsilon advice) default_delta).
Proof.
  split; [|split].
  - apply (epsilon_recommendation_outcomes "high" "archive" (tape_world 1.0)).
    unfold use_cases. rewrite !not_elem_of_cons.
    repeat split; try discriminate. apply not_elem_of_nil.
  - apply (epsilon_recommendation_outcomes "secret" "research"
             (tape_world 1.0)).
    + apply list_elem_of_In. left. reflexivity.
    + unfold sensitivity_levels. rewrite !not_elem_of_cons.
      repeat split; try discriminate. apply not_elem_of_nil.
  - destruct (epsilon_recommendation_outcomes "high" "public_release"
                (tape_world 3.0)) as (_ & _ & Hvalid).
    destruct Hvalid as (advice & Hrun & _ & Hcurrent & Hlevel).
    + apply list_elem_of_In. right. right. left. reflexivity.
    + apply list_elem_of_In. right. right. left. reflexivity.
    + exists advice. split; [exact Hrun|]. split; [exact Hcurrent|].
      intros Heq. apply Hlevel in Heq. apply Heq. split; reflexivity.
Defined.

Lemma epsilon_recommendation_is_monotone_witness :
  exists advice advice',
    get_epsilon_recommendation "low" "research" (tape_world 1.0)
    = (Returned advice, tape_world 1.0)
    /\ get_epsilon_recommendation "high" "production" (tape_world 1.0)
       = (Returned advice', tape_world 1.0)
    /\ recommended_epsilon advice' < recommended_epsilon advice.
Proof.
  destruct (epsilon_recommendation_is_monotone 0 2 0 1 "low" "high"
              "research" "production" (tape_world 1.0))
    as (advice & advice' & Hrun & Hrun' & _ & Hlt);
    [reflexivity | reflexivity | reflexivity | reflexivity | lia | lia |].
  exists advice, advice'. split; [exact Hrun|]. split; [exact Hrun'|].
  apply Hlt. left. lia.
Defined.

Lemma dp_statistics_charge_witness :
  match compute_dp_statistics (tools := tape_tools) people "age" None
          (tape_world 2.0) with
  | (Returned stats, w') =>
      stat_epsilon_used stats == 2
      /\ privacy_budget_spent (self w') == 2
  | (Raised _, _) => False
  end.
Proof.
  destruct (compute_dp_statistics (tools := tape_tools) people "age" None
              (tape_world 2.0)) as [[stats|e] w'] eqn:Hrun.
  - destruct (dp_statistics_charge (tools := tape_tools) _ _ _ _ _ _ Hrun)
      as (_ & Hspent & _ & _ & Hdefault & _).
    rewrite Hspent, (Hdefault eq_refl). split; reflexivity.
  - vm_compute in Hrun. discriminate Hrun.
Defined.

Lemma dp_statistics_failures_witness :
  compute_dp_statistics (tools := tape_tools) people "height" None
    (tape_world 1.0)
  = (Raised (Exception "KeyError" "height"), tape_world 1.0)
  /\ (exists msg,
        compute_dp_statistics (tools := tape_tools) no_people "age" (Some 1)
          (tape_world 1.0)
        = (Raised (Exception "ValueError" msg), tape_world 1.0))
  /\ (let call := compute_dp_statistics (tools := tape_tools) people "zip"
                    (Some 1) (tape_world 1.0) in
      returned call.1 = false /\ self call.2 = self (tape_world 1.0)).
Proof.
  split; [|split].
  - apply (dp_statistics_failures (tools := tape_tools) people "height" None
             (tape_world 1.0)). reflexivity.
  - destruct (dp_statistics_failures (tools := tape_tools) no_people "age"
                (Some 1) (tape_world 1.0)) as (_ & Hempty & _).
    apply (Hempty (NumSeries float64 [])); reflexivity.
  - cbn zeta.
    destruct (compute_dp_statistics (tools := tape_tools) people "zip"
                (Some 1) (tape_world 1.0)) as [[stats|e] w'] eqn:Hrun;
      cbn [fst snd].
    + vm_compute in Hrun. discriminate Hrun.
    + split; [reflexivity|].
      destruct (dp_statistics_failures (tools := tape_tools) people "zip"
                  (Some 1) (tape_world 1.0)) as (_ & _ & Hself).
      exact (Hself e w' Hrun).
Defined.


Lemma advertised_levels_match_engine_witness :
  get_privacy_level (__init__ 1.5 default_delta) = "medium"%string
  /\ get_privacy_level (__init__ 10 default_delta) = "custom"%string.
Proof.
  destruct (advertised_levels_match_engine (__init__ 1.5 default_delta))
    as [Hentry _].
  destruct (advertised_levels_match_engine (__init__ 10 default_delta))
    as [Hten Hcustom].
  cbn zeta in Hentry, Hten, Hcustom. split.
  - apply (Hentry {| Api.level := "medium"; Api.epsilon_range := (1.0, 2.0);
                     Api.description := "Dengeli gizlilik ve doğruluk" |}).
    + apply list_elem_of_In. right. right. left. reflexivity.
    + split; vm_compute; [discriminate | reflexivity].
  - apply Hcustom. intros entry Hin [Hlo Hhi].
    apply list_elem_of_In in Hin. cbn in Hin.
    destruct Hin as [<-|[<-|[<-|[<-|[<-|[]]]]]];
      vm_compute in Hhi; discriminate Hhi.
Defined.



(** ** The epsilon in the name of a result file *)

Lemma startswith_app (sep s t : string) :
  (String.length sep <= String.length s)%nat ->
  startswith sep (s ++ t) = startswith sep s.
Proof.
  revert s. induction sep as [|a sep IH]; intros s Hlen; [reflexivity|].
  destruct s as [|b s]; cbn in Hlen; [lia|].
  change (String b s ++ t)%string with (String b (s ++ t)).
  cbn [startswith]. rewrite IH by lia. reflexivity.
Qed.

(** No occurrence of ["_dp_eps"] starts in a text and ends in a
    following ["_dp_eps"]: no end of the marker is a beginning of it. *)
Lemma marker_does_not_straddle (b t : string) :
  b <> EmptyString ->
  startswith "_dp_eps" b = false ->
  startswith "_dp_eps" (b ++ "_dp_eps" ++ t) = false.
Proof.
  intros Hne Hb.
  destruct (le_lt_dec (String.length "_dp_eps") (String.length b)) as [Hle|Hlt].
  - rewrite startswith_app by exact Hle. exact Hb.
  - clear Hb. cbn in Hlt.
    repeat (destruct b as [|? b]; [try congruence|]; cbn in Hlt; try lia);
      cbv [String.append]; cbn [startswith andb];
      repeat match goal with
             | |- context [Ascii.eqb ?a ?c] =>
                 first
                   [ is_var c;
                     let E := fresh "E" in
                     destruct (Ascii.eqb a c) eqn:E;
                     [apply Ascii.eqb_eq in E; subst c|]
                   | let v := eval vm_compute in (Ascii.eqb a c) in
                     change (Ascii.eqb a c) with v ];
                 cbn [startswith andb]; try reflexivity
             end.
Qed.

Lemma string_app_assoc (s1 s2 s3 : string) :
  ((s1 ++ s2) ++ s3 = s1 ++ s2 ++ s3)%string.
Proof.
  induction s1 as [|c s1 IH]; [reflexivity|].
  change (String c ((s1 ++ s2) ++ s3) = String c (s1 ++ s2 ++ s3))%string.
  rewrite IH. reflexivity.
Qed.

Lemma str_partition_first (b t : string) :
  str_contains "_dp_eps" b = false ->
  str_partition "_dp_eps" (b ++ "_dp_eps" ++ t) = Some (b, t).
Proof.
  unfold str_contains. induction b as [|c b IH]; intros Hb.
  - reflexivity.
  - cbn [str_partition] in Hb.
    destruct (startswith "_dp_eps" (String c b)) eqn:Hs; [discriminate Hb|].
    change (String c b ++ "_dp_eps" ++ t)%string
      with (String c (b ++ "_dp_eps" ++ t)).
    cbn [str_partition].
    change (String c (b ++ "_dp_eps" ++ t))
      with (String c b ++ "_dp_eps" ++ t)%string.
    rewrite marker_does_not_straddle by (discriminate || exact Hs).
    change (String c b ++ "_dp_eps" ++ t)%string
      with (String c (b ++ "_dp_eps" ++ t)).
    rewrite IH; [reflexivity|].
    destruct (str_partition "_dp_eps" b) as [[before after]|];
      [discriminate Hb | reflexivity].
Qed.

Lemma split_0_cons (sep : string) (a c : Ascii.ascii) (sep' s : string) :
  sep = String a sep' -> Ascii.eqb a c = false ->
  split_0 sep (String c s) = String c (split_0 sep s).
Proof.
  intros -> Hne. unfold split_0. cbn [str_partition startswith].
  rewrite Hne. cbn [andb].
  destruct (str_partition (String a sep') s) as [[before after]|]; reflexivity.
Qed.

(** What is listed for a text that begins with an epsilon and an
    underscore. *)
Lemma epsilon_before_underscore (e tail : string) :
  str_contains "_" e = false ->
  split_0 "_" (split_0 "_dp_eps" (e ++ "_" ++ tail)) = e.
Proof.
  unfold str_contains. induction e as [|c e IH]; intros He.
  - cbv [String.append]. unfold split_0 at 2. cbn [str_partition].
    match goal with
    | |- context [startswith ?sep ?s] => destruct (startswith sep s)
    end; [reflexivity|].
    destruct (str_partition "_dp_eps" tail) as [[before after]|]; reflexivity.
  - cbn [str_partition startswith] in He.
    match type of He with
    | context [Ascii.eqb ?u c] => destruct (Ascii.eqb u c) eqn:Hc
    end; cbn [andb] in He; [discriminate He|].
    change (String c e ++ "_" ++ tail)%string
      with (String c (e ++ "_" ++ tail)).
    rewrite (split_0_cons "_dp_eps" _ c _ _ eq_refl Hc).
    rewrite (split_0_cons "_" _ c _ _ eq_refl Hc).
    rewrite IH; [reflexivity|].
    destruct (str_partition "_" e) as [[before after]|];
      [discriminate He | reflexivity].
Qed.

Lemma listed_epsilon_first (b e tail : string) :
  str_contains "_dp_eps" b = false -> str_contains "_" e = false ->
  listed_epsilon (b ++ "_dp_eps" ++ e ++ "_" ++ tail) = e.
Proof.
  intros Hb He. unfold listed_epsilon, str_contains, split_1.
  rewrite (str_partition_first b _ Hb). cbv beta iota.
  apply epsilon_before_underscore. exact He.
Qed.

(** X25. The epsilon round trip through the name of a result file.  When
    the rendering of the epsilon has no underscore and the base name of
    the upload does not contain ["_dp_eps"], [GET /dp-files] shows for the
    file that [POST /apply-dp] wrote exactly the epsilon of the request.
    When the base name already carries the mark of a result file, as the
    name of an earlier result does, the listing shows the epsilon written
    after the first mark, not the one just applied; and a name without
    ["_dp_eps"] is listed with ["N/A"]. *)
Theorem listed_epsilon_round_trip (base epsilon timestamp : string) :
  str_contains "_" epsilon = false ->
  (str_contains "_dp_eps" base = false ->
   listed_epsilon (dp_file_name base epsilon timestamp) = epsilon)
  /\ (forall base0 epsilon0 rest,
        str_contains "_dp_eps" base0 = false ->
        str_contains "_" epsilon0 = false ->
        base = (base0 ++ "_dp_eps" ++ epsilon0 ++ "_" ++ rest)%string ->
        listed_epsilon (dp_file_name base epsilon timestamp) = epsilon0)
  /\ (str_contains "_dp_eps" base = false -> listed_epsilon base = "N/A"%string).
Proof.
  intros He. split; [|split].
  - intros Hb. unfold dp_file_name. apply listed_epsilon_first; assumption.
  - intros base0 epsilon0 rest Hb0 He0 ->. unfold dp_file_name.
    rewrite !string_app_assoc.
    apply listed_epsilon_first; assumption.
  - intros Hb. unfold listed_epsilon. rewrite Hb. reflexivity.
Qed.

Lemma listed_epsilon_round_trip_witness :
  listed_epsilon (dp_file_name "people" "0.5" "20240101_120000")
  = "0.5"%string
  /\ listed_epsilon
       (dp_file_name "people_dp_eps0.5_20240101_120000" "2.0"
                     "20240102_090000")
     = "0.5"%string
  /\ listed_epsilon "people.csv" = "N/A"%string.
Proof.
  destruct (listed_epsilon_round_trip "people" "0.5" "20240101_120000")
    as (Hfirst & _ & _); [reflexivity|].
  destruct (listed_epsilon_round_trip "people_dp_eps0.5_20240101_120000"
              "2.0" "20240102_090000") as (_ & Hagain & _); [reflexivity|].
  destruct (listed_epsilon_round_trip "people.csv" "0.5" "20240101_120000")
    as (_ & _ & Hnone); [reflexivity|].
  split; [apply Hfirst; reflexivity|].
  split; [|apply Hnone; reflexivity].
  apply (Hagain "people" "0.5" "20240101_120000"); reflexivity.
Defined.
